(** * The broadcast scheduler core ([broadcast_scheduler.py]) in Rocq

    A shallow embedding of the scheduling/status core: the JSON values the
    program passes around, the Python built-ins it calls, and the functions
    [safe_read_json], [atomic_write_json], [ffprobe_metadata],
    [discover_media], [update_metadata_cache], [load_schedule],
    [parse_time_to_seconds], [resolve_schedule_items],
    [select_current_item], [build_status] and the body of the loop of
    [run_scheduler]; from the schedule editor ([schedule_manager.py]),
    [prompt_time], [prompt_int], [list_media_items], [save_schedule],
    [add_schedule_item], [remove_schedule_item] and the loop of
    [auto_fill]. The properties of the specification follow, and further
    properties of the code after them.

    Conventions of the model:
    - a Python exception is a [Raise e] result; [try/except Exception] is a
      match on the result;
    - a [dict] with string keys is a [gmap string value] (the program never
      depends on the insertion order: documents are written with
      [sort_keys=True]);
    - Python text is a [string] of 8-bit characters: the model covers ASCII
      text, and treats any other character as neither a digit nor a space;
    - instants are exact: a [datetime] is a number of microseconds since the
      epoch, and the binary rounding of [float] arithmetic is not modelled. *)

From Stdlib Require Import ZArith QArith String Ascii List Lia Lqa Sorted Permutation.
From stdpp Require Import base option list strings gmap sorting.

Local Open Scope string_scope.
Local Open Scope list_scope.
Local Open Scope Z_scope.
Local Set Warnings "-register-all".

(** ** Python values and exceptions *)

(** A Python [float]: a finite value kept as an exact rational, an infinity
    or a NaN ([json.loads] accepts [Infinity] and [NaN]). *)
Inductive pyfloat :=
| FFinite (q : Q)
| FInf (negative : bool)
| FNaN.

(** What [json.loads] returns, and what the program builds from it. *)
Inductive value :=
| VNone
| VBool (b : bool)
| VInt (z : Z)
| VFloat (f : pyfloat)
| VStr (s : string)
| VList (l : list value)
| VDict (d : gmap string value).

Inductive exn :=
| AttributeError
| TypeError
| ValueError
| KeyError
| IndexError
| OverflowError
| OSError.

Inductive result (A : Type) :=
| Ok (a : A)
| Raise (e : exn).
Arguments Ok {A} a.
Arguments Raise {A} e.

#[global] Instance result_ret : MRet result := fun A a => Ok a.
#[global] Instance result_bind : MBind result := fun A B f m =>
  match m with
  | Ok a => f a
  | Raise e => Raise e
  end.

#[global] Instance result_fmap : FMap result := fun A B f m =>
  match m with
  | Ok a => Ok (f a)
  | Raise e => Raise e
  end.

(** [try: m except Exception: handler]. *)
Definition try_except {A} (m : result A) (handler : A) : A :=
  match m with
  | Ok a => a
  | Raise _ => handler
  end.

Definition is_ok {A} (m : result A) : bool :=
  match m with
  | Ok _ => true
  | Raise _ => false
  end.

(** Truth value of an object, as [if x:] and [x or y] test it. *)
Definition truthy (v : value) : bool :=
  match v with
  | VNone => false
  | VBool b => b
  | VInt z => negb (z =? 0)
  | VFloat (FFinite q) => negb (Qeq_bool q 0)
  | VFloat _ => true
  | VStr s => negb (String.eqb s "")
  | VList l => negb (Nat.eqb (length l) 0)
  | VDict d => negb (Nat.eqb (size d) 0)
  end.

(** [a or b]. *)
Definition py_or (a b : value) : value := if truthy a then a else b.

(** [v.get(k, default)]: only a dict has the method. *)
Definition py_get (v : value) (k : string) (fallback : value) : result value :=
  match v with
  | VDict d => Ok (default fallback (d !! k))
  | _ => Raise AttributeError
  end.

(** [v.get(key)] where the key is itself a value: a list or a dict is not
    hashable; a key that is not a string is never found in a JSON object. *)
Definition py_get_key (v : value) (key : value) : result value :=
  match v with
  | VDict d =>
      match key with
      | VStr s => Ok (default VNone (d !! s))
      | VList _ | VDict _ => Raise TypeError
      | _ => Ok VNone
      end
  | _ => Raise AttributeError
  end.

(** [v[k]] for a string [k]. *)
Definition py_subscript (v : value) (k : string) : result value :=
  match v with
  | VDict d =>
      match d !! k with
      | Some x => Ok x
      | None => Raise KeyError
      end
  | _ => Raise TypeError
  end.

(** [v <= n] and [v > n] for an int [n]: numbers compare by value, a NaN
    compares false both ways, anything else is a [TypeError]. *)
Definition py_le_int (v : value) (n : Z) : result bool :=
  match v with
  | VInt z => Ok (z <=? n)
  | VBool b => Ok (Z.b2z b <=? n)
  | VFloat (FFinite q) => Ok (Qle_bool q (inject_Z n))
  | VFloat (FInf negative) => Ok negative
  | VFloat FNaN => Ok false
  | _ => Raise TypeError
  end.

Definition py_gt_int (v : value) (n : Z) : result bool :=
  match v with
  | VInt z => Ok (n <? z)
  | VBool b => Ok (n <? Z.b2z b)
  | VFloat (FFinite q) => Ok (negb (Qle_bool q (inject_Z n)))
  | VFloat (FInf negative) => Ok (negb negative)
  | VFloat FNaN => Ok false
  | _ => Raise TypeError
  end.

(** ** Text: [str.split], [str.lower], [int(str)] *)

(** [s.split(":")]: the fields between the colons, at least one. *)
Fixpoint split_colon (s : string) : list string :=
  match s with
  | EmptyString => [EmptyString]
  | String c s' =>
      if Ascii.eqb c ":" then EmptyString :: split_colon s'
      else match split_colon s' with
           | p :: ps => String c p :: ps
           | [] => [String c EmptyString]
           end
  end.

Definition is_digit (c : ascii) : bool :=
  let n := N_of_ascii c in ((48 <=? n) && (n <=? 57))%N.

Definition digit_value (c : ascii) : Z := Z.of_N (N_of_ascii c) - 48.

(** The ASCII white space that [int] and [float] strip: tab, line feed,
    vertical tab, form feed, carriage return and space. *)
Definition is_space (c : ascii) : bool :=
  let n := N_of_ascii c in
  (((9 <=? n) && (n <=? 13)) || (n =? 32))%N.

Fixpoint lstrip (s : string) : string :=
  match s with
  | String c s' => if is_space c then lstrip s' else s
  | EmptyString => EmptyString
  end.

Fixpoint rstrip (s : string) : string :=
  match s with
  | String c s' =>
      match rstrip s' with
      | EmptyString => if is_space c then EmptyString else String c EmptyString
      | r => String c r
      end
  | EmptyString => EmptyString
  end.

Definition strip (s : string) : string := rstrip (lstrip s).

(** The digits of a decimal literal: single underscores are allowed between
    digits only. [after_digit] says the previous character was a digit.
    Returns the value and the number of digits read. *)
Fixpoint parse_digits (s : string) (acc : Z) (count : nat) (after_digit : bool)
  : option (Z * nat) :=
  match s with
  | EmptyString => if after_digit then Some (acc, count) else None
  | String c s' =>
      if is_digit c then parse_digits s' (10 * acc + digit_value c) (S count) true
      else if Ascii.eqb c "_" then
        if after_digit then parse_digits s' acc count false else None
      else None
  end.

(** [sys.int_info.default_max_str_digits]: a longer literal is refused. *)
Definition int_max_str_digits : nat := 4300.

Definition parse_unsigned (s : string) : option Z :=
  match parse_digits s 0 0 false with
  | Some (z, count) => if Nat.ltb int_max_str_digits count then None else Some z
  | None => None
  end.

(** [int(s)] for a string: surrounding white space, an optional sign, then
    decimal digits. [None] stands for the [ValueError]. *)
Definition int_of_string (s : string) : option Z :=
  match strip s with
  | String "-" r => Z.opp <$> parse_unsigned r
  | String "+" r => parse_unsigned r
  | r => parse_unsigned r
  end.

(** [int(v)]. *)
Definition py_int (v : value) : result Z :=
  match v with
  | VInt z => Ok z
  | VBool b => Ok (Z.b2z b)
  | VFloat (FFinite q) => Ok (Z.quot (Qnum q) (Z.pos (Qden q)))
  | VFloat (FInf _) => Raise OverflowError
  | VFloat FNaN => Raise ValueError
  | VStr s =>
      match int_of_string s with
      | Some z => Ok z
      | None => Raise ValueError
      end
  | _ => Raise TypeError
  end.

(** ** [float(v)] *)

(** A run of digits with single underscores between them, up to the first
    other character: value, number of digits, and the text that follows. *)
Fixpoint read_digits (s : string) (acc : Z) (count : nat) (after_digit : bool)
  : option (Z * nat * string) :=
  match s with
  | EmptyString =>
      if after_digit || Nat.eqb count 0 then Some (acc, count, s) else None
  | String c s' =>
      if is_digit c then read_digits s' (10 * acc + digit_value c) (S count) true
      else if Ascii.eqb c "_" then
        if after_digit then read_digits s' acc count false else None
      else if after_digit || Nat.eqb count 0 then Some (acc, count, s) else None
  end.

Definition lower_char (c : ascii) : ascii :=
  let n := N_of_ascii c in
  if ((65 <=? n) && (n <=? 90))%N then ascii_of_N (n + 32) else c.

Fixpoint lower (s : string) : string :=
  match s with
  | EmptyString => EmptyString
  | String c s' => String (lower_char c) (lower s')
  end.

(** The exponent part of a float literal: nothing, or [e], a sign and digits. *)
Definition read_exponent (s : string) : option Z :=
  match s with
  | EmptyString => Some 0
  | String c r =>
      if Ascii.eqb (lower_char c) "e" then
        let '(negative, r) :=
          match r with
          | String "-" r' => (true, r')
          | String "+" r' => (false, r')
          | _ => (false, r)
          end in
        match read_digits r 0 0 false with
        | Some (e, S _, EmptyString) => Some (if negative : bool then - e else e)
        | _ => None
        end
      else None
  end.

(** [mantissa * 10 ^ exponent] as an exact rational. *)
Definition scale10 (mantissa exponent : Z) : Q :=
  if 0 <=? exponent then inject_Z (mantissa * 10 ^ exponent)
  else Qmake mantissa (Z.to_pos (10 ^ (- exponent))).

(** The numbers from [2^1024 - 2^970] on round beyond the largest float:
    a literal of that size reads as an infinity, and an int of that size is
    refused by [float]. *)
Definition float_overflow_bound : Z := 2 ^ 1024 - 2 ^ 970.

Definition finite_or_inf (q : Q) : pyfloat :=
  if Qle_bool (inject_Z float_overflow_bound) q then FInf false else FFinite q.

Definition float_of_unsigned (s : string) : option pyfloat :=
  let l := lower s in
  if String.eqb l "inf" || String.eqb l "infinity" then Some (FInf false)
  else if String.eqb l "nan" then Some FNaN
  else
    '(ip, n1, r1) ← read_digits s 0 0 false;
    '(fp, n2, r2) ← match r1 with
                    | String "." r => read_digits r 0 0 false
                    | _ => Some (0, 0%nat, r1)
                    end;
    if Nat.eqb (n1 + n2) 0 then None
    else
      e ← read_exponent r2;
      Some (finite_or_inf (scale10 (ip * 10 ^ Z.of_nat n2 + fp) (e - Z.of_nat n2))).

Definition float_neg (f : pyfloat) : pyfloat :=
  match f with
  | FFinite q => FFinite (Qopp q)
  | FInf negative => FInf (negb negative)
  | FNaN => FNaN
  end.

(** [float(s)] for a string; [None] stands for the [ValueError]. *)
Definition float_of_string (s : string) : option pyfloat :=
  match strip s with
  | String "-" r => float_neg <$> float_of_unsigned r
  | String "+" r => float_of_unsigned r
  | r => float_of_unsigned r
  end.

(** [float(v)]. *)
Definition py_float (v : value) : result pyfloat :=
  match v with
  | VFloat f => Ok f
  | VInt z =>
      if float_overflow_bound <=? Z.abs z then Raise OverflowError
      else Ok (FFinite (inject_Z z))
  | VBool b => Ok (FFinite (inject_Z (Z.b2z b)))
  | VStr s =>
      match float_of_string s with
      | Some f => Ok f
      | None => Raise ValueError
      end
  | _ => Raise TypeError
  end.

(** ** Paths ([pathlib.PurePath]) *)

(** A path: the text up to and including the last separator, and the final
    component. *)
Record path := mk_path { path_parent : string; path_name : string }.

(** [str(p)]. *)
Definition path_str (p : path) : string := path_parent p +:+ path_name p.

(** [name.rfind(".")]. *)
Fixpoint rfind_dot (s : string) : option nat :=
  match s with
  | EmptyString => None
  | String c s' =>
      match rfind_dot s' with
      | Some i => Some (S i)
      | None => if Ascii.eqb c "." then Some 0%nat else None
      end
  end.

(** The index at which [p.suffix] starts, when [0 < i < len(name) - 1]. *)
Definition suffix_index (name : string) : option nat :=
  match rfind_dot name with
  | Some i =>
      if Nat.ltb 0 i && Nat.ltb i (String.length name - 1) then Some i else None
  | None => None
  end.

(** [p.suffix] and [p.stem]. *)
Definition path_suffix (p : path) : string :=
  match suffix_index (path_name p) with
  | Some i => substring i (String.length (path_name p) - i) (path_name p)
  | None => ""
  end.

Definition path_stem (p : path) : string :=
  match suffix_index (path_name p) with
  | Some i => substring 0 i (path_name p)
  | None => path_name p
  end.

Fixpoint contains_char (c : ascii) (s : string) : bool :=
  match s with
  | EmptyString => false
  | String c' s' => Ascii.eqb c c' || contains_char c s'
  end.

(** [p.with_suffix(suffix)]. *)
Definition with_suffix (p : path) (suffix : string) : result path :=
  if contains_char "/" suffix then Raise ValueError
  else if (negb (String.eqb suffix "") && negb (String.prefix "." suffix))
          || String.eqb suffix "." then Raise ValueError
  else if String.eqb (path_name p) "" then Raise ValueError
  else
    let old_suffix := path_suffix p in
    let name :=
      if String.eqb old_suffix "" then path_name p +:+ suffix
      else substring 0 (String.length (path_name p) - String.length old_suffix)
             (path_name p) +:+ suffix in
    Ok (mk_path (path_parent p) name).

(** ** Instants ([datetime] in UTC) *)

(** An aware UTC [datetime], held as the microseconds elapsed since
    1970-01-01T00:00:00Z (negative before). *)
Record datetime := mk_datetime { dt_micros : Z }.

(** Whole seconds since the epoch. *)
Definition epoch_seconds (dt : datetime) : Z := dt_micros dt / 1000000.

(** [dt.hour], [dt.minute], [dt.second]. *)
Definition dt_hour (dt : datetime) : Z := (epoch_seconds dt mod 86400) / 3600.
Definition dt_minute (dt : datetime) : Z := (epoch_seconds dt mod 3600) / 60.
Definition dt_second (dt : datetime) : Z := epoch_seconds dt mod 60.

(** The proleptic Gregorian date of a day number (days since 1970-01-01). *)
Definition ymd_of_days (days : Z) : Z * Z * Z :=
  let z := days + 719468 in
  let era := z / 146097 in
  let doe := z - era * 146097 in
  let yoe := (doe - doe / 1460 + doe / 36524 - doe / 146096) / 365 in
  let doy := doe - (365 * yoe + yoe / 4 - yoe / 100) in
  let mp := (5 * doy + 2) / 153 in
  let d := doy - (153 * mp + 2) / 5 + 1 in
  let m := if mp <? 10 then mp + 3 else mp - 9 in
  let y := yoe + era * 400 + (if m <=? 2 then 1 else 0) in
  (y, m, d).

Definition digit_char (n : Z) : ascii := ascii_of_N (Z.to_N (48 + n mod 10)).

Definition two_digits (n : Z) : string :=
  String (digit_char (n / 10)) (String (digit_char n) EmptyString).

Definition four_digits (n : Z) : string := two_digits (n / 100) +:+ two_digits n.

(** [format_utc]: [strftime("%Y-%m-%dT%H:%M:%SZ")] of the instant in UTC.
    The year is written with four digits, as it is from the year 1000 on;
    for an earlier year the padding of [%Y] depends on the C library. *)
Definition format_utc (dt : datetime) : string :=
  let '(y, m, d) := ymd_of_days (epoch_seconds dt / 86400) in
  four_digits y +:+ "-" +:+ two_digits m +:+ "-" +:+ two_digits d +:+ "T"
  +:+ two_digits (dt_hour dt) +:+ ":" +:+ two_digits (dt_minute dt) +:+ ":"
  +:+ two_digits (dt_second dt) +:+ "Z".

(** The instants a [datetime] can hold: years 1 to 9999. *)
Definition min_datetime_micros : Z := -62135596800 * 1000000.
Definition max_datetime_micros : Z := 253402300799 * 1000000 + 999999.

(** [datetime.fromtimestamp(t, tz=timezone.utc)], [t] in microseconds. It
    raises outside the years 1 to 9999: a [ValueError] next to the range;
    far from it the exception depends on the platform, and is given here as
    an [OverflowError]. *)
Definition datetime_fromtimestamp (t : Z) : result datetime :=
  if (t <? - 2 ^ 63 * 1000000) || (2 ^ 63 * 1000000 <=? t) then Raise OverflowError
  else if (t <? min_datetime_micros) || (max_datetime_micros <? t) then Raise ValueError
  else Ok (mk_datetime t).

(** The instant [h:m:s] of the day 2024-01-01 (UTC), for the examples. *)
Definition at_time_of_day (h m s : Z) : datetime :=
  mk_datetime ((1704067200 + h * 3600 + m * 60 + s) * 1000000).

(** ** The program: constants and file access *)

Definition SUPPORTED_VIDEO_EXTS : gset string :=
  {[ ".mp4"; ".mkv"; ".mov"; ".avi"; ".webm"; ".m4v" ]}.
Definition SUPPORTED_AUDIO_EXTS : gset string :=
  {[ ".mp3"; ".wav"; ".flac"; ".aac"; ".ogg" ]}.
Definition SUPPORTED_IMAGE_EXTS : gset string :=
  {[ ".jpg"; ".jpeg"; ".png"; ".webp" ]}.

Definition POLL_INTERVAL_SECONDS : Q := inject_Z 1.
Definition RESCAN_INTERVAL_SECONDS : Q := inject_Z 10.

Definition SCHEDULE_FILE : path := mk_path "" "schedule.json".
Definition METADATA_FILE : path := mk_path "" "media_metadata.json".
Definition STATUS_FILE : path := mk_path "" "obs_status.json".

(** What a JSON file holds when [safe_read_json] looks at it. *)
Inductive file_state :=
| FileMissing
    (** [path.exists()] is false *)
| FileUnreadable
    (** [path.exists()] or [path.read_text] raises *)
| FileText (parsed : option value)
    (** the text is read; [json.loads] returns [parsed], or raises ([None]) *).

Definition safe_read_json (file : file_state) (fallback : value) : value :=
  try_except
    match file with
    | FileMissing => Ok fallback
    | FileUnreadable => Raise OSError
    | FileText None => Raise ValueError
    | FileText (Some v) => Ok v
    end
    fallback.

(** ** [atomic_write_json] on a file system

    Files are named by [str(path)] and hold text. [json.dumps] is a
    parameter: the serialised text is whatever the encoder produces. *)

(** Where a write can go wrong. *)
Inductive write_fault :=
| NoFault
| OpenFails
    (** [write_text] raises before the temporary file is opened *)
| WriteFails (written : nat)
    (** [write_text] raises once [written] characters reached the file *)
| ReplaceFails
    (** the text is written, and [replace] raises *).

(** What the caller of [atomic_write_json] sees. *)
Definition atomic_write_result (fault : write_fault) : result unit :=
  match fault with
  | NoFault => Ok ()
  | _ => Raise OSError
  end.

Section AtomicWrite.
Variable json_dumps : value -> string.

(** [path.with_suffix(path.suffix + ".tmp")]. *)
Definition tmp_path_of (p : path) : result path :=
  with_suffix p (path_suffix p +:+ ".tmp").

(** [tmp_path.write_text(text)]: the file is created or truncated, then
    filled; between the two some prefix of the text is in it. The states
    are listed up to the prefix of [upto] characters. *)
Definition write_text_states (fs : gmap string string) (tmp : string)
    (text : string) (upto : nat) : list (gmap string string) :=
  (fun k => <[tmp := substring 0 k text]> fs) <$> seq 0 (S upto).

(** [tmp_path.replace(path)]: the rename, in one step. *)
Definition replace_file (fs : gmap string string) (tmp target : string)
  : gmap string string :=
  match fs !! tmp with
  | Some text => <[target := text]> (delete tmp fs)
  | None => fs
  end.

(** [atomic_write_json path data] started on the file system [fs]: the
    file systems another process can observe from then on, in order (the
    last one is the state it leaves), and the outcome for the caller. *)
Definition atomic_write_json (p : path) (data : value) (fault : write_fault)
    (fs : gmap string string) : list (gmap string string) * result unit :=
  match tmp_path_of p with
  | Raise e => ([fs], Raise e)
  | Ok tmp_path =>
      let text := json_dumps data in
      let tmp := path_str tmp_path in
      let full := write_text_states fs tmp text (String.length text) in
      match fault with
      | OpenFails => ([fs], Raise OSError)
      | WriteFails written =>
          (fs :: write_text_states fs tmp text (Nat.min written (String.length text)),
           Raise OSError)
      | ReplaceFails => (fs :: full, Raise OSError)
      | NoFault =>
          (fs :: full ++ [replace_file (<[tmp := text]> fs) tmp (path_str p)],
           Ok ())
      end
  end.
End AtomicWrite.

(** ** Metadata refresh: [ffprobe_metadata], [discover_media] *)

(** The [try] block of [ffprobe_metadata]: [subprocess.run] or [json.loads]
    raises, or the parsed standard output of [ffprobe] is bound to
    [payload]. *)
Inductive probe_outcome :=
| ProbeFails
| ProbeOutput (payload : value).

Definition ffprobe_metadata (file_path : path) (probe : probe_outcome)
  : result (gmap string value) :=
  let payload :=
    match probe with
    | ProbeOutput v => v
    | ProbeFails => VDict ∅
    end in
  tags ← (if truthy payload
          then fmt ← py_get payload "format" (VDict ∅); py_get fmt "tags" (VDict ∅)
          else Ok (VDict ∅));
  duration ← (if truthy payload
              then fmt ← py_get payload "format" (VDict ∅); py_get fmt "duration" VNone
              else Ok VNone);
  t ← py_get tags "title" VNone;
  let title := py_or t (VStr (path_stem file_path)) in
  d ← py_get tags "description" VNone;
  description ← (if truthy d then Ok d
                 else c ← py_get tags "comment" VNone; Ok (py_or c (VStr "")));
  a ← py_get tags "date" VNone;
  original_air_date ← (if truthy a then Ok a
                       else c ← py_get tags "creation_time" VNone; Ok (py_or c (VStr "")));
  duration_seconds ← (if truthy duration then VFloat <$> py_float duration else Ok VNone);
  Ok (<["title" := title]>
      (<["description" := description]>
       (<["original_air_date" := original_air_date]>
        (<["duration_seconds" := duration_seconds]> ∅)))).

(** What [discover_media] finds: no directory, an error while walking it, or
    the regular files under it, each with the outcome of its probe. *)
Inductive dir_state :=
| DirMissing
| DirUnreadable
| DirFiles (files : list (path * probe_outcome)).

(** [{p.stem: p for p in all_files if p.suffix.lower() in SUPPORTED_IMAGE_EXTS}]. *)
Definition images_by_stem_of (all_files : list path) : gmap string path :=
  foldl (fun m p =>
           if bool_decide (lower (path_suffix p) ∈ SUPPORTED_IMAGE_EXTS)
           then <[path_stem p := p]> m else m)
        ∅ all_files.

(** The [for file_path in all_files] loop, [items] being the dict built so far. *)
Fixpoint discover_loop (images_by_stem : gmap string path)
    (files : list (path * probe_outcome)) (items : gmap string value)
  : result (gmap string value) :=
  match files with
  | [] => Ok items
  | (file_path, probe) :: rest =>
      let ext := lower (path_suffix file_path) in
      if bool_decide (ext ∈ SUPPORTED_VIDEO_EXTS) then
        metadata ← ffprobe_metadata file_path probe;
        discover_loop images_by_stem rest
          (<[path_name file_path :=
               VDict (metadata ∪ <["type" := VStr "video"]>
                                  (<["path" := VStr (path_str file_path)]> ∅))]> items)
      else if bool_decide (ext ∈ SUPPORTED_AUDIO_EXTS) then
        let image_path := images_by_stem !! path_stem file_path in
        metadata ← ffprobe_metadata file_path probe;
        discover_loop images_by_stem rest
          (<[path_name file_path :=
               VDict (metadata ∪ <["type" := VStr "audio"]>
                                  (<["path" := VStr (path_str file_path)]>
                                   (<["image_path" :=
                                        match image_path with
                                        | Some ip => VStr (path_str ip)
                                        | None => VNone
                                        end]> ∅)))]> items)
      else discover_loop images_by_stem rest items
  end.

Definition discover_media (directory : dir_state) : result (gmap string value) :=
  match directory with
  | DirMissing => Ok ∅
  | DirUnreadable => Raise OSError
  | DirFiles files => discover_loop (images_by_stem_of files.*1) files ∅
  end.

(** [update_metadata_cache]: [now] is what [utc_now()] returns, [fault] what
    happens to the write of [METADATA_FILE]. *)
Definition update_metadata_cache (directory : dir_state) (now : datetime)
    (fault : write_fault) : result value :=
  media_items ← discover_media directory;
  let payload :=
    VDict (<["updated_at" := VStr (format_utc now)]>
           (<["items" := VDict media_items]> ∅)) in
  _ ← atomic_write_result fault;
  Ok payload.

(** ** The schedule: [load_schedule], [parse_time_to_seconds],
    [resolve_schedule_items] *)

Definition default_schedule (now : datetime) : value :=
  VDict (<["timezone" := VStr "UTC"]>
         (<["items" := VList []]>
          (<["last_updated" := VStr (format_utc now)]> ∅))).

Definition load_schedule (file : file_state) (now : datetime) : value :=
  safe_read_json file (default_schedule now).

(** [[int(p) for p in parts]]. *)
Fixpoint int_parts (parts : list string) : result (list Z) :=
  match parts with
  | [] => Ok []
  | p :: rest => n ← py_int (VStr p); ns ← int_parts rest; Ok (n :: ns)
  end.

Definition parse_time_to_seconds (time_str : value) : option Z :=
  try_except
    match time_str with
    | VStr s =>
        parts ← int_parts (split_colon s);
        match parts with
        | [h; m; sec] => Ok (Some (h * 3600 + m * 60 + sec))
        | _ => Ok None
        end
    | _ => Raise AttributeError
    end
    None.

(** What [for item in v] runs over. *)
Fixpoint chars_of (s : string) : list value :=
  match s with
  | EmptyString => []
  | String c s' => VStr (String c EmptyString) :: chars_of s'
  end.

Definition py_iter (v : value) : result (list value) :=
  match v with
  | VList l => Ok l
  | VStr s => Ok (chars_of s)
  | VDict d => Ok (VStr <$> (map_to_list d).*1)
  | _ => Raise TypeError
  end.

(** The loop of [resolve_schedule_items] over the remaining [items]: the
    entries it appends to [normalized], in order. *)
Fixpoint normalize_loop (items : list value) : result (list value) :=
  match items with
  | [] => Ok []
  | item :: rest =>
      time_str ← py_get item "time" (VStr "");
      match parse_time_to_seconds time_str with
      | None => normalize_loop rest
      | Some seconds =>
          match item with
          | VDict d =>
              normalized ← normalize_loop rest;
              Ok (VDict (<["_seconds" := VInt seconds]> d) :: normalized)
          | _ => Raise TypeError
          end
      end
  end.

(** The sort key [x["_seconds"]] of a normalized entry (an int, as
    [normalize_loop] has just stored it). *)
Definition seconds_of (x : value) : Z :=
  match x with
  | VDict d =>
      match d !! "_seconds" with
      | Some (VInt z) => z
      | _ => 0
      end
  | _ => 0
  end.

(** [list.sort(key=...)] is stable: an entry goes before the first one whose
    key is not smaller, entries being inserted from the last to the first. *)
Fixpoint insert_by_seconds (x : value) (l : list value) : list value :=
  match l with
  | [] => [x]
  | y :: l' =>
      if seconds_of x <=? seconds_of y then x :: l
      else y :: insert_by_seconds x l'
  end.

Definition sort_by_seconds (l : list value) : list value :=
  foldr insert_by_seconds [] l.

Definition resolve_schedule_items (schedule : value) : result (list value) :=
  items ← py_get schedule "items" (VList []);
  items ← py_iter items;
  normalized ← normalize_loop items;
  Ok (sort_by_seconds normalized).

(** ** The resolver: [select_current_item] *)

(** [now_utc.hour * 3600 + now_utc.minute * 60 + now_utc.second]. *)
Definition now_seconds_of (now_utc : datetime) : Z :=
  dt_hour now_utc * 3600 + dt_minute now_utc * 60 + dt_second now_utc.

(** [l[i]] for a natural [i], and [l[-1]]. *)
Definition py_index (l : list value) (i : nat) : result value :=
  match l !! i with
  | Some x => Ok x
  | None => Raise IndexError
  end.

Definition py_last (l : list value) : result value :=
  match last l with
  | Some x => Ok x
  | None => Raise IndexError
  end.

(** [x is None]. *)
Definition is_none {A} (x : option A) : bool :=
  match x with
  | None => true
  | Some _ => false
  end.

(** The [for idx, item in enumerate(schedule_items)] loop, from index [idx]
    on, [rest] being the entries not yet visited; [current] and [next_item]
    are [None] while unset. Returns their values when the loop is left, at
    the end of the list or by the [break]. *)
Fixpoint select_loop (schedule_items : list value) (now_seconds : Z) (idx : nat)
    (rest : list value) (current next_item : option value)
  : result (option value * option value) :=
  match rest with
  | [] => Ok (current, next_item)
  | item :: rest' =>
      s ← py_subscript item "_seconds";
      started ← py_le_int s now_seconds;
      if started : bool then
        next ← (if Nat.ltb (idx + 1) (length schedule_items)
                then py_index schedule_items (idx + 1)
                else py_index schedule_items 0);
        select_loop schedule_items now_seconds (S idx) rest' (Some item) (Some next)
      else
        s ← py_subscript item "_seconds";
        later ← py_gt_int s now_seconds;
        if later && is_none current then
          last_item ← py_last schedule_items;
          Ok (Some last_item, Some item)
        else select_loop schedule_items now_seconds (S idx) rest' current next_item
  end.

Definition select_current_item (schedule_items : list value) (now_utc : datetime)
  : result (option value * option value) :=
  match schedule_items with
  | [] => Ok (None, None)
  | _ =>
      let now_seconds := now_seconds_of now_utc in
      '(current, next_item) ←
        select_loop schedule_items now_seconds 0 schedule_items None None;
      current ← match current with
                | None => Some <$> py_last schedule_items
                | Some c => Ok (Some c)
                end;
      next_item ← match next_item with
                  | None => Some <$> py_index schedule_items 0
                  | Some n => Ok (Some n)
                  end;
      Ok (current, next_item)
  end.

(** ** The publisher: [build_status] *)

(** [if x:] for an optional dict. *)
Definition present (x : option value) : bool :=
  match x with
  | Some v => truthy v
  | None => false
  end.

(** [build_status], [now] being what its call of [utc_now()] returns.
    [now.timestamp()] is the instant in seconds; it is kept here in
    microseconds, and the sum with the duration is exact. In the code the
    sum is a binary float (line 191), equal to the exact sum as long as the
    instants stay below [2^32] seconds; further away it can differ from it
    by microseconds and, from [2^33] seconds on, fall in the next second. *)
Definition build_status (now : datetime) (current_item next_item : option value)
    (metadata_cache : value) : result (gmap string value) :=
  let status : gmap string value :=
    <["current_utc" := VStr (format_utc now)]>
    (<["current_item" := VNone]>
     (<["next_item" := VNone]>
      (<["metadata" := VNone]> ∅))) in
  items ← py_get metadata_cache "items" (VDict ∅);
  status ←
    (if present current_item then
       let current_item := default VNone current_item in
       media_key ← py_get current_item "media" VNone;
       metadata ← py_get_key items media_key;
       display_duration ← py_get current_item "metadata_display_duration" (VInt 10);
       seconds ← py_int display_duration;
       let display_until := dt_micros now + seconds * 1000000 in
       time ← py_get current_item "time" VNone;
       let status :=
         <["current_item" :=
             VDict (<["time" := time]>
                    (<["media" := media_key]>
                     (<["metadata_display_duration" := display_duration]> ∅)))]>
           status in
       let status := <["metadata" := metadata]> status in
       until ← datetime_fromtimestamp display_until;
       Ok (<["display_until_utc" := VStr (format_utc until)]> status)
     else Ok status);
  (if present next_item then
     let next_item := default VNone next_item in
     time ← py_get next_item "time" VNone;
     media ← py_get next_item "media" VNone;
     Ok (<["next_item" := VDict (<["time" := time]> (<["media" := media]> ∅))]> status)
   else Ok status).

(** ** The loop: [run_scheduler] *)

(** The variables of [run_scheduler] that live across iterations. *)
Record scheduler_state := mk_state {
  metadata_cache : value;
  last_metadata_scan : Q;
  schedule_cache : value;
  schedule_mtime : Q;
}.

(** What one iteration of the loop meets outside the program, in the order
    in which it asks. *)
Record tick_io := mk_tick_io {
  io_time : Q;
    (** [time.time()] *)
  io_media_dir : dir_state;
    (** what [discover_media(MEDIA_DIR)] finds *)
  io_metadata_now : datetime;
    (** [utc_now()] in [update_metadata_cache] *)
  io_metadata_write : write_fault;
    (** the write of [METADATA_FILE] *)
  io_schedule_exists : result bool;
    (** [SCHEDULE_FILE.exists()] *)
  io_schedule_stat : result Q;
    (** [SCHEDULE_FILE.stat().st_mtime] *)
  io_schedule_file : file_state;
    (** what [load_schedule] reads *)
  io_schedule_now : datetime;
    (** [utc_now()] in [load_schedule] *)
  io_select_now : datetime;
    (** [utc_now()] passed to [select_current_item] *)
  io_status_now : datetime;
    (** [utc_now()] in [build_status] *)
  io_status_write : write_fault;
    (** the write of [STATUS_FILE] *)
}.

(** The first [if] of the loop body: the metadata cache and the time of the
    last scan after it. *)
Definition tick_refresh_metadata (io : tick_io) (st : scheduler_state)
  : result (value * Q) :=
  let now := io_time io in
  if negb (Qle_bool (now - last_metadata_scan st) RESCAN_INTERVAL_SECONDS) then
    payload ← update_metadata_cache (io_media_dir io) (io_metadata_now io)
                (io_metadata_write io);
    Ok (payload, now)
  else Ok (metadata_cache st, last_metadata_scan st).

(** The second [if] of the loop body: the schedule cache and the
    modification time it was read at. *)
Definition tick_reload_schedule (io : tick_io) (st : scheduler_state)
  : result (value * Q) :=
  found ← io_schedule_exists io;
  if found : bool then
    mtime ← io_schedule_stat io;
    if negb (Qeq_bool mtime (schedule_mtime st)) then
      Ok (load_schedule (io_schedule_file io) (io_schedule_now io), mtime)
    else Ok (schedule_cache st, schedule_mtime st)
  else Ok (schedule_cache st, schedule_mtime st).

(** The body of [while True]: the state for the next iteration and the
    status document written to [STATUS_FILE], or the exception that leaves
    the loop. *)
Definition tick (io : tick_io) (st : scheduler_state)
  : result (scheduler_state * gmap string value) :=
  '(metadata_cache, last_metadata_scan) ← tick_refresh_metadata io st;
  '(schedule_cache, schedule_mtime) ← tick_reload_schedule io st;
  schedule_items ← resolve_schedule_items schedule_cache;
  '(current_item, next_item) ← select_current_item schedule_items (io_select_now io);
  status ← build_status (io_status_now io) current_item next_item metadata_cache;
  _ ← atomic_write_result (io_status_write io);
  Ok (mk_state metadata_cache last_metadata_scan schedule_cache schedule_mtime, status).

(** The loop over the iterations whose surroundings are given: the status
    documents published, and the state after the last iteration, or the
    exception that ended the loop (and the process). *)
Fixpoint run_ticks (ticks : list tick_io) (st : scheduler_state)
  : list (gmap string value) * result scheduler_state :=
  match ticks with
  | [] => ([], Ok st)
  | io :: rest =>
      match tick io st with
      | Ok (st', status) =>
          let '(published, outcome) := run_ticks rest st' in
          (status :: published, outcome)
      | Raise e => ([], Raise e)
      end
  end.

(** What [run_scheduler] meets before the loop. *)
Record startup_io := mk_startup_io {
  start_mkdir : result unit;
    (** [MEDIA_DIR.mkdir(parents=True, exist_ok=True)] *)
  start_metadata_file : file_state;
  start_schedule_file : file_state;
  start_schedule_now : datetime;
  start_schedule_exists : result bool;
  start_schedule_stat : result Q;
}.

Definition startup (io : startup_io) : result scheduler_state :=
  _ ← start_mkdir io;
  let metadata_cache :=
    safe_read_json (start_metadata_file io) (VDict (<["items" := VDict ∅]> ∅)) in
  let schedule_cache := load_schedule (start_schedule_file io) (start_schedule_now io) in
  found ← start_schedule_exists io;
  schedule_mtime ← (if found : bool then start_schedule_stat io
                    else Ok (inject_Z 0));
  Ok (mk_state metadata_cache (inject_Z 0) schedule_cache schedule_mtime).

Definition run_scheduler (start : startup_io) (ticks : list tick_io)
  : list (gmap string value) * result scheduler_state :=
  match startup start with
  | Ok st => run_ticks ticks st
  | Raise e => ([], Raise e)
  end.

(** ** Schedule entries for the examples *)

(** An entry of the schedule document. *)
Definition schedule_entry (time media : string) (duration : Z) : gmap string value :=
  <["time" := VStr time]>
  (<["media" := VStr media]>
   (<["metadata_display_duration" := VInt duration]> ∅)).

(** The same entry once [resolve_schedule_items] has added its seconds. *)
Definition resolved_entry (time media : string) (duration seconds : Z) : value :=
  VDict (<["_seconds" := VInt seconds]> (schedule_entry time media duration)).

(** The schedules of the examples of the specification, resolved. *)
Definition showA : value := resolved_entry "08:00:00" "showA" 10 28800.
Definition showB : value := resolved_entry "20:00:00" "showB" 5 72000.
Definition morning : value := resolved_entry "06:00:00" "morning" 10 21600.
Definition evening : value := resolved_entry "18:00:00" "evening" 10 64800.

(** A schedule document with the given entries. *)
Definition schedule_document (entries : list (gmap string value))
  : gmap string value :=
  <["timezone" := VStr "UTC"]>
  (<["items" := VList (VDict <$> entries)]>
   (<["last_updated" := VStr "2024-01-01T00:00:00Z"]> ∅)).

(** A state of the loop: an empty metadata cache scanned at 09:29:55, and
    the schedule of [showA] and [showB] read at modification time 1. *)
Definition example_state : scheduler_state :=
  mk_state (VDict (<["items" := VDict ∅]> ∅)) (inject_Z 1704101395)
    (VDict (schedule_document [schedule_entry "08:00:00" "showA" 10;
                               schedule_entry "20:00:00" "showB" 5]))
    (inject_Z 1).

(** An iteration at 09:30:00 in which nothing changed outside and nothing
    goes wrong: no scan is due and the schedule file is as it was. *)
Definition quiet_io : tick_io :=
  {| io_time := inject_Z 1704101400;
     io_media_dir := DirMissing;
     io_metadata_now := at_time_of_day 9 30 0;
     io_metadata_write := NoFault;
     io_schedule_exists := Ok true;
     io_schedule_stat := Ok (inject_Z 1);
     io_schedule_file := FileText (Some (VDict (schedule_document [])));
     io_schedule_now := at_time_of_day 9 30 0;
     io_select_now := at_time_of_day 9 30 0;
     io_status_now := at_time_of_day 9 30 0;
     io_status_write := NoFault |}.

(** The same iteration with another outcome for the write of the status. *)
Definition with_status_write (fault : write_fault) (io : tick_io) : tick_io :=
  {| io_time := io_time io;
     io_media_dir := io_media_dir io;
     io_metadata_now := io_metadata_now io;
     io_metadata_write := io_metadata_write io;
     io_schedule_exists := io_schedule_exists io;
     io_schedule_stat := io_schedule_stat io;
     io_schedule_file := io_schedule_file io;
     io_schedule_now := io_schedule_now io;
     io_select_now := io_select_now io;
     io_status_now := io_status_now io;
     io_status_write := fault |}.

(** The same iteration with a schedule file modified at time [mtime]. *)
Definition with_schedule_file (file : file_state) (mtime : Q) (io : tick_io)
  : tick_io :=
  {| io_time := io_time io;
     io_media_dir := io_media_dir io;
     io_metadata_now := io_metadata_now io;
     io_metadata_write := io_metadata_write io;
     io_schedule_exists := Ok true;
     io_schedule_stat := Ok mtime;
     io_schedule_file := file;
     io_schedule_now := io_schedule_now io;
     io_select_now := io_select_now io;
     io_status_now := io_status_now io;
     io_status_write := io_status_write io |}.

(** ** Predicates of the specification *)

(** The ["time"] of an entry of the schedule document, [item.get("time", "")]. *)
Definition entry_time (d : gmap string value) : value :=
  default (VStr "") (d !! "time").

(** What the loop of [resolve_schedule_items] makes of one entry: nothing
    when its time does not parse, the entry with its seconds otherwise. *)
Definition normalize_entry (d : gmap string value) : option value :=
  seconds ← parse_time_to_seconds (entry_time d);
  Some (VDict (<["_seconds" := VInt seconds]> d)).

(** A schedule file that [safe_read_json] cannot read as JSON. *)
Definition unreadable_json (file : file_state) : Prop :=
  file = FileMissing ∨ file = FileUnreadable ∨ file = FileText None.

(** A schedule document the loop of [resolve_schedule_items] gets through:
    an object, whose ["items"] (a list when absent) is a list of objects,
    or an empty string or an empty object, which give the loop nothing to
    visit. Of anything else the loop cannot take the ["items"], cannot
    iterate over them or meets an element without [get]. *)
Definition is_object (v : value) : bool :=
  match v with
  | VDict _ => true
  | _ => false
  end.

Definition walkable_schedule (v : value) : bool :=
  match v with
  | VDict d =>
      match default (VList []) (d !! "items") with
      | VList l => forallb is_object l
      | VStr s => String.eqb s ""
      | VDict m => Nat.eqb (size m) 0
      | _ => false
      end
  | _ => false
  end.

(** 2100-01-01T00:00:00Z. The code holds the instant of line 191 as a binary
    float of seconds; from 1970 to this instant (which is below [2^32]
    seconds) such a float carries the microseconds exactly, so that the sum
    of line 191 is the exact sum taken in [build_status] here. *)
Definition year_2100_micros : Z := 4102444800 * 1000000.

(** The status published while nothing is scheduled. *)
Definition idle_status (now : datetime) : gmap string value :=
  <["current_utc" := VStr (format_utc now)]>
  (<["current_item" := VNone]>
   (<["next_item" := VNone]>
    (<["metadata" := VNone]> ∅))).

(** The instant [seconds] after [now]. *)
Definition plus_seconds (now : datetime) (seconds : Z) : datetime :=
  mk_datetime (dt_micros now + seconds * 1000000).

(** The ["current_item"] and ["next_item"] of a status, for the entries
    [ci] and [ni] of the schedule. *)
Definition status_current_item (ci : gmap string value) : value :=
  VDict (<["time" := default VNone (ci !! "time")]>
         (<["media" := default VNone (ci !! "media")]>
          (<["metadata_display_duration" :=
               default (VInt 10) (ci !! "metadata_display_duration")]> ∅))).

Definition status_next_item (ni : gmap string value) : value :=
  VDict (<["time" := default VNone (ni !! "time")]>
         (<["media" := default VNone (ni !! "media")]> ∅)).

(** The status published for the current entry [ci], shown for [seconds]
    with the metadata [metadata], and the next entry [next_item]. *)
Definition status_with_current (now : datetime) (ci : gmap string value)
    (metadata : value) (seconds : Z) : gmap string value :=
  <["display_until_utc" := VStr (format_utc (plus_seconds now seconds))]>
  (<["metadata" := metadata]>
   (<["current_item" := status_current_item ci]> (idle_status now))).

Definition status_with_next (next_item : option (gmap string value))
    (status : gmap string value) : gmap string value :=
  match next_item with
  | Some ni =>
      if truthy (VDict ni) then <["next_item" := status_next_item ni]> status
      else status
  | None => status
  end.

(** [p.suffix.lower()] is a video or an audio extension. *)
Definition is_media_file (p : path) : Prop :=
  lower (path_suffix p) ∈ SUPPORTED_VIDEO_EXTS ∨
  lower (path_suffix p) ∈ SUPPORTED_AUDIO_EXTS.

(** What [ffprobe_metadata] returns for a file whose probe failed. *)
Definition default_metadata (p : path) : gmap string value :=
  <["title" := VStr (path_stem p)]>
  (<["description" := VStr ""]>
   (<["original_air_date" := VStr ""]>
    (<["duration_seconds" := VNone]> ∅))).

(** An entry as [resolve_schedule_items] leaves it: a dict whose
    ["_seconds"] is an int. *)
Definition normalized_entry (x : value) : Prop :=
  ∃ d z, x = VDict d ∧ d !! "_seconds" = Some (VInt z).

(** ** The schedule editor ([schedule_manager.py]) *)

(** [value.strip()]: the ASCII characters [str.isspace] accepts are removed
    at both ends. *)
Definition is_str_space (c : ascii) : bool :=
  let n := N_of_ascii c in
  (((9 <=? n) && (n <=? 13)) || ((28 <=? n) && (n <=? 32)))%N.

Fixpoint str_lstrip (s : string) : string :=
  match s with
  | String c s' => if is_str_space c then str_lstrip s' else s
  | EmptyString => EmptyString
  end.

Fixpoint str_rstrip (s : string) : string :=
  match s with
  | String c s' =>
      match str_rstrip s' with
      | EmptyString => if is_str_space c then EmptyString else String c EmptyString
      | r => String c r
      end
  | EmptyString => EmptyString
  end.

Definition str_strip (s : string) : string := str_rstrip (str_lstrip s).

(** [part.isdigit()]: not empty, and digits only. *)
Fixpoint all_digits (s : string) : bool :=
  match s with
  | EmptyString => true
  | String c s' => is_digit c && all_digits s'
  end.

Definition str_isdigit (s : string) : bool :=
  negb (String.eqb s "") && all_digits s.

(** [f"{hour:02d}:{minute:02d}:{second:02d}"], for fields from 0 to 99 (the
    code formats fields that passed its range checks). *)
Definition format_time (hour minute second : Z) : string :=
  two_digits hour +:+ ":" +:+ two_digits minute +:+ ":" +:+ two_digits second.

(** One round of the loop of [prompt_time] on the line the user typed: the
    time it returns, or [None] when it prints "Invalid time format." and
    asks again. *)
Definition prompt_time_attempt (line : string) : result (option string) :=
  let value := str_strip line in
  let parts := split_colon value in
  if Nat.eqb (length parts) 3 && forallb str_isdigit parts then
    numbers ← int_parts parts;
    match numbers with
    | [hour; minute; second] =>
        if (0 <=? hour) && (hour <? 24) && (0 <=? minute) && (minute <? 60)
           && (0 <=? second) && (second <? 60)
        then Ok (Some (format_time hour minute second))
        else Ok None
    | _ => Ok None
    end
  else Ok None.

(** [prompt_time] over the lines the user types: the time returned, or
    [None] when every line was refused and the prompt is still waiting. *)
Fixpoint prompt_time (lines : list string) : result (option string) :=
  match lines with
  | [] => Ok None
  | line :: rest =>
      answer ← prompt_time_attempt line;
      match answer with
      | Some time => Ok (Some time)
      | None => prompt_time rest
      end
  end.

(** The loop of [auto_fill] over the media names left, at [hour]: the
    entries it appends to the emptied schedule. *)
Fixpoint auto_fill_loop (media_items : list string) (hour : Z)
  : list (gmap string value) :=
  match media_items with
  | [] => []
  | media_name :: rest =>
      let time_str := two_digits hour +:+ ":00:00" in
      let item : gmap string value :=
        <["time" := VStr time_str]>
        (<["media" := VStr media_name]>
         (<["metadata_display_duration" := VInt 10]> ∅)) in
      let hour := (hour + 1) mod 24 in
      item :: (if hour =? 0 then [] else auto_fill_loop rest hour)
  end.

(** The entry [auto_fill] writes for the hour [hour] and the media [name]. *)
Definition auto_fill_entry (hour : Z) (name : string) : gmap string value :=
  <["time" := VStr (two_digits hour +:+ ":00:00")]>
  (<["media" := VStr name]>
   (<["metadata_display_duration" := VInt 10]> ∅)).

(** The lines typed at the prompts are taken to be ASCII text: [str.strip]
    and [str.isdigit] also know the spaces and the digits of other
    scripts, which the model does not. *)
Definition is_ascii_text (s : string) : bool :=
  forallb (λ c, (N_of_ascii c <? 128)%N) (list_ascii_of_string s).

(** [a < b] on [str]: by character code, a proper prefix first. *)
Fixpoint str_ltb (a b : string) : bool :=
  match a, b with
  | _, EmptyString => false
  | EmptyString, String _ _ => true
  | String c a', String d b' =>
      (N_of_ascii c <? N_of_ascii d)%N
      || ((N_of_ascii c =? N_of_ascii d)%N && str_ltb a' b')
  end.

(** [a < b] between two sort keys. Strings compare by character code and
    ints by value; [None] and a dict are ordered with nothing. The other
    comparisons Python defines (with a float, between lists) are not
    modelled and are a [TypeError] here too: the times of a schedule are
    strings. *)
Definition py_lt (a b : value) : result bool :=
  match a, b with
  | VStr s, VStr t => Ok (str_ltb s t)
  | VInt m, VInt n => Ok (m <? n)
  | _, _ => Raise TypeError
  end.

(** [sorted(items, key=...)] on the pairs of a key and its item: the sort
    is stable, and compares with [<] only. An item goes before the first one
    whose key is not smaller, the items being inserted from the last to the
    first. *)
Fixpoint insert_by_key (x : value * value) (l : list (value * value))
  : result (list (value * value)) :=
  match l with
  | [] => Ok [x]
  | y :: l' =>
      smaller ← py_lt y.1 x.1;
      if smaller : bool then rest ← insert_by_key x l'; Ok (y :: rest)
      else Ok (x :: l)
  end.

Fixpoint sort_by_key (l : list (value * value)) : result (list (value * value)) :=
  match l with
  | [] => Ok []
  | x :: l' => sorted ← sort_by_key l'; insert_by_key x sorted
  end.

(** The keys [x.get("time", "")] of the items, computed before the sort. *)
Fixpoint time_keys (items : list value) : result (list value) :=
  match items with
  | [] => Ok []
  | x :: rest =>
      key ← py_get x "time" (VStr "");
      keys ← time_keys rest;
      Ok (key :: keys)
  end.

(** [sorted(schedule["items"], key=lambda x: x.get("time", ""))]. *)
Definition sorted_by_time (items : list value) : result (list value) :=
  keys ← time_keys items;
  sorted ← sort_by_key (zip keys items);
  Ok (sorted.*2).

(** [sorted] on strings. *)
Fixpoint insert_str (x : string) (l : list string) : list string :=
  match l with
  | [] => [x]
  | y :: l' => if str_ltb y x then y :: insert_str x l' else x :: l
  end.

Definition sorted_strs (l : list string) : list string := foldr insert_str [] l.

(** [list_media_items]: [sorted(metadata.get("items", {}).keys())]. *)
Definition list_media_items (metadata : value) : result (list string) :=
  items ← py_get metadata "items" (VDict ∅);
  match items with
  | VDict m => Ok (sorted_strs (map_to_list m).*1)
  | _ => Raise AttributeError
  end.

(** [prompt_int(message, default)] on the line the user typed. *)
Definition prompt_int (line : string) (fallback : Z) : Z :=
  let value := str_strip line in
  if String.eqb value "" then fallback
  else match int_of_string value with
       | Some n => n
       | None => fallback
       end.

(** [save_schedule]: the schedule, a dict, is stamped and written; the
    stamped schedule is what the editor goes on with. *)
Definition save_schedule (schedule : gmap string value) (now : datetime)
    (fault : write_fault) : result value :=
  let schedule := <["last_updated" := VStr (format_utc now)]> schedule in
  _ ← atomic_write_result fault;
  Ok (VDict schedule).

(** How a command of the editor ends. *)
Inductive edit_outcome :=
| Unchanged
    (** it returns with a message, the schedule as it was *)
| Waiting
    (** [prompt_time] refused every line typed and is still asking *)
| Saved (schedule : value)
    (** the schedule was changed and saved *).

(** The selection [choice] made among [count] numbered lines: the index
    chosen, or [None] for "Invalid selection." *)
Definition selected_index (choice : string) (count : nat) : result (option nat) :=
  let choice := str_strip choice in
  if str_isdigit choice then
    number ← py_int (VStr choice);
    if (1 <=? number) && (number <=? Z.of_nat count)
    then Ok (Some (Z.to_nat (number - 1)))
    else Ok None
  else Ok None.

(** [add_schedule_item], with the lines the user types at its three
    prompts: the media number, the time (as many lines as [prompt_time]
    asks for) and the display duration. *)
Definition add_schedule_item (schedule metadata : value) (choice : string)
    (time_lines : list string) (duration_line : string) (now : datetime)
    (fault : write_fault) : result edit_outcome :=
  media_items ← list_media_items metadata;
  if bool_decide (media_items = []) then Ok Unchanged else
  index ← selected_index choice (length media_items);
  match index ≫= (media_items !!.) with
  | None => Ok Unchanged
  | Some media_name =>
      time ← prompt_time time_lines;
      match time with
      | None => Ok Waiting
      | Some time_str =>
          let display_duration := prompt_int duration_line 10 in
          items ← py_subscript schedule "items";
          match items, schedule with
          | VList items, VDict schedule =>
              let item : gmap string value :=
                <["time" := VStr time_str]>
                (<["media" := VStr media_name]>
                 (<["metadata_display_duration" := VInt display_duration]> ∅)) in
              sorted ← sorted_by_time (items ++ [VDict item]);
              Saved <$> save_schedule (<["items" := VList sorted]> schedule) now fault
          | _, _ => Raise AttributeError
          end
      end
  end.

(** The loop of [remove_schedule_item] that prints the entries: it reads
    [item['time']] and [item['media']] of each. *)
Fixpoint print_entries (items : list value) : result unit :=
  match items with
  | [] => Ok ()
  | item :: rest =>
      _ ← py_subscript item "time";
      _ ← py_subscript item "media";
      print_entries rest
  end.

(** [remove_schedule_item], with the line the user types at its prompt.
    Only a list gets through the loop that prints the entries (the
    characters of a string and the keys of a dict have no ['time']). *)
Definition remove_schedule_item (schedule : value) (choice : string)
    (now : datetime) (fault : write_fault) : result edit_outcome :=
  items ← py_get schedule "items" (VList []);
  if negb (truthy items) then Ok Unchanged else
  entries ← py_iter items;
  _ ← print_entries entries;
  index ← selected_index choice (length entries);
  match index, items, schedule with
  | None, _, _ => Ok Unchanged
  | Some index, VList items, VDict schedule =>
      Saved <$> save_schedule (<["items" := VList (delete index items)]> schedule)
                  now fault
  | Some _, _, _ => Raise TypeError
  end.

(** A time as [prompt_time] writes it, and an entry that carries one. *)
Definition editor_time (t : string) : Prop :=
  ∃ h m s, 0 ≤ h < 24 ∧ 0 ≤ m < 60 ∧ 0 ≤ s < 60 ∧ t = format_time h m s.

Definition editor_entry (d : gmap string value) : Prop :=
  ∃ t, d !! "time" = Some (VStr t) ∧ editor_time t.

(** The lines typed are ASCII text. *)
Definition ascii_lines (lines : list string) : Prop :=
  Forall (λ line, is_ascii_text line = true) lines.

(** The seconds the scheduler reads in the time of an entry, and the entry
    as [resolve_schedule_items] leaves it. *)
Definition entry_seconds (d : gmap string value) : Z :=
  default 0 (parse_time_to_seconds (entry_time d)).

Definition with_seconds (d : gmap string value) : value :=
  VDict (<["_seconds" := VInt (entry_seconds d)]> d).

(** A metadata file with three media, and the schedule of [showA] and
    [showB] as the editor holds it. *)
Definition editor_metadata : value :=
  VDict (<["items" :=
    VDict (<["showB" := VDict ∅]>
           (<["news" := VDict ∅]>
            (<["showA" := VDict ∅]> ∅)))]> ∅).

Definition editor_schedule : gmap string value :=
  schedule_document [schedule_entry "08:00:00" "showA" 10;
                     schedule_entry "20:00:00" "showB" 5].

(** A probe that reports an empty title and a comment. *)
Definition news_probe : probe_outcome :=
  ProbeOutput (VDict (<["format" :=
    VDict (<["duration" := VStr "12.5"]>
           (<["tags" := VDict (<["title" := VStr ""]>
                               (<["comment" := VStr "Evening news"]> ∅))]> ∅))]> ∅)).

(** The entry [e] stored under the key [k] is that of a video or audio file
    of [files]: it carries the path and the type of the file, and a title
    and a duration. *)
Definition entry_of_media_file (files : list (path * probe_outcome))
    (k : string) (e : value) : Prop :=
  ∃ p probe (d : gmap string value),
    (p, probe) ∈ files ∧ path_name p = k ∧ is_media_file p ∧ e = VDict d ∧
    d !! "path" = Some (VStr (path_str p)) ∧
    d !! "type"
    = Some (VStr (if bool_decide (lower (path_suffix p) ∈ SUPPORTED_VIDEO_EXTS)
                  then "video" else "audio")) ∧
    is_Some (d !! "title") ∧ is_Some (d !! "duration_seconds").

(** [q] is an image file whose stem is [stem]. *)
Definition image_with_stem (stem : string) (q : path) : Prop :=
  lower (path_suffix q) ∈ SUPPORTED_IMAGE_EXTS ∧ path_stem q = stem.

#[global] Instance image_with_stem_dec stem q : Decision (image_with_stem stem q).
Proof. unfold image_with_stem. apply _. Defined.

(** A metadata cache as a refresh leaves it: an object whose ["items"] is
    an object. *)
Definition refreshed_cache (cache : value) : Prop :=
  ∃ mc items : gmap string value,
    cache = VDict mc ∧ mc !! "items" = Some (VDict items).

(** A start of the program with a metadata file that holds a JSON array
    and no schedule file. *)
Definition example_startup : startup_io :=
  {| start_mkdir := Ok ();
     start_metadata_file := FileText (Some (VList []));
     start_schedule_file := FileMissing;
     start_schedule_now := at_time_of_day 9 30 0;
     start_schedule_exists := Ok false;
     start_schedule_stat := Raise OSError |}.

(** * Properties *)

(** ** The built-ins on examples *)

Example split_colon_time : split_colon "08:30:05" = ["08"; "30"; "05"].
Proof. reflexivity. Qed.

Example split_colon_empty : split_colon "" = [""].
Proof. reflexivity. Qed.

Example int_of_string_examples :
  int_of_string "08" = Some 8 /\ int_of_string " -7 " = Some (-7) /\
  int_of_string "1_0" = Some 10 /\ int_of_string "" = None /\
  int_of_string "1__0" = None /\ int_of_string "0x10" = None /\
  int_of_string "+ 5" = None /\ int_of_string "12a" = None.
Proof. repeat split; reflexivity. Qed.

Example float_of_string_examples :
  float_of_string "12.345000" = Some (FFinite (Qmake 12345000 1000000)) /\
  float_of_string " -1.5e1" = Some (FFinite (Qopp (inject_Z 15))) /\
  float_of_string "Infinity" = Some (FInf false) /\
  float_of_string "." = None /\ float_of_string "1.5x" = None /\
  float_of_string "N/A" = None.
Proof. repeat split; reflexivity. Qed.

(** A literal beyond the largest float reads as an infinity; an int
    beyond it is refused. *)
Example float_overflow_examples :
  float_of_string "1e400" = Some (FInf false) /\
  float_of_string "-1e400" = Some (FInf true) /\
  py_float (VInt (2 ^ 1024)) = Raise OverflowError /\
  is_ok (py_float (VInt (float_overflow_bound - 1))) = true /\
  py_float (VInt (- float_overflow_bound)) = Raise OverflowError.
Proof. repeat split; vm_compute; reflexivity. Qed.

Example path_examples :
  let p := mk_path "media/" "Show.One.MP4" in
  path_suffix p = ".MP4" /\ path_stem p = "Show.One" /\
  lower (path_suffix p) = ".mp4" /\
  path_suffix (mk_path "" ".hidden") = "" /\
  path_stem (mk_path "" "trailing.") = "trailing." /\
  with_suffix (mk_path "" "obs_status.json") ".json.tmp"
    = Ok (mk_path "" "obs_status.json.tmp").
Proof. repeat split; reflexivity. Qed.

Example format_utc_examples :
  format_utc (mk_datetime 0) = "1970-01-01T00:00:00Z" /\
  format_utc (at_time_of_day 9 30 0) = "2024-01-01T09:30:00Z" /\
  format_utc (mk_datetime (1709251199 * 1000000 + 999999)) = "2024-02-29T23:59:59Z" /\
  format_utc (mk_datetime (-1)) = "1969-12-31T23:59:59Z" /\
  format_utc (mk_datetime max_datetime_micros) = "9999-12-31T23:59:59Z".
Proof. repeat split; vm_compute; reflexivity. Qed.

(** ** Tactics *)

Lemma result_bind_Ok {A B} (f : A → result B) (a : A) : Ok a ≫= f = f a.
Proof. reflexivity. Qed.

Lemma result_bind_Raise {A B} (f : A → result B) (e : exn) :
  Raise e ≫= f = Raise e.
Proof. reflexivity. Qed.

Lemma result_fmap_Ok {A B} (f : A → B) (a : A) : f <$> Ok a = Ok (f a).
Proof. reflexivity. Qed.

Lemma result_fmap_Raise {A B} (f : A → B) (e : exn) :
  f <$> (Raise e : result A) = Raise e.
Proof. reflexivity. Qed.

(** Runs the monad of [result] where the outcome of a step is known. *)
Tactic Notation "result_simpl" :=
  repeat (first [ rewrite result_bind_Ok
                | rewrite result_bind_Raise
                | rewrite result_fmap_Ok
                | rewrite result_fmap_Raise
                | progress cbn [try_except] ];
          cbv beta iota).

Tactic Notation "result_simpl" "in" hyp(H) :=
  repeat (first [ rewrite result_bind_Ok in H
                | rewrite result_bind_Raise in H
                | rewrite result_fmap_Ok in H
                | rewrite result_fmap_Raise in H
                | progress cbn [try_except] in H ];
          cbv beta iota in H).

Create HintDb sched discriminated.

(** ** Entries of a resolved schedule *)

Lemma normalized_entry_subscript x :
  normalized_entry x → py_subscript x "_seconds" = Ok (VInt (seconds_of x)).
Proof.
  intros (d & z & -> & Hz). unfold py_subscript, seconds_of. by rewrite Hz.
Qed.

Lemma normalized_entry_insert d z :
  normalized_entry (VDict (<["_seconds" := VInt z]> d)).
Proof. exists (<["_seconds" := VInt z]> d), z. by rewrite lookup_insert_eq. Qed.

Lemma seconds_of_insert d z :
  seconds_of (VDict (<["_seconds" := VInt z]> d)) = z.
Proof. unfold seconds_of. by rewrite lookup_insert_eq. Qed.

#[global] Hint Resolve normalized_entry_insert : sched.

(** ** The loop of the resolver *)

Section SelectLoop.
Variable now : Z.

(** Entries that start later than [now] leave a chosen [current] alone. *)
Lemma select_loop_later items later : ∀ idx c n,
  Forall (λ x, normalized_entry x ∧ now < seconds_of x) later →
  select_loop items now idx later (Some c) n = Ok (Some c, n).
Proof.
  induction later as [|y later IH]; intros idx c n Hl; [done|].
  apply Forall_cons in Hl as [[Hy Hlt] Hl].
  cbn [select_loop]. rewrite (normalized_entry_subscript y Hy).
  result_simpl. cbn [py_le_int py_gt_int].
  replace (seconds_of y <=? now) with false by lia.
  replace (now <? seconds_of y) with true by lia.
  cbn. by apply IH.
Qed.

(** A run of entries that have started, followed by entries that start
    later: the last of the run is current, and the entry after it (the
    first of the list when there is none) is next. *)
Lemma select_loop_started started : ∀ items pre later cur nxt,
  items = pre ++ started ++ later →
  started ≠ [] →
  Forall (λ x, normalized_entry x ∧ seconds_of x ≤ now) started →
  Forall (λ x, normalized_entry x ∧ now < seconds_of x) later →
  select_loop items now (length pre) (started ++ later) cur nxt
  = Ok (last started, head (later ++ items)).
Proof.
  induction started as [|s ss IH]; intros items pre later cur nxt Hit Hne Hs Hl;
    [done|].
  apply Forall_cons in Hs as [[Hs Hle] Hss].
  cbn [app select_loop]. rewrite (normalized_entry_subscript s Hs).
  result_simpl. cbn [py_le_int].
  replace (seconds_of s <=? now) with true by lia. cbn match.
  assert (Hlen : length items = (length pre + 1 + length (ss ++ later))%nat).
  { subst items. rewrite !length_app. cbn [length]. rewrite ?length_app. lia. }
  assert (Hnext : (if Nat.ltb (length pre + 1) (length items)
                   then py_index items (length pre + 1)
                   else py_index items 0)
                  = match head ((ss ++ later) ++ items) with
                    | Some y => Ok y
                    | None => Raise IndexError
                    end).
  { destruct (ss ++ later) as [|y r] eqn:Hr.
    - replace (Nat.ltb _ _) with false by (cbn in Hlen; symmetry; apply Nat.ltb_ge; lia).
      unfold py_index. cbn [app]. by rewrite head_lookup.
    - replace (Nat.ltb _ _) with true by (cbn in Hlen; symmetry; apply Nat.ltb_lt; lia).
      unfold py_index. subst items.
      rewrite lookup_app_r by lia.
      replace (length pre + 1 - length pre)%nat with 1%nat by lia.
      cbn. by rewrite Hr. }
  rewrite Hnext. clear Hnext.
  destruct ss as [|s' ss'].
  - cbn [app]. destruct later as [|y later'].
    + cbn [app]. subst items. destruct pre; cbn; done.
    + cbn [app head]. result_simpl.
      rewrite select_loop_later by done. done.
  - cbn [app head]. result_simpl.
    replace (S (length pre)) with (length (pre ++ [s])) by (rewrite length_app; cbn; lia).
    rewrite (IH items (pre ++ [s]) later); [done| |done|done|done].
    subst items. by rewrite <- app_assoc.
Qed.

(** Over well-formed entries the loop always returns. *)
Lemma select_loop_returns items rest : ∀ idx cur nxt,
  items ≠ [] →
  Forall normalized_entry rest →
  ∃ c n, select_loop items now idx rest cur nxt = Ok (c, n).
Proof.
  induction rest as [|x rest IH]; intros idx cur nxt Hne Hr; [by eexists _, _|].
  apply Forall_cons in Hr as [Hx Hr].
  cbn [select_loop]. rewrite (normalized_entry_subscript x Hx).
  result_simpl. cbn [py_le_int py_gt_int].
  destruct items as [|i0 items']; [done|].
  destruct (seconds_of x <=? now); result_simpl.
  - destruct (Nat.ltb _ _) eqn:Hlt.
    + apply Nat.ltb_lt in Hlt. apply lookup_lt_is_Some in Hlt as [y Hy].
      unfold py_index. rewrite Hy. by apply IH.
    + cbn. by apply IH.
  - destruct ((now <? seconds_of x) && is_none cur).
    + unfold py_last. destruct (last (i0 :: items')) eqn:Hlast.
      * by eexists _, _.
      * by apply last_None in Hlast.
    + by apply IH.
Qed.
End SelectLoop.

(** ** The time of day of an instant *)

Lemma now_seconds_of_mod now : now_seconds_of now = epoch_seconds now mod 86400.
Proof.
  unfold now_seconds_of, dt_hour, dt_minute, dt_second.
  generalize (epoch_seconds now). intros e.
  pose proof (Z.mod_pos_bound e 86400 ltac:(lia)) as Hr.
  replace (e mod 3600) with ((e mod 86400) mod 3600)
    by (apply Z.mod_mod_divide; by exists 24).
  replace (e mod 60) with ((e mod 86400) mod 60)
    by (apply Z.mod_mod_divide; by exists 1440).
  generalize dependent (e mod 86400). intros r Hr.
  pose proof (Z.div_mod r 3600 ltac:(lia)) as H1.
  pose proof (Z.div_mod (r mod 3600) 60 ltac:(lia)) as H2.
  replace (r mod 60) with ((r mod 3600) mod 60)
    by (apply Z.mod_mod_divide; by exists 60).
  lia.
Qed.

Lemma now_seconds_of_range now : 0 ≤ now_seconds_of now < 86400.
Proof. rewrite now_seconds_of_mod. apply Z.mod_pos_bound. lia. Qed.

(** ** Order of a sorted schedule *)

Lemma sorted_seconds_lookup items : ∀ i j x y,
  StronglySorted Z.le (seconds_of <$> items) →
  (i ≤ j)%nat → items !! i = Some x → items !! j = Some y →
  seconds_of x ≤ seconds_of y.
Proof.
  induction items as [|a items IH]; intros i j x y Hs Hij Hx Hy; [done|].
  cbn in Hs. apply StronglySorted_inv in Hs as [Hs Ha].
  destruct i as [|i], j as [|j]; cbn in Hx, Hy; simplify_eq.
  - lia.
  - rewrite Forall_forall in Ha. apply Ha.
    apply list_elem_of_fmap. exists y. split; [done|].
    by eapply list_elem_of_lookup_2.
  - lia.
  - eapply (IH i j); [done|lia|done|done].
Qed.

(** ** The resolver *)

Lemma list_last_nonempty (l : list value) : ∀ a d d',
  List.last (a :: l) d = List.last (a :: l) d'.
Proof.
  induction l as [|b l IH]; intros a d d'; [done|].
  change (List.last (b :: l) d = List.last (b :: l) d'). apply IH.
Qed.

Lemma last_cons_default (first : value) rest :
  last (first :: rest) = Some (List.last rest first).
Proof.
  revert first. induction rest as [|y rest IH]; intros first; [done|].
  rewrite last_cons, IH. f_equal.
  destruct rest as [|z rest]; [done|].
  change (List.last (z :: rest) y = List.last (z :: rest) first).
  apply list_last_nonempty.
Qed.

(** C1. On a schedule sorted by ascending seconds, with the entry at index
    [i] the last one whose seconds are at most the seconds since midnight of
    [now] (every later entry starts after [now]; the bound is inclusive, and
    of entries with equal seconds the one further in the list is the last),
    [select_current_item] returns that entry as current and the entry at
    index [i + 1], or the first entry when [i] is the last index, as next. *)
Theorem select_current_item_last_started items now i x :
  Forall normalized_entry items →
  Sorted Z.le (seconds_of <$> items) →
  items !! i = Some x →
  seconds_of x ≤ now_seconds_of now →
  (∀ j y, (i < j)%nat → items !! j = Some y → now_seconds_of now < seconds_of y) →
  ∃ next, items !! (S i mod length items)%nat = Some next ∧
          select_current_item items now = Ok (Some x, Some next).
Proof.
  intros Hn Hs Hx Hle Hlater.
  apply Sorted_StronglySorted in Hs; [|intros ???; lia].
  pose proof (lookup_lt_Some _ _ _ Hx) as Hi.
  assert (Hstarted : Forall (λ y, normalized_entry y ∧ seconds_of y ≤ now_seconds_of now)
                       (take (S i) items)).
  { apply Forall_lookup_2. intros j y Hy.
    apply lookup_take_Some in Hy as [Hy Hj].
    split; [by eapply Forall_lookup_1|].
    etrans; [|exact Hle]. eapply (sorted_seconds_lookup items j i); [done|lia|done|done]. }
  assert (Hrest : Forall (λ y, normalized_entry y ∧ now_seconds_of now < seconds_of y)
                    (drop (S i) items)).
  { apply Forall_lookup_2. intros j y Hy. rewrite lookup_drop in Hy.
    split; [by eapply Forall_lookup_1|]. eapply Hlater; [|done]. lia. }
  pose proof (select_loop_started (now_seconds_of now) (take (S i) items) items []
                (drop (S i) items) None None) as Hloop.
  rewrite take_drop in Hloop. cbn [app length] in Hloop.
  specialize (Hloop eq_refl).
  specialize (Hloop ltac:(by destruct items) Hstarted Hrest).
  assert (Hlast : last (take (S i) items) = Some x).
  { rewrite last_lookup, length_take, Nat.min_l by lia. cbn [pred].
    by rewrite lookup_take_lt by lia. }
  assert (Hnext : head (drop (S i) items ++ items) = items !! (S i mod length items)%nat).
  { destruct (decide (S i = length items)) as [Heq|Hne].
    - rewrite Heq, drop_all, Nat.Div0.mod_same. cbn [app]. apply head_lookup.
    - rewrite Nat.mod_small by lia.
      destruct (drop (S i) items) as [|y r] eqn:Hd.
      + apply (f_equal length) in Hd. rewrite length_drop in Hd. cbn in Hd. lia.
      + pose proof (lookup_drop items (S i) 0) as Hl.
        rewrite Nat.add_0_r, Hd in Hl. by cbn in *. }
  destruct (lookup_lt_is_Some_2 items (S i mod length items)) as [next Hnx].
  { apply Nat.mod_upper_bound. lia. }
  exists next. split; [done|].
  rewrite Hlast, Hnext, Hnx in Hloop.
  unfold select_current_item. destruct items as [|i0 items']; [done|].
  by rewrite Hloop.
Qed.

Lemma resolved_entry_normalized time media duration seconds :
  normalized_entry (resolved_entry time media duration seconds).
Proof. apply normalized_entry_insert. Qed.

#[global] Hint Extern 0 (normalized_entry _) =>
  apply resolved_entry_normalized : sched.

Lemma select_current_item_last_started_witness :
  select_current_item [showA; showB] (at_time_of_day 9 30 0)
  = Ok (Some showA, Some showB).
Proof.
  destruct (select_current_item_last_started [showA; showB] (at_time_of_day 9 30 0)
              0 showA) as (next & Hnext & ->).
  - repeat constructor; auto with sched.
  - repeat constructor. by vm_compute.
  - reflexivity.
  - by vm_compute.
  - intros [|[|j]] y Hj Hy; [lia| |done]. cbn in Hy. simplify_eq. by vm_compute.
  - cbn in Hnext. by simplify_eq.
Defined.

(** The bound is inclusive: at 08:00:00 sharp the 08:00:00 entry is current. *)
Example select_current_item_at_boundary :
  select_current_item [showA; showB] (at_time_of_day 8 0 0)
  = Ok (Some showA, Some showB).
Proof. by vm_compute. Qed.

(** Of two entries with the same time the later one in the list is current. *)
Example select_current_item_tie :
  let first := resolved_entry "08:00:00" "first" 10 28800 in
  let second := resolved_entry "08:00:00" "second" 10 28800 in
  select_current_item [first; second; showB] (at_time_of_day 9 30 0)
  = Ok (Some second, Some showB).
Proof. by vm_compute. Qed.

(** The last entry is current from its time on, and the first one is next. *)
Example select_current_item_last_entry :
  select_current_item [showA; showB] (at_time_of_day 23 0 0)
  = Ok (Some showB, Some showA).
Proof. by vm_compute. Qed.

(** C2. When [now] is before the seconds of the first entry,
    [select_current_item] returns the last element of the list as current
    and its first element as next (whatever the other entries are). *)
Theorem select_current_item_wraps first rest now :
  normalized_entry first →
  now_seconds_of now < seconds_of first →
  select_current_item (first :: rest) now
  = Ok (Some (List.last rest first), Some first).
Proof.
  intros Hf Hlt. unfold select_current_item. cbn [select_loop].
  rewrite (normalized_entry_subscript first Hf). result_simpl.
  cbn [py_le_int py_gt_int].
  replace (seconds_of first <=? now_seconds_of now) with false by lia.
  replace (now_seconds_of now <? seconds_of first) with true by lia.
  result_simpl. cbn [is_none andb]. unfold py_last.
  by rewrite last_cons_default.
Qed.

(** The example of the specification: entries at 06:00:00 and 18:00:00,
    resolved at 02:00:00. *)
Lemma select_current_item_wraps_witness :
  select_current_item [morning; evening] (at_time_of_day 2 0 0)
  = Ok (Some evening, Some morning).
Proof.
  apply (select_current_item_wraps morning [evening] (at_time_of_day 2 0 0)).
  - apply resolved_entry_normalized.
  - by vm_compute.
Defined.

(** C3. On a list of resolved entries [select_current_item] always returns,
    with a current and a next entry that are both present exactly when the
    list is not empty; on the empty list both are absent. *)
Theorem select_current_item_total items now :
  Forall normalized_entry items →
  ∃ current next_item,
    select_current_item items now = Ok (current, next_item) ∧
    (is_Some current ∧ is_Some next_item ↔ items ≠ []) ∧
    (items = [] → current = None ∧ next_item = None).
Proof.
  intros Hn. destruct items as [|x items].
  - exists None, None. split; [done|]. split; [|done].
    split; [intros [[? [=]] _]|done].
  - destruct (select_loop_returns (now_seconds_of now) (x :: items) (x :: items)
                0 None None) as (c & n & Hloop); [done|done|].
    unfold select_current_item. rewrite Hloop. result_simpl.
    unfold py_last, py_index. rewrite last_cons_default. cbn [lookup list_lookup].
    destruct c as [c|], n as [n|]; result_simpl;
      eexists _, _; (split; [reflexivity|]); (split; [|done]);
      (split; [done|intros _; split; by eexists]).
Qed.

Lemma select_current_item_total_witness :
  ∃ current next_item,
    select_current_item [morning; evening] (at_time_of_day 12 0 0)
    = Ok (current, next_item) ∧
    (is_Some current ∧ is_Some next_item ↔ [morning; evening] ≠ []) ∧
    ([morning; evening] = [] → current = None ∧ next_item = None).
Proof.
  apply (select_current_item_total [morning; evening] (at_time_of_day 12 0 0)).
  repeat constructor; auto with sched.
Defined.

(** On a list that is not one of resolved entries the resolver raises. *)
Example select_current_item_ill_formed :
  select_current_item [VInt 3] (at_time_of_day 12 0 0) = Raise TypeError /\
  select_current_item [VDict ∅] (at_time_of_day 12 0 0) = Raise KeyError.
Proof. by vm_compute. Qed.

(** ** Reading and parsing the schedule *)

Lemma safe_read_json_unreadable file fallback :
  unreadable_json file → safe_read_json file fallback = fallback.
Proof. by intros [->|[->| ->]]. Qed.

Lemma safe_read_json_parsed v fallback :
  safe_read_json (FileText (Some v)) fallback = v.
Proof. done. Qed.

Lemma int_parts_Ok parts : ∀ ns,
  int_parts parts = Ok ns ↔ int_of_string <$> parts = Some <$> ns.
Proof.
  induction parts as [|p parts IH]; intros ns; cbn [int_parts py_int fmap list_fmap].
  - result_simpl. destruct ns; split; intros; by simplify_eq.
  - destruct (int_of_string p) as [z|]; result_simpl.
    + destruct (int_parts parts) as [l|e]; result_simpl.
      * pose proof (IH l) as [Hl _]. specialize (Hl eq_refl).
        split.
        -- intros [= <-]. cbn. by f_equal.
        -- destruct ns as [|n ns]; intros [= -> Hns].
           f_equal. f_equal. apply (inj (fmap Some)).
           exact (eq_trans (eq_sym Hl) Hns).
      * split; [done|]. destruct ns as [|n ns]; intros [= -> Hns].
        apply IH in Hns. done.
    + split; [done|]. by destruct ns.
Qed.

(** A time is accepted exactly when it is a string of three fields
    separated by colons, each of which [int] accepts; its seconds are
    [h * 3600 + m * 60 + s], whatever the ranges of the fields. *)
Lemma parse_time_to_seconds_Some v z :
  parse_time_to_seconds v = Some z ↔
  ∃ s h m sec, v = VStr s ∧
               int_of_string <$> split_colon s = [Some h; Some m; Some sec] ∧
               z = h * 3600 + m * 60 + sec.
Proof.
  split.
  - destruct v as [| | | |s| |]; try done.
    unfold parse_time_to_seconds.
    destruct (int_parts (split_colon s)) as [l|e] eqn:Hp; result_simpl; [|done].
    apply int_parts_Ok in Hp.
    destruct l as [|h [|m [|sec [|]]]]; try done.
    intros [= <-]. by exists s, h, m, sec.
  - intros (s & h & m & sec & -> & Hp & ->).
    apply (int_parts_Ok _ [h; m; sec]) in Hp.
    unfold parse_time_to_seconds. rewrite Hp. done.
Qed.

Lemma normalize_entry_Some d e :
  normalize_entry d = Some e ↔
  ∃ seconds, parse_time_to_seconds (entry_time d) = Some seconds ∧
             e = VDict (<["_seconds" := VInt seconds]> d).
Proof.
  unfold normalize_entry.
  destruct (parse_time_to_seconds (entry_time d)) as [z|]; cbn.
  - split; [intros [= <-]; by exists z|]. by intros (? & [= <-] & ->).
  - split; [done|]. by intros (? & ? & _).
Qed.

(** Over a list of JSON objects the loop keeps the entries whose time
    parses, in their order, and drops the others one by one. *)
Lemma normalize_loop_dicts ds :
  normalize_loop (VDict <$> ds) = Ok (omap normalize_entry ds).
Proof.
  induction ds as [|d ds IH]; [done|].
  cbn [fmap list_fmap normalize_loop py_get omap list_omap]. result_simpl.
  fold (entry_time d). unfold normalize_entry at 1.
  change (list_fmap _ _ VDict ds) with (VDict <$> ds).
  change (list_omap _ _ normalize_entry ds) with (omap normalize_entry ds).
  destruct (parse_time_to_seconds (entry_time d)) as [z|]; cbn; [|done].
  rewrite IH. done.
Qed.

Lemma normalize_loop_normalized items : ∀ l,
  normalize_loop items = Ok l → Forall normalized_entry l.
Proof.
  induction items as [|x items IH]; intros l; cbn [normalize_loop].
  - intros [= <-]. constructor.
  - destruct (py_get x "time" (VStr "")) as [t|]; result_simpl; [|done].
    destruct (parse_time_to_seconds t); [|by apply IH].
    destruct x; try done.
    destruct (normalize_loop items) as [l'|]; result_simpl; [|done].
    intros [= <-]. constructor; [apply normalized_entry_insert|by apply IH].
Qed.

(** ** The sort *)

Lemma insert_by_seconds_Permutation x l : insert_by_seconds x l ≡ₚ x :: l.
Proof.
  induction l as [|y l IH]; [done|]. cbn.
  destruct (seconds_of x <=? seconds_of y); [done|].
  rewrite IH. apply Permutation_swap.
Qed.

Lemma sort_by_seconds_Permutation l : sort_by_seconds l ≡ₚ l.
Proof.
  induction l as [|x l IH]; [done|]. cbn.
  by rewrite insert_by_seconds_Permutation, IH.
Qed.

Lemma insert_by_seconds_Sorted x l :
  Sorted Z.le (seconds_of <$> l) →
  Sorted Z.le (seconds_of <$> insert_by_seconds x l).
Proof.
  induction l as [|y l IH]; intros Hs; cbn.
  - repeat constructor.
  - apply Sorted_inv in Hs as [Hs Hhd].
    destruct (seconds_of x <=? seconds_of y) eqn:Hle.
    + cbn. constructor; [by constructor|]. constructor. lia.
    + cbn. constructor; [by apply IH|].
      destruct l as [|w l]; cbn.
      * constructor. lia.
      * destruct (seconds_of x <=? seconds_of w); cbn; constructor; [lia|].
        by apply HdRel_inv in Hhd.
Qed.

Lemma sort_by_seconds_Sorted l : Sorted Z.le (seconds_of <$> sort_by_seconds l).
Proof.
  induction l as [|x l IH]; cbn; [constructor|]. by apply insert_by_seconds_Sorted.
Qed.

(** The sort is stable: entries with equal seconds keep their order. *)
Lemma insert_by_seconds_filter k x l :
  filter (λ y, seconds_of y = k) (insert_by_seconds x l)
  = filter (λ y, seconds_of y = k) (x :: l).
Proof.
  induction l as [|y l IH]; [done|]. cbn [insert_by_seconds].
  destruct (seconds_of x <=? seconds_of y) eqn:Hle; [done|].
  rewrite filter_cons, IH, !filter_cons.
  destruct (decide (seconds_of y = k)), (decide (seconds_of x = k)); try done.
  lia.
Qed.

Lemma sort_by_seconds_stable k l :
  filter (λ y, seconds_of y = k) (sort_by_seconds l)
  = filter (λ y, seconds_of y = k) l.
Proof.
  induction l as [|x l IH]; [done|]. cbn [sort_by_seconds foldr].
  rewrite insert_by_seconds_filter, !filter_cons.
  fold (sort_by_seconds l). by rewrite IH.
Qed.

(** What [resolve_schedule_items] returns is a list of resolved entries in
    ascending order of seconds: the lists the resolver is specified on. *)
Lemma resolve_schedule_items_sorted schedule items :
  resolve_schedule_items schedule = Ok items →
  Forall normalized_entry items ∧ Sorted Z.le (seconds_of <$> items).
Proof.
  unfold resolve_schedule_items.
  destruct (py_get schedule "items" (VList [])) as [v|]; result_simpl; [|done].
  destruct (py_iter v) as [l|]; result_simpl; [|done].
  destruct (normalize_loop l) as [n|] eqn:Hn; result_simpl; [|done].
  intros [= <-]. split; [|apply sort_by_seconds_Sorted].
  apply normalize_loop_normalized in Hn.
  by rewrite sort_by_seconds_Permutation.
Qed.

Lemma resolve_schedule_items_dicts (schedule : gmap string value) ds :
  schedule !! "items" = Some (VList (VDict <$> ds)) →
  resolve_schedule_items (VDict schedule)
  = Ok (sort_by_seconds (omap normalize_entry ds)).
Proof.
  intros Hitems. unfold resolve_schedule_items, py_get. rewrite Hitems.
  result_simpl. cbn [default from_option id py_iter]. result_simpl.
  by rewrite normalize_loop_dicts.
Qed.

(** ** Loading the schedule *)

(** C6, as the code has it. A schedule file that is missing, unreadable or
    not valid JSON loads as the default document with an empty list of
    items, on which the resolve and select steps of the loop return no
    entry; and in a document whose items are JSON objects, the entries whose
    time does not parse are dropped one by one, all the others being kept.
    (A file that holds valid JSON of another shape is returned as parsed,
    whatever the shape.) *)
Theorem load_schedule_lenient :
  (∀ file now,
     unreadable_json file →
     load_schedule file now = default_schedule now ∧
     resolve_schedule_items (load_schedule file now) = Ok [] ∧
     ∀ t, select_current_item [] t = Ok (None, None)) ∧
  (∀ (schedule : gmap string value) ds,
     schedule !! "items" = Some (VList (VDict <$> ds)) →
     ∃ kept, resolve_schedule_items (VDict schedule) = Ok kept ∧
             kept ≡ₚ omap normalize_entry ds).
Proof.
  split.
  - intros file now Hf. unfold load_schedule.
    rewrite (safe_read_json_unreadable _ _ Hf). by repeat split.
  - intros schedule ds Hitems. eexists. split.
    + by apply resolve_schedule_items_dicts.
    + apply sort_by_seconds_Permutation.
Qed.

Lemma load_schedule_lenient_witness :
  (load_schedule (FileText None) (at_time_of_day 9 30 0)
   = default_schedule (at_time_of_day 9 30 0) ∧
   resolve_schedule_items (load_schedule (FileText None) (at_time_of_day 9 30 0))
   = Ok [] ∧
   ∀ t, select_current_item [] t = Ok (None, None)) ∧
  ∃ kept,
    resolve_schedule_items
      (VDict (schedule_document [schedule_entry "20:00:00" "showB" 5;
                                 schedule_entry "8 o'clock" "broken" 10;
                                 schedule_entry "08:00:00" "showA" 10]))
    = Ok kept ∧
    kept ≡ₚ [showB; showA].
Proof.
  split.
  - apply (proj1 load_schedule_lenient). right. by right.
  - apply (proj2 load_schedule_lenient
             (schedule_document [schedule_entry "20:00:00" "showB" 5;
                                 schedule_entry "8 o'clock" "broken" 10;
                                 schedule_entry "08:00:00" "showA" 10])
             [schedule_entry "20:00:00" "showB" 5;
              schedule_entry "8 o'clock" "broken" 10;
              schedule_entry "08:00:00" "showA" 10]).
    reflexivity.
Defined.

(** A schedule file that holds a JSON array is not replaced by the default:
    [load_schedule] returns the array, and [resolve_schedule_items] raises
    on it, which ends the loop. *)
Lemma load_schedule_json_array :
  load_schedule (FileText (Some (VList []))) (at_time_of_day 9 30 0) = VList [] ∧
  resolve_schedule_items (VList []) = Raise AttributeError ∧
  tick (with_schedule_file (FileText (Some (VList []))) (inject_Z 2) quiet_io)
    example_state = Raise AttributeError.
Proof. by vm_compute. Qed.

(** C7, as the code has it. In a document whose items are JSON objects, the
    entries kept are exactly those whose ["time"] is a string of three
    colon-separated fields that [int] accepts, each kept with
    [h * 3600 + m * 60 + s] as its seconds (no range is checked); the other
    entries are dropped without failing the load. *)
Theorem resolve_schedule_items_retained (schedule : gmap string value) ds :
  schedule !! "items" = Some (VList (VDict <$> ds)) →
  ∃ kept,
    resolve_schedule_items (VDict schedule) = Ok kept ∧
    ∀ e, e ∈ kept ↔
         ∃ d t h m s,
           d ∈ ds ∧ entry_time d = VStr t ∧
           int_of_string <$> split_colon t = [Some h; Some m; Some s] ∧
           e = VDict (<["_seconds" := VInt (h * 3600 + m * 60 + s)]> d).
Proof.
  intros Hitems. eexists. split; [by apply resolve_schedule_items_dicts|].
  intros e. rewrite sort_by_seconds_Permutation, list_elem_of_omap.
  split.
  - intros (d & Hd & He). apply normalize_entry_Some in He as (z & Hz & ->).
    apply parse_time_to_seconds_Some in Hz as (t & h & m & s & Ht & Hp & ->).
    by exists d, t, h, m, s.
  - intros (d & t & h & m & s & Hd & Ht & Hp & ->).
    exists d. split; [done|]. apply normalize_entry_Some.
    exists (h * 3600 + m * 60 + s). split; [|done].
    apply parse_time_to_seconds_Some. by exists t, h, m, s.
Qed.

Lemma resolve_schedule_items_retained_witness :
  ∃ kept,
    resolve_schedule_items
      (VDict (schedule_document [schedule_entry "08:00:00" "showA" 10;
                                 schedule_entry "8 o'clock" "broken" 10]))
    = Ok kept ∧
    showA ∈ kept ∧
    VDict (<["_seconds" := VInt 28800]> (schedule_entry "8 o'clock" "broken" 10)) ∉ kept.
Proof.
  destruct (resolve_schedule_items_retained
              (schedule_document [schedule_entry "08:00:00" "showA" 10;
                                  schedule_entry "8 o'clock" "broken" 10])
              [schedule_entry "08:00:00" "showA" 10;
               schedule_entry "8 o'clock" "broken" 10])
    as (kept & Hk & Hin); [reflexivity|].
  exists kept. split; [exact Hk|]. split.
  - apply Hin. exists (schedule_entry "08:00:00" "showA" 10), "08:00:00", 8, 0, 0.
    split; [apply list_elem_of_here|]. by repeat split.
  - intros Hbad. vm_compute in Hk. injection Hk as <-.
    apply list_elem_of_singleton in Hbad. vm_compute in Hbad. discriminate Hbad.
Defined.

(** An entry that is not a JSON object is not dropped: the load raises. *)
Example resolve_schedule_items_raises :
  resolve_schedule_items (VDict (<["items" := VList [VInt 5]]> ∅))
  = Raise AttributeError /\
  resolve_schedule_items (VDict (<["items" := VNone]> ∅)) = Raise TypeError.
Proof. split; vm_compute; reflexivity. Qed.

(** An entry at 25:00:00 is kept, with 90000 seconds, and so is one whose
    fields are not two digits each. *)
Lemma resolve_schedule_items_out_of_range :
  resolve_schedule_items
    (VDict (schedule_document [schedule_entry "25:00:00" "late" 10;
                               schedule_entry " 7:+5:1_0" "odd" 10]))
  = Ok [resolved_entry " 7:+5:1_0" "odd" 10 25510;
        resolved_entry "25:00:00" "late" 10 90000] ∧
  seconds_of (resolved_entry "25:00:00" "late" 10 90000) = 90000 ∧
  ¬ (0 ≤ 90000 < 86400).
Proof. split; [by vm_compute|]. split; [by vm_compute|lia]. Qed.

(** ** The publisher *)

Lemma truthy_dict (d : gmap string value) : d ≠ ∅ → truthy (VDict d) = true.
Proof.
  intros Hd. cbn. apply negb_true_iff, Nat.eqb_neq.
  by apply map_size_non_empty_iff.
Qed.

Lemma datetime_fromtimestamp_in_range t :
  min_datetime_micros ≤ t ≤ max_datetime_micros →
  datetime_fromtimestamp t = Ok (mk_datetime t).
Proof.
  unfold datetime_fromtimestamp, min_datetime_micros, max_datetime_micros.
  intros Ht.
  replace ((t <? - 2 ^ 63 * 1000000) || (2 ^ 63 * 1000000 <=? t)) with false
    by (symmetry; apply orb_false_iff; lia).
  replace ((t <? -62135596800 * 1000000) || (253402300799 * 1000000 + 999999 <? t))
    with false by (symmetry; apply orb_false_iff; lia).
  done.
Qed.

Lemma epoch_seconds_plus now seconds :
  epoch_seconds (plus_seconds now seconds) = epoch_seconds now + seconds.
Proof. unfold epoch_seconds, plus_seconds. cbn. apply Z.div_add. lia. Qed.

(** What [build_status] returns for a current entry, when none of its
    steps raises. *)
Lemma build_status_present now (ci : gmap string value) next_item
    metadata_cache (items_d : gmap string value) metadata seconds :
  ci ≠ ∅ →
  py_get metadata_cache "items" (VDict ∅) = Ok (VDict items_d) →
  py_get_key (VDict items_d) (default VNone (ci !! "media")) = Ok metadata →
  py_int (default (VInt 10) (ci !! "metadata_display_duration")) = Ok seconds →
  min_datetime_micros ≤ dt_micros now + seconds * 1000000 ≤ max_datetime_micros →
  build_status now (Some (VDict ci)) (VDict <$> next_item) metadata_cache
  = Ok (status_with_next next_item (status_with_current now ci metadata seconds)).
Proof.
  intros Hci Hitems Hmeta Hint Hrange. unfold build_status.
  rewrite Hitems. result_simpl.
  cbn [present]. rewrite (truthy_dict ci Hci).
  cbn [default from_option id py_get]. result_simpl.
  cbn [default from_option id] in Hmeta, Hint.
  rewrite Hmeta. result_simpl. rewrite Hint. result_simpl.
  rewrite (datetime_fromtimestamp_in_range _ Hrange). result_simpl.
  destruct next_item as [ni|]; cbn [fmap option_fmap option_map present status_with_next];
    [|done].
  destruct (truthy (VDict ni)); [|done].
  cbn [py_get]. by result_simpl.
Qed.

Lemma status_with_next_lookup next_item status k :
  k ≠ "next_item" → status_with_next next_item status !! k = status !! k.
Proof.
  intros Hk. unfold status_with_next. destruct next_item as [ni|]; [|done].
  destruct (truthy (VDict ni)); [|done]. by rewrite lookup_insert_ne.
Qed.

Lemma status_with_next_item now ci metadata seconds next_item :
  status_with_next next_item (status_with_current now ci metadata seconds)
    !! "next_item"
  = Some (from_option
            (λ ni, if truthy (VDict ni) then status_next_item ni else VNone)
            VNone next_item).
Proof.
  unfold status_with_next. destruct next_item as [ni|]; cbn [from_option].
  - destruct (truthy (VDict ni)); [apply lookup_insert_eq|].
    unfold status_with_current, idle_status.
    by rewrite !lookup_insert_ne by done; apply lookup_insert_eq.
  - unfold status_with_current, idle_status.
    by rewrite !lookup_insert_ne by done; apply lookup_insert_eq.
Qed.

(** A run of entries that have started, then entries that start later: the
    last entry of the run is current, and the entry after it (the first
    entry of the list when it is the last one) is next. *)
Lemma select_current_item_split now before x later :
  Forall (λ y, normalized_entry y ∧ seconds_of y ≤ now_seconds_of now)
    (before ++ [x]) →
  Forall (λ y, normalized_entry y ∧ now_seconds_of now < seconds_of y) later →
  ∃ next,
    head (later ++ before ++ [x]) = Some next ∧ normalized_entry next ∧
    select_current_item (before ++ x :: later) now = Ok (Some x, Some next).
Proof.
  intros Hstarted Hlater.
  pose proof (select_loop_started (now_seconds_of now) (before ++ [x])
                ((before ++ [x]) ++ later) [] later None None eq_refl
                ltac:(by destruct before) Hstarted Hlater) as Hloop.
  cbn [length] in Hloop. rewrite last_snoc in Hloop.
  assert (Hall : Forall normalized_entry (later ++ before ++ [x])).
  { apply Forall_app. split; eapply Forall_impl; try done; by intros ? []. }
  destruct (later ++ before ++ [x]) as [|next rest] eqn:Hnext.
  { apply (f_equal length) in Hnext. rewrite !length_app in Hnext. cbn in Hnext. lia. }
  exists next. split; [done|]. split; [by apply Forall_cons in Hall as []|].
  assert (Hhead : head (later ++ (before ++ [x]) ++ later) = Some next).
  { destruct later as [|y later']; [|by injection Hnext as -> _].
    cbn [app] in *. rewrite app_nil_r, Hnext. done. }
  rewrite Hhead in Hloop. rewrite <- app_assoc in Hloop. cbn [app] in Hloop.
  unfold select_current_item.
  destruct (before ++ x :: later) as [|i0 items'] eqn:Hitems.
  { by destruct before. }
  by rewrite Hloop.
Qed.

(** C8. For a current entry whose media is the string [media] and whose
    display duration is the non-negative integer [seconds] (its
    [metadata_display_duration], 10 when it has none), at an instant from
    1970 on and with the display ending before 2100: [build_status]
    publishes as [display_until_utc] the instant [seconds] seconds after the
    instant it publishes as [current_utc], and as [metadata] what the
    metadata mapping holds under [media], [None] when it holds nothing;
    [current_item] and [next_item] are the time and media of the two
    entries, with the duration for the current one. And when that entry is
    the last one of the resolved schedule to have started at the instant
    the loop reads for the selection, [select_current_item] returns it with
    the entry that follows it (the first one after the last), and the
    status built from the two is the one described. *)
Theorem build_status_display_until now (ci : gmap string value)
    (mc items_d : gmap string value) media seconds :
  ci !! "media" = Some (VStr media) →
  default (VInt 10) (ci !! "metadata_display_duration") = VInt seconds →
  mc !! "items" = Some (VDict items_d) →
  0 ≤ dt_micros now →
  0 ≤ seconds →
  dt_micros now + seconds * 1000000 < year_2100_micros →
  (∀ next_item, ∃ status,
     build_status now (Some (VDict ci)) (VDict <$> next_item) (VDict mc) = Ok status ∧
     status !! "current_utc" = Some (VStr (format_utc now)) ∧
     status !! "display_until_utc"
     = Some (VStr (format_utc (plus_seconds now seconds))) ∧
     epoch_seconds (plus_seconds now seconds) = epoch_seconds now + seconds ∧
     status !! "metadata" = Some (default VNone (items_d !! media)) ∧
     status !! "current_item" = Some (status_current_item ci) ∧
     status !! "next_item"
     = Some (from_option
               (λ ni, if truthy (VDict ni) then status_next_item ni else VNone)
               VNone next_item)) ∧
  (∀ select_now before later,
     Forall (λ x, normalized_entry x ∧ seconds_of x ≤ now_seconds_of select_now)
       (before ++ [VDict ci]) →
     Forall (λ x, normalized_entry x ∧ now_seconds_of select_now < seconds_of x)
       later →
     ∃ (ni : gmap string value) status,
       head (later ++ before ++ [VDict ci]) = Some (VDict ni) ∧
       select_current_item (before ++ VDict ci :: later) select_now
       = Ok (Some (VDict ci), Some (VDict ni)) ∧
       build_status now (Some (VDict ci)) (Some (VDict ni)) (VDict mc) = Ok status ∧
       status !! "current_utc" = Some (VStr (format_utc now)) ∧
       status !! "display_until_utc"
       = Some (VStr (format_utc (plus_seconds now seconds))) ∧
       status !! "metadata" = Some (default VNone (items_d !! media)) ∧
       status !! "current_item" = Some (status_current_item ci) ∧
       status !! "next_item" = Some (status_next_item ni)).
Proof.
  intros Hmedia Hdur Hitems Hnow Hseconds Hrange.
  assert (Hbuilt : ∀ next_item,
    build_status now (Some (VDict ci)) (VDict <$> next_item) (VDict mc)
    = Ok (status_with_next next_item
            (status_with_current now ci (default VNone (items_d !! media)) seconds))).
  { intros next_item.
    apply (build_status_present now ci next_item (VDict mc) items_d).
    - intros ->. by rewrite lookup_empty in Hmedia.
    - cbn. by rewrite Hitems.
    - by rewrite Hmedia.
    - by rewrite Hdur.
    - unfold year_2100_micros in Hrange.
      unfold min_datetime_micros, max_datetime_micros. lia. }
  assert (Hfields : ∀ next_item,
    let status := status_with_next next_item
                    (status_with_current now ci (default VNone (items_d !! media))
                       seconds) in
    status !! "current_utc" = Some (VStr (format_utc now)) ∧
    status !! "display_until_utc"
    = Some (VStr (format_utc (plus_seconds now seconds))) ∧
    status !! "metadata" = Some (default VNone (items_d !! media)) ∧
    status !! "current_item" = Some (status_current_item ci)).
  { intros next_item. cbv zeta. rewrite !status_with_next_lookup by done.
    unfold status_with_current, idle_status.
    split; [by rewrite !lookup_insert_ne by done; apply lookup_insert_eq|].
    split; [apply lookup_insert_eq|].
    split; by rewrite !lookup_insert_ne by done; apply lookup_insert_eq. }
  split.
  - intros next_item. eexists. split; [apply Hbuilt|].
    destruct (Hfields next_item) as (Hutc & Huntil & Hmeta & Hcur).
    split; [exact Hutc|]. split; [exact Huntil|].
    split; [apply epoch_seconds_plus|]. split; [exact Hmeta|].
    split; [exact Hcur|]. apply status_with_next_item.
  - intros select_now before later Hstarted Hlater.
    destruct (select_current_item_split select_now before (VDict ci) later
                Hstarted Hlater) as (next & Hhead & Hnext & Hselect).
    destruct Hnext as (ni & z & -> & Hz).
    exists ni. eexists. split; [exact Hhead|]. split; [exact Hselect|].
    split; [apply (Hbuilt (Some ni))|].
    destruct (Hfields (Some ni)) as (Hutc & Huntil & Hmeta & Hcur).
    split; [exact Hutc|]. split; [exact Huntil|]. split; [exact Hmeta|].
    split; [exact Hcur|].
    rewrite status_with_next_item. cbn [from_option].
    rewrite truthy_dict; [done|]. intros ->. by rewrite lookup_empty in Hz.
Qed.

(** The example of the specification: the schedule of [showA] at 08:00:00
    for 10 seconds and [showB] at 20:00:00 for 5 seconds, resolved and
    published at 09:30:00. [showA] is current and has no metadata, the
    status shows it until 09:30:10, and [showB] is next. *)
Lemma build_status_display_until_witness :
  resolve_schedule_items
    (VDict (schedule_document [schedule_entry "08:00:00" "showA" 10;
                               schedule_entry "20:00:00" "showB" 5]))
  = Ok [showA; showB] ∧
  ∃ current next_item status,
    select_current_item [showA; showB] (at_time_of_day 9 30 0)
    = Ok (Some (VDict current), Some (VDict next_item)) ∧
    build_status (at_time_of_day 9 30 0) (Some (VDict current))
      (Some (VDict next_item)) (VDict (<["items" := VDict ∅]> ∅)) = Ok status ∧
    status !! "current_utc" = Some (VStr "2024-01-01T09:30:00Z") ∧
    status !! "display_until_utc" = Some (VStr "2024-01-01T09:30:10Z") ∧
    status !! "metadata" = Some VNone ∧
    status !! "current_item"
    = Some (VDict (<["time" := VStr "08:00:00"]>
                   (<["media" := VStr "showA"]>
                    (<["metadata_display_duration" := VInt 10]> ∅)))) ∧
    status !! "next_item"
    = Some (VDict (<["time" := VStr "20:00:00"]> (<["media" := VStr "showB"]> ∅))).
Proof.
  split; [vm_compute; reflexivity|].
  destruct (build_status_display_until (at_time_of_day 9 30 0)
              (<["_seconds" := VInt 28800]> (schedule_entry "08:00:00" "showA" 10))
              (<["items" := VDict ∅]> ∅) ∅ "showA" 10)
    as [_ Hloop].
  - reflexivity.
  - reflexivity.
  - reflexivity.
  - by vm_compute.
  - lia.
  - by vm_compute.
  - destruct (Hloop (at_time_of_day 9 30 0) [] [showB])
      as (ni & status & Hhead & Hselect & Hs & Hnow & Huntil & Hmeta & Hcur & Hnext).
    + apply Forall_singleton. split; [apply resolved_entry_normalized|].
      by vm_compute.
    + apply Forall_singleton. split; [apply resolved_entry_normalized|].
      by vm_compute.
    + injection Hhead as <-.
      exists (<["_seconds" := VInt 28800]> (schedule_entry "08:00:00" "showA" 10)),
             (<["_seconds" := VInt 72000]> (schedule_entry "20:00:00" "showB" 5)),
             status.
      split; [exact Hselect|]. split; [exact Hs|]. split; [exact Hnow|].
      split; [exact Huntil|]. split; [exact Hmeta|]. split; [exact Hcur|].
      exact Hnext.
Defined.

(** The same example through the whole loop body: the schedule of [showA]
    at 08:00:00 for 10 seconds and [showB] at 20:00:00 for 5, at 09:30:00. *)
Example tick_publishes_example :
  snd <$> tick quiet_io example_state
  = Ok (<["current_utc" := VStr "2024-01-01T09:30:00Z"]>
        (<["current_item" :=
             VDict (<["time" := VStr "08:00:00"]>
                    (<["media" := VStr "showA"]>
                     (<["metadata_display_duration" := VInt 10]> ∅)))]>
         (<["metadata" := VNone]>
          (<["display_until_utc" := VStr "2024-01-01T09:30:10Z"]>
           (<["next_item" :=
                VDict (<["time" := VStr "20:00:00"]>
                       (<["media" := VStr "showB"]> ∅))]> ∅))))).
Proof. vm_compute. reflexivity. Qed.



(** A duration that [int] refuses, or an instant beyond the year 9999, makes
    [build_status] raise. *)
Example build_status_raises :
  build_status (at_time_of_day 9 30 0)
    (Some (VDict (<["metadata_display_duration" := VNone]>
                  (schedule_entry "08:00:00" "showA" 10))))
    None (VDict ∅) = Raise TypeError /\
  build_status (mk_datetime max_datetime_micros) (Some showA) None (VDict ∅)
  = Raise ValueError.
Proof. by vm_compute. Qed.

(** ** The metadata refresh *)

Lemma ffprobe_metadata_fails p :
  ffprobe_metadata p ProbeFails = Ok (default_metadata p).
Proof. reflexivity. Qed.

Lemma discover_loop_app images l1 : ∀ l2 items,
  discover_loop images (l1 ++ l2) items
  = discover_loop images l1 items ≫= discover_loop images l2.
Proof.
  induction l1 as [|[p probe] l1 IH]; intros l2 items; [done|].
  cbn [app discover_loop].
  destruct (bool_decide (lower (path_suffix p) ∈ SUPPORTED_VIDEO_EXTS)).
  - destruct (ffprobe_metadata p probe); result_simpl; [apply IH|done].
  - destruct (bool_decide (lower (path_suffix p) ∈ SUPPORTED_AUDIO_EXTS)); [|apply IH].
    destruct (ffprobe_metadata p probe); result_simpl; [apply IH|done].
Qed.

(** Files with other names leave a key of the mapping as it is. *)
Lemma discover_loop_other images files k : ∀ items0 items,
  discover_loop images files items0 = Ok items →
  (∀ q probe, (q, probe) ∈ files → path_name q ≠ k) →
  items !! k = items0 !! k.
Proof.
  induction files as [|[p probe] files IH]; intros items0 items; cbn [discover_loop].
  - by intros [= <-].
  - intros Hloop Hk.
    assert (Hp : path_name p ≠ k) by (eapply Hk; apply list_elem_of_here).
    assert (Hrest : ∀ q probe', (q, probe') ∈ files → path_name q ≠ k)
      by (intros q probe' Hq; eapply Hk; by apply list_elem_of_further).
    destruct (bool_decide (lower (path_suffix p) ∈ SUPPORTED_VIDEO_EXTS)).
    + destruct (ffprobe_metadata p probe); result_simpl in Hloop; [|done].
      rewrite (IH _ _ Hloop Hrest). by apply lookup_insert_ne.
    + destruct (bool_decide (lower (path_suffix p) ∈ SUPPORTED_AUDIO_EXTS)).
      * destruct (ffprobe_metadata p probe); result_simpl in Hloop; [|done].
        rewrite (IH _ _ Hloop Hrest). by apply lookup_insert_ne.
      * by apply IH.
Qed.

(** The loop returns when every probe that gave an output is handled, and
    then every media file it visited has a key. *)
Lemma discover_loop_returns images files : ∀ items0,
  (∀ p probe, (p, probe) ∈ files → is_ok (ffprobe_metadata p probe) = true) →
  ∃ items,
    discover_loop images files items0 = Ok items ∧
    (∀ k, is_Some (items0 !! k) → is_Some (items !! k)) ∧
    (∀ p probe, (p, probe) ∈ files → is_media_file p →
                is_Some (items !! path_name p)).
Proof.
  induction files as [|[p probe] files IH]; intros items0 Hok; cbn [discover_loop].
  - exists items0. split; [done|]. split; [done|]. intros ?? Hin. by apply elem_of_nil in Hin.
  - assert (Hp : is_ok (ffprobe_metadata p probe) = true)
      by (apply Hok, list_elem_of_here).
    assert (Hrest : ∀ q probe', (q, probe') ∈ files →
                                is_ok (ffprobe_metadata q probe') = true)
      by (intros q probe' Hq; apply Hok; by apply list_elem_of_further).
    destruct (ffprobe_metadata p probe) as [metadata|]; [|done].
    destruct (decide (lower (path_suffix p) ∈ SUPPORTED_VIDEO_EXTS)) as [Hv|Hv].
    + rewrite (bool_decide_eq_true_2 _ Hv). result_simpl.
      destruct (IH (<[path_name p := VDict
                       (metadata ∪ <["type" := VStr "video"]>
                                     (<["path" := VStr (path_str p)]> ∅))]> items0) Hrest)
        as (items & Hloop & Hkeep & Hkeys).
      exists items. split; [done|]. split.
      * intros k Hk. apply Hkeep. by apply lookup_insert_is_Some'; right.
      * intros q probe' [[= -> ->]|Hq]%elem_of_cons Hm.
        -- apply Hkeep. by apply lookup_insert_is_Some'; left.
        -- by eapply Hkeys.
    + rewrite (bool_decide_eq_false_2 _ Hv).
      destruct (decide (lower (path_suffix p) ∈ SUPPORTED_AUDIO_EXTS)) as [Ha|Ha].
      * rewrite (bool_decide_eq_true_2 _ Ha). result_simpl.
        match goal with
        | |- ∃ _, discover_loop _ _ ?m = _ ∧ _ =>
            destruct (IH m Hrest) as (items & Hloop & Hkeep & Hkeys)
        end.
        exists items. split; [done|]. split.
        -- intros k Hk. apply Hkeep. by apply lookup_insert_is_Some'; right.
        -- intros q probe' [[= -> ->]|Hq]%elem_of_cons Hm.
           ++ apply Hkeep. by apply lookup_insert_is_Some'; left.
           ++ by eapply Hkeys.
      * rewrite (bool_decide_eq_false_2 _ Ha).
        destruct (IH items0 Hrest) as (items & Hloop & Hkeep & Hkeys).
        exists items. split; [done|]. split; [done|].
        intros q probe' [[= -> ->]|Hq]%elem_of_cons Hm.
        -- by destruct Hm.
        -- by eapply Hkeys.
Qed.

(** The keys of what [ffprobe_metadata] returns. *)
Lemma ffprobe_metadata_keys p probe (m : gmap string value) :
  ffprobe_metadata p probe = Ok m →
  dom m = {[ "title"; "description"; "original_air_date"; "duration_seconds" ]}.
Proof.
  unfold ffprobe_metadata.
  destruct (if truthy _ then _ ≫= (λ fmt, py_get fmt "tags" _) else _)
    as [tags|]; result_simpl; [|done].
  destruct (if truthy _ then _ ≫= (λ fmt, py_get fmt "duration" _) else _)
    as [duration|]; result_simpl; [|done].
  destruct (py_get tags "title" VNone) as [t|]; result_simpl; [|done].
  destruct (py_get tags "description" VNone) as [d|]; result_simpl; [|done].
  destruct (if truthy d then _ else _) as [description|]; result_simpl; [|done].
  destruct (py_get tags "date" VNone) as [a|]; result_simpl; [|done].
  destruct (if truthy a then _ else _) as [air_date|]; result_simpl; [|done].
  destruct (if truthy duration then _ else _) as [seconds|]; result_simpl; [|done].
  intros [= <-]. rewrite !dom_insert_L, dom_empty_L. set_solver.
Qed.

Lemma metadata_union_base (metadata base : gmap string value) k :
  dom metadata = {[ "title"; "description"; "original_air_date"; "duration_seconds" ]} →
  k ≠ "title" → k ≠ "description" → k ≠ "original_air_date" →
  k ≠ "duration_seconds" →
  (metadata ∪ base) !! k = base !! k.
Proof.
  intros Hdom ????. apply lookup_union_r, not_elem_of_dom. rewrite Hdom.
  rewrite !elem_of_union, !elem_of_singleton. tauto.
Qed.

(** Whether a path is a media file is decided by its name. *)
Lemma is_media_file_name p q :
  path_name q = path_name p → is_media_file p → is_media_file q.
Proof. unfold is_media_file, path_suffix. by intros ->. Qed.

(** The entry under a name is the one made for the last media file of that
    name: it carries the path of that file and what its probe gave. *)
Lemma discover_loop_last images k files : ∀ items0 items,
  discover_loop images files items0 = Ok items →
  (∃ q probe, (q, probe) ∈ files ∧ path_name q = k ∧ is_media_file q) →
  ∃ q probe metadata (entry : gmap string value),
    (q, probe) ∈ files ∧ path_name q = k ∧
    ffprobe_metadata q probe = Ok metadata ∧
    items !! k = Some (VDict entry) ∧
    entry !! "path" = Some (VStr (path_str q)) ∧
    (∀ field, is_Some (metadata !! field) → entry !! field = metadata !! field).
Proof.
  induction files as [|[p probe] files IH]; intros items0 items Hloop Hsome.
  { destruct Hsome as (q & probe & Hin & _). by apply elem_of_nil in Hin. }
  destruct (decide (Exists (λ f : path * probe_outcome, path_name f.1 = k) files))
    as [Hlater|Hlater].
  - assert (Hmedia : is_media_file p ∨ ¬ is_media_file p).
    { unfold is_media_file.
      destruct (decide (lower (path_suffix p) ∈ SUPPORTED_VIDEO_EXTS)); [by left; left|].
      destruct (decide (lower (path_suffix p) ∈ SUPPORTED_AUDIO_EXTS)); [by left; right|].
      right. tauto. }
    assert (Hrest : ∃ q probe', (q, probe') ∈ files ∧ path_name q = k ∧ is_media_file q).
    { apply Exists_exists in Hlater as ([q probe'] & Hin & Hname).
      exists q, probe'. split; [done|]. split; [done|].
      destruct Hsome as (q0 & probe0 & _ & Hname0 & Hm0).
      eapply is_media_file_name; [|exact Hm0]. cbn in Hname. congruence. }
    cbn [discover_loop] in Hloop.
    assert (∃ items1, discover_loop images files items1 = Ok items) as [items1 Hloop1].
    { destruct (bool_decide (lower (path_suffix p) ∈ SUPPORTED_VIDEO_EXTS)).
      - destruct (ffprobe_metadata p probe); result_simpl in Hloop; [|done].
        by eexists.
      - destruct (bool_decide (lower (path_suffix p) ∈ SUPPORTED_AUDIO_EXTS)).
        + destruct (ffprobe_metadata p probe); result_simpl in Hloop; [|done].
          by eexists.
        + by eexists. }
    destruct (IH _ _ Hloop1 Hrest)
      as (q & probe' & metadata & entry & Hin & Hrest').
    exists q, probe', metadata, entry. split; [by apply list_elem_of_further|done].
  - assert (Hother : ∀ q probe', (q, probe') ∈ files → path_name q ≠ k).
    { intros q probe' Hin Hname. apply Hlater, Exists_exists.
      by exists (q, probe'). }
    destruct Hsome as (q & probe' & Hin & Hname & Hm).
    apply elem_of_cons in Hin as [[= -> ->]|Hin]; [|by destruct (Hother _ _ Hin)].
    cbn [discover_loop] in Hloop.
    destruct (decide (lower (path_suffix p) ∈ SUPPORTED_VIDEO_EXTS)) as [Hv|Hv].
    + rewrite (bool_decide_eq_true_2 _ Hv) in Hloop.
      destruct (ffprobe_metadata p probe) as [metadata|] eqn:Hprobe;
        result_simpl in Hloop; [|done].
      pose proof (ffprobe_metadata_keys _ _ _ Hprobe) as Hdom.
      exists p, probe, metadata. eexists.
      split; [apply list_elem_of_here|]. split; [done|]. split; [done|]. split.
      { rewrite (discover_loop_other _ _ _ _ _ Hloop Hother), <- Hname.
        apply lookup_insert_eq. }
      split.
      * rewrite (metadata_union_base _ _ _ Hdom) by done. by simplify_map_eq.
      * intros field [x Hx]. rewrite Hx. by apply lookup_union_Some_l.
    + rewrite (bool_decide_eq_false_2 _ Hv) in Hloop.
      assert (Ha : lower (path_suffix p) ∈ SUPPORTED_AUDIO_EXTS) by by destruct Hm.
      rewrite (bool_decide_eq_true_2 _ Ha) in Hloop.
      destruct (ffprobe_metadata p probe) as [metadata|] eqn:Hprobe;
        result_simpl in Hloop; [|done].
      pose proof (ffprobe_metadata_keys _ _ _ Hprobe) as Hdom.
      exists p, probe, metadata. eexists.
      split; [apply list_elem_of_here|]. split; [done|]. split; [done|]. split.
      { rewrite (discover_loop_other _ _ _ _ _ Hloop Hother), <- Hname.
        apply lookup_insert_eq. }
      split.
      * rewrite (metadata_union_base _ _ _ Hdom) by done. by simplify_map_eq.
      * intros field [x Hx]. rewrite Hx. by apply lookup_union_Some_l.
Qed.

(** C5, as the code has it. A media file whose probe fails is not left out,
    and does not fail the refresh: the refresh returns the mapping, with a
    key for every media file, as long as the outputs of the other probes
    are handled, and the mapping has an entry under the name of the file.
    When no file found later has the same name, that entry is the file's
    own, with the default metadata (the stem as title, an empty description
    and air date, no duration) and its path; when one has, the entry is
    that of a later file of that name, with its path and what its probe
    gave. *)
Theorem discover_media_probe_failure before p after :
  is_media_file p →
  (∀ q probe, (q, probe) ∈ before ++ after →
              is_ok (ffprobe_metadata q probe) = true) →
  ∃ items entry,
    discover_media (DirFiles (before ++ (p, ProbeFails) :: after)) = Ok items ∧
    (∀ q probe, (q, probe) ∈ before ++ (p, ProbeFails) :: after → is_media_file q →
                is_Some (items !! path_name q)) ∧
    items !! path_name p = Some (VDict entry) ∧
    ((∀ q probe, (q, probe) ∈ after → path_name q ≠ path_name p) →
     entry !! "title" = Some (VStr (path_stem p)) ∧
     entry !! "description" = Some (VStr "") ∧
     entry !! "original_air_date" = Some (VStr "") ∧
     entry !! "duration_seconds" = Some VNone ∧
     entry !! "path" = Some (VStr (path_str p))) ∧
    ((∃ q probe, (q, probe) ∈ after ∧ path_name q = path_name p) →
     ∃ q probe metadata,
       (q, probe) ∈ after ∧ path_name q = path_name p ∧
       ffprobe_metadata q probe = Ok metadata ∧
       entry !! "path" = Some (VStr (path_str q)) ∧
       (∀ field, is_Some (metadata !! field) → entry !! field = metadata !! field)).
Proof.
  intros Hmedia Hok. cbn [discover_media].
  set (files := before ++ (p, ProbeFails) :: after).
  set (images := images_by_stem_of files.*1).
  destruct (discover_loop_returns images files ∅) as (items & Hloop & _ & Hkeys).
  { intros q probe [Hq|[[= -> ->]|Hq]%elem_of_cons]%elem_of_app.
    - apply Hok, elem_of_app. by left.
    - done.
    - apply Hok, elem_of_app. by right. }
  pose proof Hloop as Hsplit. unfold files in Hsplit.
  rewrite discover_loop_app in Hsplit.
  destruct (discover_loop images before ∅) as [items1|]; result_simpl in Hsplit;
    [|done].
  destruct (discover_loop_last images (path_name p) _ _ _ Hsplit)
    as (q & probe & metadata & entry & Hin & Hname & Hprobe & Hentry & Hpath & Hfields).
  { exists p, ProbeFails. split; [apply list_elem_of_here|done]. }
  exists items, entry. split; [exact Hloop|]. split; [exact Hkeys|].
  split; [exact Hentry|]. split.
  - intros Hafter.
    apply elem_of_cons in Hin as [[= -> ->]|Hin]; [|by destruct (Hafter _ _ Hin)].
    rewrite ffprobe_metadata_fails in Hprobe. injection Hprobe as <-.
    split; [by rewrite Hfields|]. split; [by rewrite Hfields|].
    split; [by rewrite Hfields|]. split; [by rewrite Hfields|done].
  - intros Hlater.
    assert (Hstep : ∃ items2, discover_loop images after items2 = Ok items).
    { cbn [discover_loop] in Hsplit.
      destruct (bool_decide (lower (path_suffix p) ∈ SUPPORTED_VIDEO_EXTS)).
      - rewrite ffprobe_metadata_fails in Hsplit. result_simpl in Hsplit.
        by eexists.
      - destruct (bool_decide (lower (path_suffix p) ∈ SUPPORTED_AUDIO_EXTS)).
        + rewrite ffprobe_metadata_fails in Hsplit. result_simpl in Hsplit.
          by eexists.
        + by eexists. }
    destruct Hstep as [items2 Hafter].
    destruct (discover_loop_last images (path_name p) _ _ _ Hafter)
      as (q' & probe' & metadata' & entry' & Hin' & Hname' & Hprobe' & Hentry'
          & Hpath' & Hfields').
    { destruct Hlater as (q0 & probe0 & Hin0 & Hname0). exists q0, probe0.
      split; [done|]. split; [done|]. by eapply is_media_file_name. }
    rewrite Hentry in Hentry'. injection Hentry' as <-.
    by exists q', probe', metadata'.
Qed.

Lemma discover_media_probe_failure_witness :
  ∃ items entry,
    discover_media
      (DirFiles [(mk_path "media/" "a.mp4", ProbeFails);
                 (mk_path "media/" "b.mp3",
                  ProbeOutput (VDict (<["format" :=
                                 VDict (<["duration" := VStr "12.5"]> ∅)]> ∅)))])
    = Ok items ∧
    is_Some (items !! "b.mp3") ∧
    items !! "a.mp4" = Some (VDict entry) ∧
    entry !! "title" = Some (VStr "a") ∧
    entry !! "duration_seconds" = Some VNone ∧
    entry !! "path" = Some (VStr "media/a.mp4").
Proof.
  destruct (discover_media_probe_failure [] (mk_path "media/" "a.mp4")
              [(mk_path "media/" "b.mp3",
                ProbeOutput (VDict (<["format" :=
                               VDict (<["duration" := VStr "12.5"]> ∅)]> ∅)))])
    as (items & entry & Hd & Hkeys & Hentry & Hown & _).
  - left. by vm_compute.
  - intros q probe Hq. apply list_elem_of_singleton in Hq. by injection Hq as -> ->.
  - destruct Hown as (Htitle & _ & _ & Hdur & Hpath).
    { intros q probe Hq. apply list_elem_of_singleton in Hq. by injection Hq as -> ->. }
    exists items, entry. split; [exact Hd|]. split; [|by repeat split].
    apply (Hkeys (mk_path "media/" "b.mp3")
             (ProbeOutput (VDict (<["format" :=
                             VDict (<["duration" := VStr "12.5"]> ∅)]> ∅)))).
    + apply list_elem_of_further, list_elem_of_here.
    + right. by vm_compute.
Defined.

(** A video whose probe fails has a key in the mapping of the refresh. *)
Lemma discover_media_keeps_failed_probe :
  discover_media (DirFiles [(mk_path "media/" "a.mp4", ProbeFails)])
  = Ok {[ "a.mp4" :=
            VDict (<["type" := VStr "video"]>
                   (<["path" := VStr "media/a.mp4"]>
                    (default_metadata (mk_path "media/" "a.mp4")))) ]} ∧
  ({[ "a.mp4" :=
        VDict (<["type" := VStr "video"]>
               (<["path" := VStr "media/a.mp4"]>
                (default_metadata (mk_path "media/" "a.mp4")))) ]}
     : gmap string value) !! "a.mp4" ≠ None.
Proof. split; [vm_compute; reflexivity|]. by rewrite lookup_singleton_eq. Qed.

(** Two files of one name in two directories, the probe of the first one
    failing: the mapping holds the entry of the second one only. *)
Example discover_media_same_name :
  discover_media
    (DirFiles [(mk_path "media/a/" "x.mp4", ProbeFails);
               (mk_path "media/b/" "x.mp4",
                ProbeOutput (VDict (<["format" :=
                               VDict (<["tags" :=
                                 VDict (<["title" := VStr "News"]> ∅)]> ∅)]> ∅)))])
  = Ok {[ "x.mp4" :=
            VDict (<["type" := VStr "video"]>
                   (<["path" := VStr "media/b/x.mp4"]>
                    (<["title" := VStr "News"]>
                     (default_metadata (mk_path "media/b/" "x.mp4"))))) ]}.
Proof. vm_compute. reflexivity. Qed.

(** A probe whose output is not a JSON object is not caught: the refresh
    raises. *)
Example discover_media_raises :
  discover_media (DirFiles [(mk_path "media/" "a.mp4", ProbeOutput (VList [VInt 1]))])
  = Raise AttributeError.
Proof. vm_compute. reflexivity. Qed.

(** ** The atomic write *)

Lemma string_app_assoc (a b c : string) : (a +:+ b) +:+ c = a +:+ (b +:+ c).
Proof.
  induction a as [|x a IH]; [done|].
  change (String x ((a +:+ b) +:+ c) = String x (a +:+ (b +:+ c))). by f_equal.
Qed.

Lemma string_length_app (a b : string) :
  String.length (a +:+ b) = (String.length a + String.length b)%nat.
Proof.
  induction a as [|x a IH]; [done|].
  change (S (String.length (a +:+ b)) = S (String.length a + String.length b)).
  by f_equal.
Qed.

Lemma substring_all (s : string) : substring 0 (String.length s) s = s.
Proof. induction s as [|c s IH]; cbn; [done|]. by f_equal. Qed.

Lemma substring_split (s : string) : ∀ i,
  (i ≤ String.length s)%nat →
  substring 0 i s +:+ substring i (String.length s - i) s = s.
Proof.
  induction s as [|c s IH]; intros [|i] Hi; cbn in Hi; try done; try lia.
  - cbn [substring String.length Nat.sub].
    change (String c (substring 0 (String.length s) s) = String c s).
    f_equal. apply substring_all.
  - change (String c (substring 0 i s +:+ substring i (String.length s - i) s)
            = String c s).
    f_equal. apply IH. lia.
Qed.

Lemma substring_tail_length (s : string) : ∀ i,
  (i ≤ String.length s)%nat →
  String.length (substring i (String.length s - i) s) = (String.length s - i)%nat.
Proof.
  induction s as [|c s IH]; intros [|i] Hi; cbn in *; try done; try lia.
  - by rewrite substring_all.
  - apply IH. lia.
Qed.

Lemma suffix_index_bound name i :
  suffix_index name = Some i → (i ≤ String.length name)%nat.
Proof.
  unfold suffix_index. destruct (rfind_dot name) as [j|]; [|done].
  destruct (Nat.ltb 0 j && Nat.ltb j (String.length name - 1)) eqn:Hb; [|done].
  intros [= <-]. apply andb_true_iff in Hb as [_ Hb]. apply Nat.ltb_lt in Hb. lia.
Qed.

(** The stem and the suffix of a path make up its name. *)
Lemma path_stem_suffix p : path_stem p +:+ path_suffix p = path_name p.
Proof.
  unfold path_stem, path_suffix.
  destruct (suffix_index (path_name p)) as [i|] eqn:Hi.
  - apply substring_split. by eapply suffix_index_bound.
  - generalize (path_name p). intros s. induction s as [|c s IH]; [done|].
    change (String c (s +:+ "") = String c s). by f_equal.
Qed.

(** The temporary file is the file named [str(path) + ".tmp"]. *)
Lemma tmp_path_of_str p tmp :
  tmp_path_of p = Ok tmp → path_str tmp = path_str p +:+ ".tmp".
Proof.
  unfold tmp_path_of, with_suffix.
  destruct (contains_char "/" (path_suffix p +:+ ".tmp")); [done|].
  destruct (_ || _); [done|].
  destruct (String.eqb (path_name p) ""); [done|].
  destruct (String.eqb (path_suffix p) "") eqn:Hs.
  - apply String.eqb_eq in Hs. rewrite Hs. intros [= <-].
    unfold path_str. cbn. by rewrite string_app_assoc.
  - intros [= <-]. unfold path_str. cbn [path_parent path_name].
    rewrite string_app_assoc. f_equal.
    rewrite <- string_app_assoc. f_equal.
    rewrite <- (path_stem_suffix p) at 3.
    f_equal. unfold path_stem, path_suffix.
    destruct (suffix_index (path_name p)) as [i|] eqn:Hi.
    + rewrite substring_tail_length by by eapply suffix_index_bound.
      apply suffix_index_bound in Hi.
      replace (String.length (path_name p) - (String.length (path_name p) - i))%nat
        with i by lia. done.
    + cbn. rewrite Nat.sub_0_r. apply substring_all.
Qed.

Lemma tmp_path_of_fresh p tmp :
  tmp_path_of p = Ok tmp → path_str tmp ≠ path_str p.
Proof.
  intros Htmp Heq. apply tmp_path_of_str in Htmp. rewrite Htmp in Heq.
  apply (f_equal String.length) in Heq. rewrite string_length_app in Heq.
  cbn in Heq. lia.
Qed.

Example tmp_path_of_status : tmp_path_of STATUS_FILE = Ok (mk_path "" "obs_status.json.tmp").
Proof. reflexivity. Qed.

Section AtomicWriteProperties.
Variable json_dumps : value → string.

(** Writing the temporary file leaves every other file as it is. *)
Lemma write_text_states_other (fs : gmap string string) tmp text upto target s :
  tmp ≠ target →
  s ∈ write_text_states fs tmp text upto →
  s !! target = fs !! target.
Proof.
  intros Hne Hs. unfold write_text_states in Hs.
  apply list_elem_of_fmap in Hs as (k & -> & _). by apply lookup_insert_ne.
Qed.

(** The last state of a complete write holds the whole text. *)
Lemma write_text_states_complete (fs : gmap string string) tmp text :
  write_text_states fs tmp text (String.length text)
  = ((λ k, <[tmp := substring 0 k text]> fs) <$> seq 0 (String.length text))
    ++ [<[tmp := text]> fs].
Proof.
  unfold write_text_states. rewrite seq_S, fmap_app. cbn [fmap list_fmap Nat.add].
  by rewrite substring_all.
Qed.

Lemma replace_file_written (fs : gmap string string) tmp target text :
  tmp ≠ target →
  replace_file (<[tmp := text]> fs) tmp target !! target = Some text ∧
  replace_file (<[tmp := text]> fs) tmp target !! tmp = None.
Proof.
  intros Hne. unfold replace_file. rewrite lookup_insert_eq. split.
  - apply lookup_insert_eq.
  - rewrite lookup_insert_ne by done. apply lookup_delete_eq.
Qed.

(** C9. While [atomic_write_json] runs, and after it, the file at the
    canonical path holds either what it held before or the whole serialised
    document: the text goes to the temporary file, whose partial contents
    are never under the canonical path, and only the rename, made once the
    temporary file holds the whole text, changes the canonical file. When
    the write fails the canonical file is untouched. *)
Theorem atomic_write_json_atomic p data fault (fs : gmap string string) :
  let run := atomic_write_json json_dumps p data fault fs in
  let target := path_str p in
  let text := json_dumps data in
  (∀ s, s ∈ run.1 → s !! target = fs !! target ∨ s !! target = Some text) ∧
  (run.2 = Ok () →
   ∃ tmp earlier final,
     tmp_path_of p = Ok tmp ∧ path_str tmp ≠ target ∧
     run.1 = earlier ++ [<[path_str tmp := text]> fs; final] ∧
     (∀ s, s ∈ earlier → s !! target = fs !! target) ∧
     final = replace_file (<[path_str tmp := text]> fs) (path_str tmp) target ∧
     final !! target = Some text ∧
     final !! path_str tmp = None) ∧
  (∀ e, run.2 = Raise e → ∀ s, s ∈ run.1 → s !! target = fs !! target).
Proof.
  cbv zeta. unfold atomic_write_json.
  destruct (tmp_path_of p) as [tmp|e0] eqn:Htmp.
  - pose proof (tmp_path_of_fresh p tmp Htmp) as Hne.
    pose proof (replace_file_written fs (path_str tmp) (path_str p)
                  (json_dumps data) Hne) as [Hnew Hgone].
    destruct fault as [| |written|]; cbn [fst snd].
    + split; [|split; [|done]].
      * intros s [->|[Hs|Hs%list_elem_of_singleton]%elem_of_app]%elem_of_cons.
        -- by left.
        -- left. by eapply write_text_states_other.
        -- right. by subst s.
      * intros _. eexists tmp, _, _. split; [done|]. split; [done|].
        rewrite write_text_states_complete, <- app_assoc. cbn [app].
        split; [by rewrite app_comm_cons|]. split; [|done].
        intros s [->|Hs]%elem_of_cons; [done|].
        apply list_elem_of_fmap in Hs as (k & -> & _). by apply lookup_insert_ne.
    + split; [|split; [done|]].
      * intros s ->%list_elem_of_singleton. by left.
      * by intros e _ s ->%list_elem_of_singleton.
    + split; [|split; [done|]].
      * intros s [->|Hs]%elem_of_cons; left; [done|].
        by eapply write_text_states_other.
      * intros e _ s [->|Hs]%elem_of_cons; [done|].
        by eapply write_text_states_other.
    + split; [|split; [done|]].
      * intros s [->|Hs]%elem_of_cons; left; [done|].
        by eapply write_text_states_other.
      * intros e _ s [->|Hs]%elem_of_cons; [done|].
        by eapply write_text_states_other.
  - cbn [fst snd]. split; [|split; [done|]].
    + intros s ->%list_elem_of_singleton. by left.
    + by intros e _ s ->%list_elem_of_singleton.
Qed.

(** For the three files of the program the caller's outcome is that of the
    fault alone. *)
Lemma atomic_write_json_result p data fault (fs : gmap string string) tmp :
  tmp_path_of p = Ok tmp →
  (atomic_write_json json_dumps p data fault fs).2 = atomic_write_result fault.
Proof. intros Htmp. unfold atomic_write_json. rewrite Htmp. by destruct fault. Qed.

End AtomicWriteProperties.

(** A write of the status file, cut after three characters and complete:
    what a reader finds under the canonical and the temporary names in each
    state. *)
Example atomic_write_json_cut :
  let fs : gmap string string := {[ "obs_status.json" := "{old}" ]} in
  let seen (s : gmap string string) :=
    (s !! "obs_status.json", s !! "obs_status.json.tmp") in
  seen <$> (atomic_write_json (λ _, "{new}") STATUS_FILE (VDict ∅) (WriteFails 3) fs).1
  = [(Some "{old}", None);
     (Some "{old}", Some "");
     (Some "{old}", Some "{");
     (Some "{old}", Some "{n");
     (Some "{old}", Some "{ne")] ∧
  seen <$> (atomic_write_json (λ _, "{new}") STATUS_FILE (VDict ∅) NoFault fs).1
  = [(Some "{old}", None);
     (Some "{old}", Some "");
     (Some "{old}", Some "{");
     (Some "{old}", Some "{n");
     (Some "{old}", Some "{ne");
     (Some "{old}", Some "{new");
     (Some "{old}", Some "{new}");
     (Some "{new}", None)].
Proof. split; vm_compute; reflexivity. Qed.

(** ** The loop *)

Lemma resolve_schedule_items_default now :
  resolve_schedule_items (default_schedule now) = Ok [].
Proof. reflexivity. Qed.

Lemma build_status_idle now (mc : gmap string value) :
  build_status now None None (VDict mc) = Ok (idle_status now).
Proof. unfold build_status. cbn [py_get]. by result_simpl. Qed.

(** The loop of [resolve_schedule_items] returns exactly on objects. *)
Lemma normalize_loop_objects items :
  is_ok (normalize_loop items) = forallb is_object items.
Proof.
  induction items as [|x items IH]; [done|]. cbn [normalize_loop forallb].
  destruct x as [| | | | | |d]; try done.
  cbn [py_get is_object andb]. result_simpl.
  destruct (parse_time_to_seconds _); [|exact IH].
  rewrite <- IH. by destruct (normalize_loop items).
Qed.

Lemma chars_of_objects s : forallb is_object (chars_of s) = String.eqb s "".
Proof. by destruct s. Qed.

Lemma keys_objects (keys : list string) :
  forallb is_object (VStr <$> keys) = Nat.eqb (length keys) 0.
Proof. by destruct keys. Qed.

(** [resolve_schedule_items] returns on the documents its loop gets
    through, and raises on every other one. *)
Lemma resolve_schedule_items_walkable v :
  is_ok (resolve_schedule_items v) = walkable_schedule v.
Proof.
  unfold resolve_schedule_items, walkable_schedule.
  destruct v as [| | | | | |d]; try done. cbn [py_get]. result_simpl.
  destruct (default (VList []) (d !! "items")) as [| | | |s|l|m]; try done;
    cbn [py_iter]; result_simpl.
  - rewrite <- chars_of_objects, <- normalize_loop_objects.
    by destruct (normalize_loop _).
  - rewrite <- normalize_loop_objects. by destruct (normalize_loop _).
  - rewrite <- length_map_to_list, <- (length_fmap fst), <- keys_objects.
    rewrite <- normalize_loop_objects. by destruct (normalize_loop _).
Qed.

(** Probes that fail do not fail the walk. *)
Lemma discover_media_probes_fail files :
  Forall (λ f : path * probe_outcome, f.2 = ProbeFails) files →
  ∃ items, discover_media (DirFiles files) = Ok items.
Proof.
  intros Hfail. cbn [discover_media].
  destruct (discover_loop_returns (images_by_stem_of files.*1) files ∅)
    as (items & Hloop & _).
  - intros p probe Hin. rewrite Forall_forall in Hfail.
    by rewrite (Hfail _ Hin : probe = ProbeFails).
  - by exists items.
Qed.

(** C4, as the code has it. In an iteration of the loop, a schedule file
    that cannot be read or parsed as JSON is caught (in [safe_read_json]):
    the iteration completes, with the empty default schedule in place of
    the cached one, and publishes a status with no current item; and the
    probes that fail are caught (in [ffprobe_metadata]): they do not fail
    the refresh of the metadata. No other failure is caught: a failing
    write of the status file, a failing [exists] or [stat] of the schedule
    file, a failing walk of the media directory or write of the metadata
    file when a scan is due, and a newly read schedule document that the
    loop of [resolve_schedule_items] does not get through (it is not an
    object, or its items are neither a list of objects nor an empty string
    or object) each raise out of the iteration, and an iteration that raises
    ends the loop. [resolve_schedule_items] raises on no other document: a
    document with no valid entry, such as an empty object, gives an
    iteration that completes and publishes the status with no current
    item. *)
Theorem tick_failures :
  (∀ io st (mc : gmap string value) scan mtime,
     tick_refresh_metadata io st = Ok (VDict mc, scan) →
     io_schedule_exists io = Ok true →
     io_schedule_stat io = Ok mtime →
     Qeq_bool mtime (schedule_mtime st) = false →
     unreadable_json (io_schedule_file io) →
     io_status_write io = NoFault →
     tick io st
     = Ok (mk_state (VDict mc) scan (default_schedule (io_schedule_now io)) mtime,
           idle_status (io_status_now io))) ∧
  (∀ io st files,
     Qle_bool (io_time io - last_metadata_scan st) RESCAN_INTERVAL_SECONDS = false →
     io_media_dir io = DirFiles files →
     Forall (λ f : path * probe_outcome, f.2 = ProbeFails) files →
     io_metadata_write io = NoFault →
     ∃ payload, tick_refresh_metadata io st = Ok (payload, io_time io)) ∧
  (∀ io st, io_status_write io ≠ NoFault → ∃ e, tick io st = Raise e) ∧
  (∀ io st e,
     io_schedule_exists io = Raise e ∨
     (io_schedule_exists io = Ok true ∧ io_schedule_stat io = Raise e) →
     ∃ e', tick io st = Raise e') ∧
  (∀ io st,
     Qle_bool (io_time io - last_metadata_scan st) RESCAN_INTERVAL_SECONDS = false →
     io_media_dir io = DirUnreadable ∨ io_metadata_write io ≠ NoFault →
     ∃ e, tick io st = Raise e) ∧
  (∀ io st mtime v,
     io_schedule_exists io = Ok true →
     io_schedule_stat io = Ok mtime →
     Qeq_bool mtime (schedule_mtime st) = false →
     io_schedule_file io = FileText (Some v) →
     walkable_schedule v = false →
     ∃ e, tick io st = Raise e) ∧
  (∀ v, is_ok (resolve_schedule_items v) = walkable_schedule v) ∧
  (∀ io st (mc : gmap string value) scan mtime v,
     tick_refresh_metadata io st = Ok (VDict mc, scan) →
     io_schedule_exists io = Ok true →
     io_schedule_stat io = Ok mtime →
     Qeq_bool mtime (schedule_mtime st) = false →
     io_schedule_file io = FileText (Some v) →
     resolve_schedule_items v = Ok [] →
     io_status_write io = NoFault →
     tick io st
     = Ok (mk_state (VDict mc) scan v mtime, idle_status (io_status_now io))) ∧
  (∀ io rest st e,
     tick io st = Raise e → run_ticks (io :: rest) st = ([], Raise e)).
Proof.
  repeat apply conj.
  - intros io st mc scan mtime Hrefresh Hex Hstat Hne Hfile Hwrite.
    unfold tick. rewrite Hrefresh. result_simpl.
    unfold tick_reload_schedule. rewrite Hex. result_simpl.
    rewrite Hstat. result_simpl. rewrite Hne. cbn [negb]. result_simpl.
    unfold load_schedule. rewrite (safe_read_json_unreadable _ _ Hfile).
    rewrite resolve_schedule_items_default. result_simpl.
    cbn [select_current_item]. result_simpl.
    rewrite build_status_idle. result_simpl.
    rewrite Hwrite. cbn [atomic_write_result]. by result_simpl.
  - intros io st files Hdue Hdir Hfail Hwrite. unfold tick_refresh_metadata.
    rewrite Hdue. cbn [negb]. unfold update_metadata_cache. rewrite Hdir.
    destruct (discover_media_probes_fail files Hfail) as [items ->].
    result_simpl. rewrite Hwrite. cbn [atomic_write_result]. result_simpl.
    by eexists.
  - intros io st Hwrite. unfold tick.
    destruct (tick_refresh_metadata io st) as [[mc scan]|e]; result_simpl;
      [|by eexists].
    destruct (tick_reload_schedule io st) as [[sc m]|e]; result_simpl; [|by eexists].
    destruct (resolve_schedule_items sc) as [items|e]; result_simpl; [|by eexists].
    destruct (select_current_item items _) as [[c n]|e]; result_simpl; [|by eexists].
    destruct (build_status _ c n mc) as [status|e]; result_simpl; [|by eexists].
    destruct (io_status_write io); [done|by eexists..].
  - intros io st e Hfail. unfold tick.
    destruct (tick_refresh_metadata io st) as [[mc scan]|e0]; result_simpl;
      [|by eexists].
    unfold tick_reload_schedule. destruct Hfail as [Hex|[Hex Hstat]].
    + rewrite Hex. result_simpl. by eexists.
    + rewrite Hex. result_simpl. rewrite Hstat. result_simpl. by eexists.
  - intros io st Hdue Hfail. unfold tick, tick_refresh_metadata.
    rewrite Hdue. cbn [negb]. unfold update_metadata_cache.
    destruct Hfail as [Hdir|Hwrite].
    + rewrite Hdir. cbn [discover_media]. result_simpl. by eexists.
    + destruct (discover_media (io_media_dir io)) as [items|e]; result_simpl;
        [|by eexists].
      destruct (io_metadata_write io); [done|cbn [atomic_write_result]..];
        result_simpl; by eexists.
  - intros io st mtime v Hex Hstat Hne Hfile Hv. unfold tick.
    destruct (tick_refresh_metadata io st) as [[mc scan]|e]; result_simpl;
      [|by eexists].
    unfold tick_reload_schedule. rewrite Hex. result_simpl.
    rewrite Hstat. result_simpl. rewrite Hne. cbn [negb]. result_simpl.
    unfold load_schedule. rewrite Hfile, safe_read_json_parsed.
    rewrite <- resolve_schedule_items_walkable in Hv.
    destruct (resolve_schedule_items v) as [items|e]; [done|].
    result_simpl. by eexists.
  - exact resolve_schedule_items_walkable.
  - intros io st mc scan mtime v Hrefresh Hex Hstat Hne Hfile Hres Hwrite.
    unfold tick. rewrite Hrefresh. result_simpl.
    unfold tick_reload_schedule. rewrite Hex. result_simpl.
    rewrite Hstat. result_simpl. rewrite Hne. cbn [negb]. result_simpl.
    unfold load_schedule. rewrite Hfile, safe_read_json_parsed.
    rewrite Hres. result_simpl.
    cbn [select_current_item]. result_simpl.
    rewrite build_status_idle. result_simpl.
    rewrite Hwrite. cbn [atomic_write_result]. by result_simpl.
  - intros io rest st e Htick. cbn [run_ticks]. by rewrite Htick.
Qed.

(** The schedule file caught in the middle of an update, not yet valid
    JSON: the iteration completes, and the cached schedule is replaced by
    the empty default. *)
Lemma tick_failures_witness :
  tick (with_schedule_file (FileText None) (inject_Z 2) quiet_io) example_state
  = Ok (mk_state (metadata_cache example_state) (last_metadata_scan example_state)
          (default_schedule (at_time_of_day 9 30 0)) (inject_Z 2),
        idle_status (at_time_of_day 9 30 0)).
Proof.
  apply (proj1 tick_failures
           (with_schedule_file (FileText None) (inject_Z 2) quiet_io) example_state
           (<["items" := VDict ∅]> ∅) (inject_Z 1704101395) (inject_Z 2)).
  - reflexivity.
  - reflexivity.
  - reflexivity.
  - reflexivity.
  - right. by right.
  - reflexivity.
Defined.

(** The write of the status file fails in an iteration in which nothing
    else goes wrong: the exception leaves the loop, and the iteration that
    would have followed never runs. *)
Lemma tick_status_write_failure :
  tick (with_status_write (WriteFails 3) quiet_io) example_state = Raise OSError ∧
  run_ticks [with_status_write (WriteFails 3) quiet_io; quiet_io] example_state
  = ([], Raise OSError) ∧
  is_ok (tick quiet_io example_state) = true.
Proof. repeat split; vm_compute; reflexivity. Qed.

(** Schedule files that hold valid JSON of other shapes: an empty object,
    and objects whose items are an empty string or an empty object, give
    an iteration that completes with the status of an empty schedule;
    items that are null, or that hold a number, raise out of it. *)
Example tick_schedule_shapes :
  let reads v := with_schedule_file (FileText (Some v)) (inject_Z 2) quiet_io in
  snd <$> tick (reads (VDict ∅)) example_state
  = Ok (idle_status (at_time_of_day 9 30 0)) ∧
  snd <$> tick (reads (VDict (<["items" := VStr ""]> ∅))) example_state
  = Ok (idle_status (at_time_of_day 9 30 0)) ∧
  snd <$> tick (reads (VDict (<["items" := VDict ∅]> ∅))) example_state
  = Ok (idle_status (at_time_of_day 9 30 0)) ∧
  tick (reads (VDict (<["items" := VNone]> ∅))) example_state = Raise TypeError ∧
  tick (reads (VDict (<["items" := VList [VInt 1]]> ∅))) example_state
  = Raise AttributeError ∧
  tick (reads (VList [])) example_state = Raise AttributeError.
Proof. cbv zeta. repeat split; vm_compute; reflexivity. Qed.

(** A complete write of the status file over a previous document: every
    state shows the previous or the new document under the canonical name,
    and the last one the new document. *)
Lemma atomic_write_json_atomic_witness :
  let fs : gmap string string := {[ "obs_status.json" := "{old}" ]} in
  let run := atomic_write_json (λ _, "{new}") STATUS_FILE (VDict ∅) NoFault fs in
  (∀ s, s ∈ run.1 →
        s !! "obs_status.json" = Some "{old}" ∨ s !! "obs_status.json" = Some "{new}") ∧
  ∃ final, last run.1 = Some final ∧ final !! "obs_status.json" = Some "{new}".
Proof.
  cbv zeta.
  destruct (atomic_write_json_atomic (λ _, "{new}") STATUS_FILE (VDict ∅) NoFault
              {[ "obs_status.json" := "{old}" ]}) as (Hall & Hdone & _).
  split.
  - exact Hall.
  - destruct (Hdone eq_refl) as (tmp & earlier & final & _ & _ & Hrun & _ & _ & Hnew & _).
    exists final. split; [|exact Hnew].
    rewrite Hrun, last_app. reflexivity.
Defined.

(** * Further properties of the code *)

(** ** The resolver over a whole day *)

(** X1. A schedule of one entry: that entry is both current and next at
    every instant. *)
Theorem select_current_item_single x now :
  normalized_entry x →
  select_current_item [x] now = Ok (Some x, Some x).
Proof.
  intros Hx. unfold select_current_item. cbn [select_loop].
  rewrite (normalized_entry_subscript x Hx). result_simpl.
  cbn [py_le_int py_gt_int].
  destruct (seconds_of x <=? now_seconds_of now) eqn:Hle; result_simpl.
  - cbn [length Nat.add Nat.ltb Nat.leb py_index lookup list_lookup].
    by result_simpl.
  - replace (now_seconds_of now <? seconds_of x) with true by lia.
    cbn [is_none andb py_last last]. by result_simpl.
Qed.

Lemma select_current_item_single_witness :
  select_current_item [showA] (at_time_of_day 3 0 0) = Ok (Some showA, Some showA) ∧
  select_current_item [showA] (at_time_of_day 21 0 0) = Ok (Some showA, Some showA).
Proof.
  split; apply (select_current_item_single showA); auto with sched.
Defined.

(** A sorted list splits into the entries that have started and the entries
    that start later. *)
Lemma sorted_split_started items t :
  StronglySorted Z.le (seconds_of <$> items) →
  ∃ started later,
    items = started ++ later ∧
    Forall (λ x, seconds_of x ≤ t) started ∧
    Forall (λ x, t < seconds_of x) later.
Proof.
  induction items as [|a items IH]; intros Hs.
  - exists [], []. by repeat split.
  - cbn in Hs. apply StronglySorted_inv in Hs as [Hs Ha].
    destruct (decide (seconds_of a ≤ t)) as [Hle|Hgt].
    + destruct (IH Hs) as (started & later & -> & Hst & Hl).
      exists (a :: started), later. split; [done|]. split; [by constructor|done].
    + exists [], (a :: items). split; [done|]. split; [constructor|].
      constructor; [lia|].
      rewrite Forall_fmap in Ha. eapply Forall_impl; [exact Ha|].
      intros y Hy. cbn in Hy. lia.
Qed.

Lemma cyclic_next_lookup (started later : list value) :
  started ≠ [] →
  last started = (started ++ later) !! (length started - 1)%nat ∧
  head (later ++ started ++ later)
  = (started ++ later) !! (S (length started - 1) mod length (started ++ later))%nat.
Proof.
  intros Hne. assert (0 < length started)%nat by (destruct started; [done|cbn; lia]).
  replace (S (length started - 1)) with (length started) by lia.
  split.
  - rewrite last_lookup, lookup_app_l by lia. f_equal. lia.
  - rewrite length_app. destruct later as [|y later].
    + rewrite Nat.add_0_r, Nat.Div0.mod_same, !app_nil_r. cbn [app].
      apply head_lookup.
    + rewrite Nat.mod_small by (cbn; lia).
      rewrite lookup_app_r, Nat.sub_diag by lia. done.
Qed.

(** X2. On a sorted schedule that is not empty, at every instant, the next
    entry is the one that follows the current entry in the list, the first
    entry following the last one. *)
Theorem select_current_item_successor items now :
  Forall normalized_entry items →
  Sorted Z.le (seconds_of <$> items) →
  items ≠ [] →
  ∃ i current next_item,
    items !! i = Some current ∧
    items !! (S i mod length items)%nat = Some next_item ∧
    select_current_item items now = Ok (Some current, Some next_item).
Proof.
  intros Hn Hs Hne.
  apply Sorted_StronglySorted in Hs; [|intros ???; lia].
  destruct (sorted_split_started items (now_seconds_of now) Hs)
    as (started & later & -> & Hst & Hl).
  apply Forall_app in Hn as [Hns Hnl].
  assert (Hl' : Forall (λ x, normalized_entry x ∧ now_seconds_of now < seconds_of x) later).
  { apply Forall_and. by split. }
  assert (Hst' : Forall (λ x, normalized_entry x ∧ seconds_of x ≤ now_seconds_of now)
                   started).
  { apply Forall_and. by split. }
  destruct started as [|s started].
  - destruct later as [|first rest]; [done|]. cbn [app] in *.
    apply Forall_cons in Hl' as [[Hf Hlt] _].
    exists (length rest), (List.last rest first), first.
    split; [|split].
    + rewrite <- last_cons_default, last_lookup. done.
    + cbn [length]. by rewrite Nat.Div0.mod_same.
    + unfold select_current_item. cbn [select_loop].
      rewrite (normalized_entry_subscript first Hf). result_simpl.
      cbn [py_le_int py_gt_int].
      replace (seconds_of first <=? now_seconds_of now) with false by lia.
      replace (now_seconds_of now <? seconds_of first) with true by lia.
      result_simpl. cbn [is_none andb]. unfold py_last.
      by rewrite last_cons_default.
  - pose proof (select_loop_started (now_seconds_of now) (s :: started)
                  ((s :: started) ++ later) [] later None None eq_refl
                  ltac:(done) Hst' Hl') as Hloop.
    cbn [length] in Hloop.
    destruct (cyclic_next_lookup (s :: started) later ltac:(done)) as [Hlast Hnext].
    rewrite Hlast, Hnext in Hloop.
    set (i := (length (s :: started) - 1)%nat) in *.
    destruct (lookup_lt_is_Some_2 ((s :: started) ++ later) i) as [current Hc].
    { rewrite length_app. unfold i. cbn. lia. }
    destruct (lookup_lt_is_Some_2 ((s :: started) ++ later)
                (S i mod length ((s :: started) ++ later))) as [next_item Hnx].
    { apply Nat.mod_upper_bound. rewrite length_app. cbn. lia. }
    exists i, current, next_item. split; [done|]. split; [done|].
    rewrite Hc, Hnx in Hloop.
    unfold select_current_item. cbn [app] in *. by rewrite Hloop.
Qed.

Lemma select_current_item_successor_witness :
  ∃ i current next_item,
    [morning; evening] !! i = Some current ∧
    [morning; evening] !! (S i mod 2)%nat = Some next_item ∧
    select_current_item [morning; evening] (at_time_of_day 2 0 0)
    = Ok (Some current, Some next_item).
Proof.
  apply (select_current_item_successor [morning; evening] (at_time_of_day 2 0 0)).
  - repeat constructor; auto with sched.
  - repeat constructor. by vm_compute.
  - done.
Defined.

(** The loop only compares the seconds of the entries with the time of
    day: two times of day that the entries do not separate give the same
    run. *)
Lemma select_loop_agree items n1 n2 rest : ∀ idx c n,
  Forall (λ x, normalized_entry x ∧ (seconds_of x ≤ n1 ↔ seconds_of x ≤ n2)) rest →
  select_loop items n1 idx rest c n = select_loop items n2 idx rest c n.
Proof.
  induction rest as [|x rest IH]; intros idx c n Hr; [done|].
  apply Forall_cons in Hr as [[Hx Hiff] Hr].
  cbn [select_loop]. rewrite (normalized_entry_subscript x Hx). result_simpl.
  cbn [py_le_int py_gt_int].
  destruct (Z.leb_spec (seconds_of x) n1), (Z.leb_spec (seconds_of x) n2);
    try lia; result_simpl.
  - destruct (Nat.ltb _ _), (py_index _ _); result_simpl; try done; by apply IH.
  - destruct (Z.ltb_spec n1 (seconds_of x)), (Z.ltb_spec n2 (seconds_of x));
      try lia.
    destruct c; cbn [is_none andb]; [by apply IH|done].
Qed.

(** X3. The resolution changes only at the times of the entries: two
    instants whose times of day are on the same side of every entry resolve
    to the same current and next entries. *)
Theorem select_current_item_between items t1 t2 :
  Forall normalized_entry items →
  (∀ x, x ∈ items →
        seconds_of x ≤ now_seconds_of t1 ↔ seconds_of x ≤ now_seconds_of t2) →
  select_current_item items t1 = select_current_item items t2.
Proof.
  intros Hn Hsame. unfold select_current_item.
  destruct items as [|x items]; [done|].
  rewrite (select_loop_agree (x :: items) (now_seconds_of t1) (now_seconds_of t2));
    [done|].
  apply Forall_forall. intros y Hy. split; [|by apply Hsame].
  by eapply Forall_forall in Hn.
Qed.

Lemma select_current_item_between_witness :
  select_current_item [showA; showB] (at_time_of_day 8 0 0)
  = select_current_item [showA; showB] (at_time_of_day 19 59 59).
Proof.
  apply (select_current_item_between [showA; showB]).
  - repeat constructor; auto with sched.
  - intros x [->|[->|[]%elem_of_nil]%elem_of_cons]%elem_of_cons; by vm_compute.
Defined.

Lemma now_seconds_of_plus_days now k :
  now_seconds_of (plus_seconds now (k * 86400)) = now_seconds_of now.
Proof.
  rewrite !now_seconds_of_mod, epoch_seconds_plus. apply Z.mod_add. lia.
Qed.

(** X4. The schedule is a daily cycle: an instant and the instant any whole
    number of days later (or earlier) resolve to the same entries. *)
Theorem select_current_item_daily items now k :
  select_current_item items (plus_seconds now (k * 86400))
  = select_current_item items now.
Proof.
  unfold select_current_item. destruct items as [|x items]; [done|].
  by rewrite now_seconds_of_plus_days.
Qed.

(** ** The resolved schedule *)

(** X5. Whatever the document, when [resolve_schedule_items] returns, every
    entry of its result carries its seconds as an int under ["_seconds"],
    and the entries are in ascending order of seconds. *)
Theorem resolve_schedule_items_ascending schedule items :
  resolve_schedule_items schedule = Ok items →
  (∀ x, x ∈ items → py_subscript x "_seconds" = Ok (VInt (seconds_of x))) ∧
  (∀ i j x y, (i ≤ j)%nat → items !! i = Some x → items !! j = Some y →
              seconds_of x ≤ seconds_of y).
Proof.
  intros Hr. apply resolve_schedule_items_sorted in Hr as [Hn Hs]. split.
  - intros x Hx. apply normalized_entry_subscript. by eapply Forall_forall in Hn.
  - intros i j x y Hij Hx Hy.
    apply Sorted_StronglySorted in Hs; [|intros ???; lia].
    by eapply (sorted_seconds_lookup items i j).
Qed.

Lemma resolve_schedule_items_ascending_witness :
  (∀ x, x ∈ [showA; showB] → py_subscript x "_seconds" = Ok (VInt (seconds_of x))) ∧
  (∀ i j x y, (i ≤ j)%nat → [showA; showB] !! i = Some x → [showA; showB] !! j = Some y →
              seconds_of x ≤ seconds_of y).
Proof.
  apply (resolve_schedule_items_ascending
           (VDict (schedule_document [schedule_entry "20:00:00" "showB" 5;
                                      schedule_entry "08:00:00" "showA" 10]))).
  vm_compute. reflexivity.
Defined.

(** X6. The sort is stable: the entries of the document that resolve to
    the same second come out in the order of the document. *)
Theorem resolve_schedule_items_stable (schedule : gmap string value) ds k :
  schedule !! "items" = Some (VList (VDict <$> ds)) →
  ∃ kept,
    resolve_schedule_items (VDict schedule) = Ok kept ∧
    filter (λ e, seconds_of e = k) kept
    = filter (λ e, seconds_of e = k) (omap normalize_entry ds).
Proof.
  intros Hitems. eexists. split; [by apply resolve_schedule_items_dicts|].
  apply sort_by_seconds_stable.
Qed.

Lemma resolve_schedule_items_stable_witness :
  ∃ kept,
    resolve_schedule_items
      (VDict (schedule_document [schedule_entry "20:00:00" "showB" 5;
                                 schedule_entry "08:00:00" "first" 10;
                                 schedule_entry "8:0:0" "second" 10]))
    = Ok kept ∧
    filter (λ e, seconds_of e = 28800) kept
    = [resolved_entry "08:00:00" "first" 10 28800;
       resolved_entry "8:0:0" "second" 10 28800].
Proof.
  apply (resolve_schedule_items_stable
           (schedule_document [schedule_entry "20:00:00" "showB" 5;
                               schedule_entry "08:00:00" "first" 10;
                               schedule_entry "8:0:0" "second" 10])
           [schedule_entry "20:00:00" "showB" 5;
            schedule_entry "08:00:00" "first" 10;
            schedule_entry "8:0:0" "second" 10] 28800).
  reflexivity.
Defined.

(** ** The times the editor writes *)

Lemma Z_below_forallb (P : Z → bool) (bound : nat) :
  forallb P (Z.of_nat <$> seq 0 bound) = true →
  ∀ n, 0 ≤ n < Z.of_nat bound → P n = true.
Proof.
  intros Hall n Hn. rewrite forallb_forall in Hall. apply Hall.
  apply in_map_iff. exists (Z.to_nat n). split; [lia|].
  apply in_seq. lia.
Qed.

(** Two digits are read back by [int], hold no colon, and pass [isdigit]. *)
Lemma two_digits_field n :
  0 ≤ n < 100 →
  int_of_string (two_digits n) = Some n ∧
  contains_char ":" (two_digits n) = false ∧
  str_isdigit (two_digits n) = true.
Proof.
  intros Hn.
  pose proof (Z_below_forallb
    (λ n, match int_of_string (two_digits n) with
          | Some z => z =? n
          | None => false
          end
          && negb (contains_char ":" (two_digits n))
          && str_isdigit (two_digits n)) 100 ltac:(vm_compute; reflexivity) n Hn)
    as Hcheck.
  cbv beta in Hcheck.
  apply andb_true_iff in Hcheck as [[Hint Hcolon]%andb_true_iff Hdigit].
  destruct (int_of_string (two_digits n)) as [z|]; [|done].
  apply Z.eqb_eq in Hint. apply negb_true_iff in Hcolon. by subst z.
Qed.

Lemma split_colon_last a : contains_char ":" a = false → split_colon a = [a].
Proof.
  induction a as [|c a IH]; [done|]. cbn [contains_char split_colon].
  intros [Hc Ha]%orb_false_iff. rewrite Ascii.eqb_sym, Hc. by rewrite (IH Ha).
Qed.

Lemma split_colon_field a rest :
  contains_char ":" a = false →
  split_colon (a +:+ String ":" rest) = a :: split_colon rest.
Proof.
  induction a as [|c a IH]; [done|]. cbn [contains_char].
  intros [Hc Ha]%orb_false_iff.
  change (String c a +:+ String ":" rest) with (String c (a +:+ String ":" rest)).
  cbn [split_colon]. rewrite Ascii.eqb_sym, Hc. by rewrite (IH Ha).
Qed.

(** A time in the format of the editor is read by the scheduler as the
    seconds it stands for. *)
Lemma parse_time_format h m s :
  0 ≤ h < 100 → 0 ≤ m < 100 → 0 ≤ s < 100 →
  parse_time_to_seconds (VStr (format_time h m s)) = Some (h * 3600 + m * 60 + s).
Proof.
  intros Hh Hm Hs.
  destruct (two_digits_field h Hh) as (Hhi & Hhc & _).
  destruct (two_digits_field m Hm) as (Hmi & Hmc & _).
  destruct (two_digits_field s Hs) as (Hsi & Hsc & _).
  apply parse_time_to_seconds_Some. exists (format_time h m s), h, m, s.
  split; [done|]. split; [|done]. unfold format_time.
  change (":" +:+ two_digits m +:+ ":" +:+ two_digits s)
    with (String ":" (two_digits m +:+ String ":" (two_digits s))).
  rewrite (split_colon_field _ _ Hhc), (split_colon_field _ _ Hmc),
    (split_colon_last _ Hsc).
  cbn [fmap list_fmap]. by rewrite Hhi, Hmi, Hsi.
Qed.

Lemma prompt_time_attempt_accepts line t :
  prompt_time_attempt line = Ok (Some t) →
  ∃ h m s, 0 ≤ h < 24 ∧ 0 ≤ m < 60 ∧ 0 ≤ s < 60 ∧ t = format_time h m s.
Proof.
  unfold prompt_time_attempt.
  destruct (_ && _); [|done].
  destruct (int_parts _) as [numbers|]; result_simpl; [|done].
  destruct numbers as [|h [|m [|s [|]]]]; try done.
  destruct (_ && _) eqn:Hrange; [|done].
  intros [= <-]. exists h, m, s.
  repeat (apply andb_true_iff in Hrange as [Hrange ?]). repeat split; lia.
Qed.

(** X7. A time returned by [prompt_time], on lines of ASCII text, has its
    three fields within a day and is written with two digits each; the
    scheduler reads it back as [h * 3600 + m * 60 + s] seconds, a value
    from 0 to 86399. *)
Theorem prompt_time_resolves lines t :
  ascii_lines lines →
  prompt_time lines = Ok (Some t) →
  ∃ h m s,
    0 ≤ h < 24 ∧ 0 ≤ m < 60 ∧ 0 ≤ s < 60 ∧
    t = format_time h m s ∧
    parse_time_to_seconds (VStr t) = Some (h * 3600 + m * 60 + s) ∧
    0 ≤ h * 3600 + m * 60 + s < 86400.
Proof.
  intros _. induction lines as [|line lines IH]; [done|]. cbn [prompt_time].
  destruct (prompt_time_attempt line) as [[t'|]|] eqn:Ha; result_simpl;
    [|exact IH|done].
  intros [= ->].
  destruct (prompt_time_attempt_accepts _ _ Ha) as (h & m & s & Hh & Hm & Hs & ->).
  exists h, m, s. repeat split; try lia.
  apply parse_time_format; lia.
Qed.

Lemma prompt_time_resolves_witness :
  prompt_time ["25:00:00"; "noon"; " 7:5:3 "] = Ok (Some "07:05:03") ∧
  ∃ h m s,
    0 ≤ h < 24 ∧ 0 ≤ m < 60 ∧ 0 ≤ s < 60 ∧
    "07:05:03" = format_time h m s ∧
    parse_time_to_seconds (VStr "07:05:03") = Some (h * 3600 + m * 60 + s) ∧
    0 ≤ h * 3600 + m * 60 + s < 86400.
Proof.
  split; [reflexivity|].
  apply (prompt_time_resolves ["25:00:00"; "noon"; " 7:5:3 "]).
  - repeat constructor.
  - reflexivity.
Defined.

(** ** The schedule of [auto_fill] *)

(** The loop takes the media in their order, one per hour, and stops after
    the hour 23. *)
Lemma auto_fill_loop_spec media_items : ∀ hour,
  0 ≤ hour < 24 →
  auto_fill_loop media_items hour
  = imap (λ i name, auto_fill_entry (hour + Z.of_nat i) name)
      (take (Z.to_nat (24 - hour)) media_items).
Proof.
  induction media_items as [|name rest IH]; intros hour Hh.
  - by rewrite take_nil.
  - cbn [auto_fill_loop].
    replace (Z.to_nat (24 - hour)) with (S (Z.to_nat (24 - hour - 1))) by lia.
    cbn [take]. rewrite imap_cons. rewrite Z.add_0_r. f_equal.
    destruct (decide (hour = 23)) as [->|Hne].
    + done.
    + rewrite Z.mod_small by lia.
      replace (hour + 1 =? 0) with false by lia.
      rewrite IH by lia.
      replace (24 - (hour + 1)) with (24 - hour - 1) by lia.
      apply imap_ext. intros i x _. cbn. f_equal. lia.
Qed.

Lemma normalize_entry_auto_fill hour name :
  0 ≤ hour < 24 →
  normalize_entry (auto_fill_entry hour name)
  = Some (VDict (<["_seconds" := VInt (hour * 3600)]> (auto_fill_entry hour name))).
Proof.
  intros Hh. unfold normalize_entry.
  change (entry_time (auto_fill_entry hour name))
    with (VStr (format_time hour 0 0)).
  rewrite parse_time_format by lia. cbn. do 4 f_equal. lia.
Qed.

Lemma omap_normalize_imap (f : nat → string → gmap string value)
    (g : nat → string → value) l :
  (∀ i x, l !! i = Some x → normalize_entry (f i x) = Some (g i x)) →
  omap normalize_entry (imap f l) = imap g l.
Proof.
  revert f g. induction l as [|x l IH]; intros f g Hfg; [done|].
  rewrite !imap_cons. cbn [omap list_omap]. rewrite (Hfg 0%nat x eq_refl).
  f_equal. apply IH. intros i y Hy. by apply (Hfg (S i)).
Qed.

(** A list whose seconds grow with the index is left as it is by the sort. *)
Lemma sort_by_seconds_imap (g : nat → string → value) l :
  (∀ i j x y, (i ≤ j)%nat → seconds_of (g i x) ≤ seconds_of (g j y)) →
  sort_by_seconds (imap g l) = imap g l.
Proof.
  revert g. induction l as [|x l IH]; intros g Hg; [done|].
  rewrite imap_cons. cbn [sort_by_seconds foldr].
  fold (sort_by_seconds (imap (g ∘ S) l)).
  rewrite IH by (intros i j a b Hij; apply Hg; lia).
  destruct l as [|y l]; [done|]. rewrite imap_cons. cbn [insert_by_seconds].
  replace (seconds_of (g 0%nat x) <=? seconds_of ((g ∘ S) 0%nat y)) with true; [done|].
  symmetry. apply Z.leb_le. apply Hg. lia.
Qed.

(** X8. [auto_fill] gives the first 24 media names, in their order, the
    hours 00:00:00, 01:00:00 and so on, each for 10 seconds, and leaves the
    other names out; the scheduler resolves the entry of each hour at
    [hour * 3600] seconds, keeps them all and keeps their order. *)
Theorem auto_fill_resolves (schedule : gmap string value) media_items :
  auto_fill_loop media_items 0
  = imap (λ i name, auto_fill_entry (Z.of_nat i) name) (take 24 media_items) ∧
  resolve_schedule_items
    (VDict (<["items" := VList (VDict <$> auto_fill_loop media_items 0)]> schedule))
  = Ok (imap (λ i name, VDict (<["_seconds" := VInt (Z.of_nat i * 3600)]>
                                 (auto_fill_entry (Z.of_nat i) name)))
          (take 24 media_items)).
Proof.
  assert (Hloop : auto_fill_loop media_items 0
                  = imap (λ i name, auto_fill_entry (Z.of_nat i) name)
                      (take 24 media_items)).
  { rewrite auto_fill_loop_spec by lia. done. }
  split; [exact Hloop|].
  rewrite (resolve_schedule_items_dicts _ (auto_fill_loop media_items 0))
    by apply lookup_insert_eq.
  rewrite Hloop. f_equal.
  rewrite (omap_normalize_imap _
             (λ i name, VDict (<["_seconds" := VInt (Z.of_nat i * 3600)]>
                                 (auto_fill_entry (Z.of_nat i) name)))).
  - apply sort_by_seconds_imap. intros i j x y Hij.
    rewrite !seconds_of_insert. lia.
  - intros i x Hx. apply normalize_entry_auto_fill.
    apply lookup_lt_Some in Hx. rewrite length_take in Hx. lia.
Qed.

Example auto_fill_loop_stops :
  length (auto_fill_loop (replicate 30 "clip.mp4") 0) = 24%nat ∧
  (auto_fill_loop ["a.mp4"; "b.mp3"] 0) !! 1%nat = Some (auto_fill_entry 1 "b.mp3").
Proof. split; vm_compute; reflexivity. Qed.

(** ** The shape of the status *)

(** The keys of a status, by the presence of the two items. *)
Lemma build_status_keys now current_item next_item metadata_cache status :
  build_status now current_item next_item metadata_cache = Ok status →
  status !! "current_utc" = Some (VStr (format_utc now)) ∧
  (if present current_item
   then is_Some (status !! "display_until_utc") ∧
        ∃ ci : gmap string value,
          status !! "current_item" = Some (VDict ci) ∧
          dom ci = {[ "time"; "media"; "metadata_display_duration" ]}
   else status !! "display_until_utc" = None ∧
        status !! "current_item" = Some VNone ∧
        status !! "metadata" = Some VNone) ∧
  (if present next_item
   then ∃ ni : gmap string value,
          status !! "next_item" = Some (VDict ni) ∧ dom ni = {[ "time"; "media" ]}
   else status !! "next_item" = Some VNone).
Proof.
  unfold build_status.
  destruct (py_get metadata_cache "items" (VDict ∅)) as [items|]; result_simpl;
    [|done].
  destruct (present current_item).
  - destruct (py_get (default VNone current_item) "media" VNone) as [media|];
      result_simpl; [|done].
    destruct (py_get_key items media) as [metadata|]; result_simpl; [|done].
    destruct (py_get (default VNone current_item) "metadata_display_duration" _)
      as [duration|]; result_simpl; [|done].
    destruct (py_int duration) as [seconds|]; result_simpl; [|done].
    destruct (py_get (default VNone current_item) "time" VNone) as [time|];
      result_simpl; [|done].
    destruct (datetime_fromtimestamp _) as [until|]; result_simpl; [|done].
    destruct (present next_item).
    + destruct (py_get (default VNone next_item) "time" VNone) as [ntime|];
        result_simpl; [|done].
      destruct (py_get (default VNone next_item) "media" VNone) as [nmedia|];
        result_simpl; [|done].
      intros [= <-]. split; [by simplify_map_eq|]. split.
      * split; [by simplify_map_eq|]. eexists. split; [by simplify_map_eq|].
        rewrite !dom_insert_L, dom_empty_L. set_solver.
      * eexists. split; [by simplify_map_eq|].
        rewrite !dom_insert_L, dom_empty_L. set_solver.
    + intros [= <-]. split; [by simplify_map_eq|]. split.
      * split; [by simplify_map_eq|]. eexists. split; [by simplify_map_eq|].
        rewrite !dom_insert_L, dom_empty_L. set_solver.
      * by simplify_map_eq.
  - destruct (present next_item).
    + destruct (py_get (default VNone next_item) "time" VNone) as [ntime|];
        result_simpl; [|done].
      destruct (py_get (default VNone next_item) "media" VNone) as [nmedia|];
        result_simpl; [|done].
      intros [= <-]. split; [by simplify_map_eq|]. split.
      * by simplify_map_eq.
      * eexists. split; [by simplify_map_eq|].
        rewrite !dom_insert_L, dom_empty_L. set_solver.
    + intros [= <-]. by simplify_map_eq.
Qed.


(** X9. Whenever [build_status] returns, the status holds [current_utc];
    it holds [display_until_utc] exactly when there is a current item, and
    then [current_item] is an object with the keys [time], [media] and
    [metadata_display_duration] only; without a current item,
    [current_item] and [metadata] are [None]. [next_item] is an object with
    the keys [time] and [media] only, or [None]. The ["_seconds"] of the
    resolved entries is never published. *)
Theorem build_status_shape now current_item next_item metadata_cache status :
  build_status now current_item next_item metadata_cache = Ok status →
  status !! "current_utc" = Some (VStr (format_utc now)) ∧
  (if present current_item
   then is_Some (status !! "display_until_utc") ∧
        ∃ ci : gmap string value,
          status !! "current_item" = Some (VDict ci) ∧
          dom ci = {[ "time"; "media"; "metadata_display_duration" ]}
   else status !! "display_until_utc" = None ∧
        status !! "current_item" = Some VNone ∧
        status !! "metadata" = Some VNone) ∧
  (if present next_item
   then ∃ ni : gmap string value,
          status !! "next_item" = Some (VDict ni) ∧ dom ni = {[ "time"; "media" ]}
   else status !! "next_item" = Some VNone).
Proof. apply build_status_keys. Qed.

Lemma build_status_shape_witness :
  ∃ status,
    build_status (at_time_of_day 9 30 0) (Some showA) None (VDict ∅) = Ok status ∧
    is_Some (status !! "display_until_utc") ∧
    (∃ ci : gmap string value,
       status !! "current_item" = Some (VDict ci) ∧
       dom ci = {[ "time"; "media"; "metadata_display_duration" ]}) ∧
    status !! "next_item" = Some VNone.
Proof.
  pose proof (build_status_shape (at_time_of_day 9 30 0) (Some showA) None (VDict ∅))
    as Hshape.
  assert (Hp : present (Some showA) = true) by (vm_compute; reflexivity).
  rewrite Hp in Hshape. cbn [present] in Hshape.
  assert (Hs : is_ok (build_status (at_time_of_day 9 30 0) (Some showA) None
                        (VDict ∅)) = true) by (vm_compute; reflexivity).
  destruct (build_status (at_time_of_day 9 30 0) (Some showA) None (VDict ∅))
    as [status|]; [|discriminate Hs].
  exists status. split; [reflexivity|].
  destruct (Hshape status eq_refl) as (_ & Hcur & Hnext).
  destruct Hcur as [Huntil Hcur].
  split; [exact Huntil|]. split; [exact Hcur|exact Hnext].
Defined.

(** ** The fields of the metadata *)

Lemma path_stem_nonempty p : path_name p ≠ "" → path_stem p ≠ "".
Proof.
  unfold path_stem, suffix_index. intros Hname.
  destruct (rfind_dot (path_name p)) as [i|]; [|done].
  destruct (Nat.ltb 0 i && Nat.ltb i (String.length (path_name p) - 1)) eqn:Hb;
    [|done].
  apply andb_true_iff in Hb as [Hi _]. apply Nat.ltb_lt in Hi.
  destruct i as [|i]; [lia|]. by destruct (path_name p).
Qed.

Lemma truthy_str s : s ≠ "" → truthy (VStr s) = true.
Proof. intros Hs. cbn. by destruct s. Qed.

(** [a or b] is truthy when [b] is, and is [a] or [b]. *)
Lemma py_or_truthy a b : truthy b = true → truthy (py_or a b) = true.
Proof. intros Hb. unfold py_or. by destruct (truthy a) eqn:Ha. Qed.

Lemma py_or_fallback a s : truthy (py_or a (VStr s)) = true ∨ py_or a (VStr s) = VStr s.
Proof. unfold py_or. destruct (truthy a) eqn:Ha; [by left|by right]. Qed.

(** X10. Whenever [ffprobe_metadata] returns, its result has exactly the
    keys [title], [description], [original_air_date] and
    [duration_seconds]; the title is truthy (the stem of the file stands in
    for a missing or empty tag), the description and the air date are
    truthy or the empty string (never [None]), and the duration is [None]
    or a float. *)
Theorem ffprobe_metadata_shape p probe (m : gmap string value) :
  path_name p ≠ "" →
  ffprobe_metadata p probe = Ok m →
  dom m = {[ "title"; "description"; "original_air_date"; "duration_seconds" ]} ∧
  (∃ t, m !! "title" = Some t ∧ truthy t = true) ∧
  (∃ d, m !! "description" = Some d ∧ (truthy d = true ∨ d = VStr "")) ∧
  (∃ a, m !! "original_air_date" = Some a ∧ (truthy a = true ∨ a = VStr "")) ∧
  (m !! "duration_seconds" = Some VNone ∨
   ∃ f, m !! "duration_seconds" = Some (VFloat f)).
Proof.
  intros Hname Hm. split; [by eapply ffprobe_metadata_keys|].
  revert Hm. unfold ffprobe_metadata.
  destruct (if truthy _ then _ ≫= (λ fmt, py_get fmt "tags" _) else _)
    as [tags|]; result_simpl; [|done].
  destruct (if truthy _ then _ ≫= (λ fmt, py_get fmt "duration" _) else _)
    as [duration|]; result_simpl; [|done].
  destruct (py_get tags "title" VNone) as [t|]; result_simpl; [|done].
  destruct (py_get tags "description" VNone) as [d|]; result_simpl; [|done].
  destruct (if truthy d then _ else _) as [description|] eqn:Hd; result_simpl;
    [|done].
  destruct (py_get tags "date" VNone) as [a|]; result_simpl; [|done].
  destruct (if truthy a then _ else _) as [air_date|] eqn:Ha; result_simpl;
    [|done].
  destruct (if truthy duration then _ else _) as [seconds|] eqn:Hs; result_simpl;
    [|done].
  intros [= <-]. split; [|split; [|split]].
  - eexists. split; [by simplify_map_eq|].
    apply py_or_truthy, truthy_str. by apply path_stem_nonempty.
  - exists description. split; [by simplify_map_eq|].
    destruct (truthy d) eqn:Htd.
    + injection Hd as <-. by left.
    + destruct (py_get tags "comment" VNone) as [c|]; result_simpl in Hd; [|done].
      injection Hd as <-. apply py_or_fallback.
  - exists air_date. split; [by simplify_map_eq|].
    destruct (truthy a) eqn:Hta.
    + injection Ha as <-. by left.
    + destruct (py_get tags "creation_time" VNone) as [c|]; result_simpl in Ha;
        [|done].
      injection Ha as <-. apply py_or_fallback.
  - destruct (truthy duration).
    + destruct (py_float duration) as [f|]; result_simpl in Hs; [|done].
      injection Hs as <-. right. exists f. by simplify_map_eq.
    + injection Hs as <-. left. by simplify_map_eq.
Qed.

Lemma ffprobe_metadata_shape_witness :
  ∃ m : gmap string value,
    ffprobe_metadata (mk_path "media/" "news.mp4") news_probe = Ok m ∧
    dom m = {[ "title"; "description"; "original_air_date"; "duration_seconds" ]} ∧
    (∃ t, m !! "title" = Some t ∧ truthy t = true).
Proof.
  pose proof (ffprobe_metadata_shape (mk_path "media/" "news.mp4") news_probe)
    as Hshape.
  assert (Hs : is_ok (ffprobe_metadata (mk_path "media/" "news.mp4") news_probe)
               = true) by (vm_compute; reflexivity).
  destruct (ffprobe_metadata (mk_path "media/" "news.mp4") news_probe) as [m|];
    [|discriminate Hs].
  exists m. split; [reflexivity|].
  destruct (Hshape m ltac:(done) eq_refl) as (Hdom & Htitle & _).
  split; [exact Hdom|exact Htitle].
Defined.

Example ffprobe_metadata_fallbacks :
  (λ m : gmap string value, (m !! "title", m !! "description", m !! "duration_seconds"))
    <$> ffprobe_metadata (mk_path "media/" "news.mp4") news_probe
  = Ok (Some (VStr "news"), Some (VStr "Evening news"),
        Some (VFloat (FFinite (Qmake 125 10)))).
Proof. vm_compute. reflexivity. Qed.

(** ** The entries of the metadata mapping *)

Lemma metadata_union_fields (metadata base : gmap string value) :
  dom metadata = {[ "title"; "description"; "original_air_date"; "duration_seconds" ]} →
  is_Some ((metadata ∪ base) !! "title") ∧
  is_Some ((metadata ∪ base) !! "duration_seconds").
Proof.
  intros Hdom.
  split; apply lookup_union_is_Some; left; apply elem_of_dom; rewrite Hdom;
    rewrite !elem_of_union, !elem_of_singleton; tauto.
Qed.

Lemma discover_loop_entries images all files : ∀ items0 items,
  (∀ x, x ∈ files → x ∈ all) →
  (∀ k e, items0 !! k = Some e → entry_of_media_file all k e) →
  discover_loop images files items0 = Ok items →
  ∀ k e, items !! k = Some e → entry_of_media_file all k e.
Proof.
  induction files as [|[p probe] files IH]; intros items0 items Hin Hinv;
    cbn [discover_loop].
  - by intros [= <-].
  - assert (Hp : (p, probe) ∈ all) by apply Hin, list_elem_of_here.
    assert (Hrest : ∀ x, x ∈ files → x ∈ all)
      by (intros x Hx; by apply Hin, list_elem_of_further).
    destruct (decide (lower (path_suffix p) ∈ SUPPORTED_VIDEO_EXTS)) as [Hv|Hv].
    + rewrite (bool_decide_eq_true_2 _ Hv).
      destruct (ffprobe_metadata p probe) as [metadata|] eqn:Hm; result_simpl;
        [|done].
      apply ffprobe_metadata_keys in Hm.
      apply IH; [done|]. intros k e [[<- <-]|[_ He]]%lookup_insert_Some;
        [|by apply Hinv].
      exists p, probe. eexists. split; [done|]. split; [done|].
      split; [by left|]. split; [done|].
      rewrite (bool_decide_eq_true_2 _ Hv).
      split; [|split; [|exact (metadata_union_fields _ _ Hm)]].
      * rewrite (metadata_union_base _ _ _ Hm) by done. by simplify_map_eq.
      * rewrite (metadata_union_base _ _ _ Hm) by done. by simplify_map_eq.
    + rewrite (bool_decide_eq_false_2 _ Hv).
      destruct (decide (lower (path_suffix p) ∈ SUPPORTED_AUDIO_EXTS)) as [Ha|Ha].
      * rewrite (bool_decide_eq_true_2 _ Ha).
        destruct (ffprobe_metadata p probe) as [metadata|] eqn:Hm; result_simpl;
          [|done].
        apply ffprobe_metadata_keys in Hm.
        apply IH; [done|]. intros k e [[<- <-]|[_ He]]%lookup_insert_Some;
          [|by apply Hinv].
        exists p, probe. eexists. split; [done|]. split; [done|].
        split; [by right|]. split; [done|].
        rewrite (bool_decide_eq_false_2 _ Hv).
        split; [|split; [|exact (metadata_union_fields _ _ Hm)]].
        -- rewrite (metadata_union_base _ _ _ Hm) by done. by simplify_map_eq.
        -- rewrite (metadata_union_base _ _ _ Hm) by done. by simplify_map_eq.
      * rewrite (bool_decide_eq_false_2 _ Ha). by apply IH.
Qed.

(** X11. Every entry of the mapping [discover_media] returns is that of a
    video or audio file it found, stored under the name of the file, with
    the path of the file, its type ("video" or "audio" by its extension), a
    title and a duration: images and other files get no entry of their own. *)
Theorem discover_media_entries files (items : gmap string value) k e :
  discover_media (DirFiles files) = Ok items →
  items !! k = Some e →
  ∃ p probe (d : gmap string value),
    (p, probe) ∈ files ∧ path_name p = k ∧ is_media_file p ∧ e = VDict d ∧
    d !! "path" = Some (VStr (path_str p)) ∧
    d !! "type"
    = Some (VStr (if bool_decide (lower (path_suffix p) ∈ SUPPORTED_VIDEO_EXTS)
                  then "video" else "audio")) ∧
    is_Some (d !! "title") ∧ is_Some (d !! "duration_seconds").
Proof.
  cbn [discover_media]. intros Hloop Hk.
  by apply (discover_loop_entries (images_by_stem_of files.*1) files files ∅ items).
Qed.

Lemma discover_media_entries_witness :
  ∃ (items : gmap string value) p probe (d : gmap string value),
    discover_media (DirFiles [(mk_path "media/" "cover.png", ProbeFails);
                              (mk_path "media/" "news.mp4", news_probe)])
    = Ok items ∧
    items !! "cover.png" = None ∧
    items !! "news.mp4" = Some (VDict d) ∧
    (p, probe) ∈ [(mk_path "media/" "cover.png", ProbeFails);
                  (mk_path "media/" "news.mp4", news_probe)] ∧
    path_name p = "news.mp4" ∧
    d !! "path" = Some (VStr (path_str p)).
Proof.
  pose proof (discover_media_entries
                [(mk_path "media/" "cover.png", ProbeFails);
                 (mk_path "media/" "news.mp4", news_probe)]) as Hentries.
  assert (Hs : match discover_media
                       (DirFiles [(mk_path "media/" "cover.png", ProbeFails);
                                  (mk_path "media/" "news.mp4", news_probe)]) with
               | Ok items => is_none (items !! "cover.png")
                             && negb (is_none (items !! "news.mp4"))
               | Raise _ => false
               end = true) by (vm_compute; reflexivity).
  destruct (discover_media _) as [items|]; [|discriminate Hs].
  apply andb_true_iff in Hs as [Hcover Hnews].
  destruct (items !! "cover.png") eqn:Hc; [discriminate Hcover|].
  destruct (items !! "news.mp4") as [e|] eqn:Hn; [|discriminate Hnews].
  destruct (Hentries items "news.mp4" e eq_refl Hn)
    as (p & probe & d & Hin & Hname & _ & -> & Hpath & _).
  exists items, p, probe, d. by repeat split.
Defined.

(** ** The image of an audio file *)

(** The image kept for a stem is the last image file with that stem. *)
Lemma images_by_stem_of_lookup all_files stem :
  images_by_stem_of all_files !! stem = last (filter (image_with_stem stem) all_files).
Proof.
  unfold images_by_stem_of.
  induction all_files as [|q l IH] using rev_ind; [done|].
  rewrite foldl_app, filter_app, last_app. cbn [foldl].
  rewrite filter_cons, filter_nil.
  destruct (decide (lower (path_suffix q) ∈ SUPPORTED_IMAGE_EXTS)) as [Hi|Hi].
  - rewrite (bool_decide_eq_true_2 _ Hi).
    destruct (decide (path_stem q = stem)) as [Hs|Hs].
    + rewrite decide_True by done. subst stem. by rewrite lookup_insert_eq.
    + rewrite decide_False by (by intros [_ ?]).
      by rewrite lookup_insert_ne.
  - rewrite (bool_decide_eq_false_2 _ Hi).
    rewrite decide_False by (by intros [? _]). done.
Qed.

(** X12. The entry of an audio file gives as [image_path] the path of the
    last image file found whose stem is that of the audio file (the
    extension of the image is matched without regard to case, the stem
    exactly, in any directory), and [None] when there is no such image. *)
Theorem discover_media_image_path before p probe after (items : gmap string value) :
  discover_media (DirFiles (before ++ (p, probe) :: after)) = Ok items →
  lower (path_suffix p) ∉ SUPPORTED_VIDEO_EXTS →
  lower (path_suffix p) ∈ SUPPORTED_AUDIO_EXTS →
  (∀ q probe', (q, probe') ∈ after → path_name q ≠ path_name p) →
  ∃ d : gmap string value,
    items !! path_name p = Some (VDict d) ∧
    d !! "image_path"
    = Some (match last (filter (image_with_stem (path_stem p))
                          (before ++ (p, probe) :: after).*1) with
            | Some image => VStr (path_str image)
            | None => VNone
            end).
Proof.
  cbn [discover_media]. intros Hloop Hv Ha Hafter.
  rewrite discover_loop_app in Hloop.
  destruct (discover_loop _ before ∅) as [items1|]; result_simpl in Hloop; [|done].
  cbn [discover_loop] in Hloop.
  rewrite (bool_decide_eq_false_2 _ Hv), (bool_decide_eq_true_2 _ Ha) in Hloop.
  destruct (ffprobe_metadata p probe) as [metadata|] eqn:Hm; result_simpl in Hloop;
    [|done].
  apply ffprobe_metadata_keys in Hm.
  eexists. split.
  - rewrite (discover_loop_other _ _ _ _ _ Hloop Hafter). apply lookup_insert_eq.
  - rewrite (metadata_union_base _ _ _ Hm) by done.
    rewrite lookup_insert_ne, lookup_insert_ne, lookup_insert_eq by done.
    by rewrite images_by_stem_of_lookup.
Qed.

Lemma discover_media_image_path_witness :
  ∃ (items d : gmap string value),
    discover_media
      (DirFiles [(mk_path "media/art/" "jingle.PNG", ProbeFails);
                 (mk_path "media/" "jingle.mp3", ProbeFails);
                 (mk_path "media/" "Jingle.jpg", ProbeFails)]) = Ok items ∧
    items !! "jingle.mp3" = Some (VDict d) ∧
    d !! "image_path" = Some (VStr "media/art/jingle.PNG").
Proof.
  pose proof (discover_media_image_path
                [(mk_path "media/art/" "jingle.PNG", ProbeFails)]
                (mk_path "media/" "jingle.mp3") ProbeFails
                [(mk_path "media/" "Jingle.jpg", ProbeFails)]) as Himage.
  cbn [app] in Himage.
  assert (Hs : is_ok (discover_media
                        (DirFiles [(mk_path "media/art/" "jingle.PNG", ProbeFails);
                                   (mk_path "media/" "jingle.mp3", ProbeFails);
                                   (mk_path "media/" "Jingle.jpg", ProbeFails)]))
               = true) by (vm_compute; reflexivity).
  destruct (discover_media _) as [items|]; [|discriminate Hs].
  destruct (Himage items eq_refl) as (d & Hd & Hpath).
  - by vm_compute.
  - by vm_compute.
  - intros q probe' Hq. apply list_elem_of_singleton in Hq. by injection Hq as -> ->.
  - exists items, d. split; [reflexivity|]. split; [exact Hd|].
    rewrite Hpath. vm_compute. reflexivity.
Defined.

(** ** The metadata cache in the loop *)

Lemma update_metadata_cache_payload directory now fault payload :
  update_metadata_cache directory now fault = Ok payload →
  ∃ items : gmap string value,
    discover_media directory = Ok items ∧
    payload = VDict (<["updated_at" := VStr (format_utc now)]>
                     (<["items" := VDict items]> ∅)).
Proof.
  unfold update_metadata_cache.
  destruct (discover_media directory) as [items|]; result_simpl; [|done].
  destruct (atomic_write_result fault); result_simpl; [|done].
  intros [= <-]. by exists items.
Qed.



Lemma tick_cache_refreshed io st st' status :
  tick io st = Ok (st', status) →
  refreshed_cache (metadata_cache st) ∨
  Qle_bool (io_time io - last_metadata_scan st) RESCAN_INTERVAL_SECONDS = false →
  refreshed_cache (metadata_cache st').
Proof.
  unfold tick, tick_refresh_metadata. intros Htick Hcache.
  assert (Hstep : ∀ r,
    (if negb (Qle_bool (io_time io - last_metadata_scan st) RESCAN_INTERVAL_SECONDS)
     then update_metadata_cache (io_media_dir io) (io_metadata_now io)
            (io_metadata_write io) ≫= (λ payload, Ok (payload, io_time io))
     else Ok (metadata_cache st, last_metadata_scan st)) = Ok r →
    refreshed_cache r.1).
  { intros [mc scan]. destruct (Qle_bool _ _) eqn:Hdue; cbn [negb].
    - intros [= <- <-]. by destruct Hcache.
    - destruct (update_metadata_cache _ _ _) as [payload|] eqn:Hup; result_simpl;
        [|done].
      intros [= <- <-]. apply update_metadata_cache_payload in Hup as (items & _ & ->).
      eexists _, items. split; [done|]. by rewrite lookup_insert_ne, lookup_insert_eq. }
  destruct (if negb _ then _ else _) as [[mc scan]|]; result_simpl in Htick; [|done].
  specialize (Hstep (mc, scan) eq_refl). cbn in Hstep.
  destruct (tick_reload_schedule io st) as [[sc m]|]; result_simpl in Htick; [|done].
  destruct (resolve_schedule_items sc) as [items|]; result_simpl in Htick; [|done].
  destruct (select_current_item items _) as [[c n]|]; result_simpl in Htick; [|done].
  destruct (build_status _ c n mc) as [status'|]; result_simpl in Htick; [|done].
  destruct (atomic_write_result _); result_simpl in Htick; [|done].
  by injection Htick as <- <-.
Qed.

Lemma run_ticks_cache_refreshed ticks : ∀ st published st',
  refreshed_cache (metadata_cache st) →
  run_ticks ticks st = (published, Ok st') →
  refreshed_cache (metadata_cache st').
Proof.
  induction ticks as [|io ticks IH]; intros st published st' Hc; cbn [run_ticks].
  - by intros [= <- <-].
  - destruct (tick io st) as [[st1 status]|] eqn:Htick; [|done].
    destruct (run_ticks ticks st1) as [published1 outcome] eqn:Hrun.
    intros [= <- ->]. eapply IH; [|exact Hrun].
    eapply tick_cache_refreshed; [exact Htick|by left].
Qed.

(** X14. When the clock of the first iteration reads more than ten
    seconds, the metadata cache is, after any number of completed
    iterations, an object with an object under ["items"] (the payload of a
    refresh), whatever the metadata file held when the program started. *)
Theorem run_scheduler_cache_refreshed start io ticks published st' :
  (RESCAN_INTERVAL_SECONDS < io_time io)%Q →
  run_scheduler start (io :: ticks) = (published, Ok st') →
  refreshed_cache (metadata_cache st').
Proof.
  intros Hclock. unfold run_scheduler.
  destruct (startup start) as [st|] eqn:Hstart; [|done].
  cbn [run_ticks].
  destruct (tick io st) as [[st1 status]|] eqn:Htick; [|done].
  destruct (run_ticks ticks st1) as [published1 outcome] eqn:Hrun.
  intros [= <- ->]. eapply run_ticks_cache_refreshed; [|exact Hrun].
  eapply tick_cache_refreshed; [exact Htick|]. right.
  assert (Hscan : last_metadata_scan st = inject_Z 0).
  { revert Hstart. unfold startup.
    destruct (start_mkdir start); result_simpl; [|done].
    destruct (start_schedule_exists start) as [found|]; result_simpl; [|done].
    destruct (if found then _ else _); result_simpl; [|done].
    by intros [= <-]. }
  rewrite Hscan. destruct (Qle_bool _ _) eqn:Hle; [|done].
  apply Qle_bool_iff in Hle. unfold RESCAN_INTERVAL_SECONDS, inject_Z in *. lra.
Qed.

Lemma run_scheduler_cache_refreshed_witness :
  ∃ published st',
    run_scheduler example_startup [quiet_io; quiet_io] = (published, Ok st') ∧
    refreshed_cache (metadata_cache st').
Proof.
  pose proof (run_scheduler_cache_refreshed example_startup quiet_io [quiet_io])
    as Hrun.
  assert (Hs : is_ok (run_scheduler example_startup [quiet_io; quiet_io]).2 = true)
    by (vm_compute; reflexivity).
  destruct (run_scheduler example_startup [quiet_io; quiet_io])
    as [published [st'|]]; [|discriminate Hs].
  exists published, st'. split; [reflexivity|].
  apply (Hrun published st'); [|reflexivity].
  by vm_compute.
Defined.

(** ** What an iteration publishes *)

Lemma select_loop_members items now rest : ∀ idx cur nxt c n,
  (∀ x, x ∈ rest → x ∈ items) →
  (∀ x, cur = Some x → x ∈ items) →
  (∀ x, nxt = Some x → x ∈ items) →
  select_loop items now idx rest cur nxt = Ok (c, n) →
  (∀ x, c = Some x → x ∈ items) ∧ (∀ x, n = Some x → x ∈ items).
Proof.
  induction rest as [|item rest IH]; intros idx cur nxt c n Hrest Hcur Hnxt;
    cbn [select_loop].
  - by intros [= <- <-].
  - assert (Hitem : item ∈ items) by apply Hrest, list_elem_of_here.
    assert (Hrest' : ∀ x, x ∈ rest → x ∈ items)
      by (intros x Hx; by apply Hrest, list_elem_of_further).
    destruct (py_subscript item "_seconds") as [s|]; result_simpl; [|done].
    destruct (py_le_int s now) as [[]|]; result_simpl; [| |done].
    + destruct (if Nat.ltb _ _ then _ else _) as [y|] eqn:Hy; result_simpl; [|done].
      apply IH; [done| |].
      * by intros x [= <-].
      * intros x [= <-]. unfold py_index in Hy.
        destruct (Nat.ltb _ _);
          [destruct (items !! (idx + 1)%nat) eqn:Hl|destruct (items !! 0%nat) eqn:Hl];
          simplify_eq; by eapply list_elem_of_lookup_2.
    + destruct (py_gt_int s now) as [later|]; result_simpl; [|done].
      destruct (later && is_none cur).
      * unfold py_last. destruct (last items) as [l|] eqn:Hl; result_simpl; [|done].
        intros [= <- <-]. split; intros x [= <-]; [|done].
        rewrite last_lookup in Hl. by eapply list_elem_of_lookup_2.
      * by apply IH.
Qed.

(** The entries [select_current_item] returns are entries of the list, and
    both are there when the list is not empty. *)
Lemma select_current_item_members items now c n :
  select_current_item items now = Ok (c, n) →
  (∀ x, c = Some x → x ∈ items) ∧ (∀ x, n = Some x → x ∈ items) ∧
  (items ≠ [] → is_Some c ∧ is_Some n).
Proof.
  unfold select_current_item. destruct items as [|i0 items'].
  - intros [= <- <-]. by repeat split.
  - destruct (select_loop _ _ _ _ _ _) as [[c0 n0]|] eqn:Hloop; result_simpl;
      [|done].
    apply select_loop_members in Hloop as [Hc Hn]; [|done..].
    unfold py_last, py_index. rewrite last_cons_default.
    cbn [lookup list_lookup]. result_simpl.
    destruct c0 as [c0|], n0 as [n0|]; result_simpl; intros [= <- <-].
    + split; [done|]. split; [done|]. intros _. by split.
    + split; [done|]. split; [|intros _; by split].
      intros x [= <-]. apply list_elem_of_here.
    + split; [|split; [done|intros _; by split]].
      intros x [= <-].
      pose proof (last_cons_default i0 items') as Hl.
      rewrite last_lookup in Hl. by eapply list_elem_of_lookup_2.
    + split; [|split; [|intros _; by split]].
      * intros x [= <-].
        pose proof (last_cons_default i0 items') as Hl.
        rewrite last_lookup in Hl. by eapply list_elem_of_lookup_2.
      * intros x [= <-]. apply list_elem_of_here.
Qed.

Lemma normalized_entry_present x : normalized_entry x → present (Some x) = true.
Proof.
  intros (d & z & -> & Hz). cbn [present]. apply truthy_dict.
  intros ->. by rewrite lookup_empty in Hz.
Qed.

Lemma build_status_absent now metadata_cache status :
  build_status now None None metadata_cache = Ok status →
  status = idle_status now.
Proof.
  unfold build_status.
  destruct (py_get metadata_cache "items" (VDict ∅)); result_simpl; [|done].
  cbn [present]. result_simpl. by intros [= <-].
Qed.

(** X15. Whenever an iteration of the loop completes, the status it
    published is the idle status (no current item, no next item, no
    metadata, no [display_until_utc]) if the cached schedule resolves to no
    entry, and has a current item, a next item and a [display_until_utc] if
    it resolves to at least one entry: with one valid entry in the schedule
    the loop never reports that nothing is playing. *)
Theorem tick_publishes_current io st st' status :
  tick io st = Ok (st', status) →
  ∃ items,
    resolve_schedule_items (schedule_cache st') = Ok items ∧
    (items = [] → status = idle_status (io_status_now io)) ∧
    (items ≠ [] →
     is_Some (status !! "display_until_utc") ∧
     ∃ ci ni : gmap string value,
       status !! "current_item" = Some (VDict ci) ∧
       status !! "next_item" = Some (VDict ni)).
Proof.
  unfold tick.
  destruct (tick_refresh_metadata io st) as [[mc scan]|]; result_simpl; [|done].
  destruct (tick_reload_schedule io st) as [[sc m]|]; result_simpl; [|done].
  destruct (resolve_schedule_items sc) as [items|] eqn:Hres; result_simpl; [|done].
  destruct (select_current_item items _) as [[c n]|] eqn:Hsel; result_simpl;
    [|done].
  destruct (build_status _ c n mc) as [status'|] eqn:Hb; result_simpl; [|done].
  destruct (atomic_write_result _); result_simpl; [|done].
  intros [= <- <-]. cbn [schedule_cache]. exists items. split; [done|].
  apply resolve_schedule_items_sorted in Hres as [Hnorm _].
  pose proof (select_current_item_members _ _ _ _ Hsel) as (Hc & Hn & Hboth).
  split.
  - intros ->. cbn in Hsel. injection Hsel as <- <-.
    by apply build_status_absent in Hb.
  - intros Hne. destruct (Hboth Hne) as [[x ->] [y ->]].
    assert (Hx : present (Some x) = true).
    { apply normalized_entry_present. eapply Forall_forall in Hnorm; [done|].
      by apply Hc. }
    assert (Hy : present (Some y) = true).
    { apply normalized_entry_present. eapply Forall_forall in Hnorm; [done|].
      by apply Hn. }
    apply build_status_keys in Hb as (_ & Hcur & Hnext).
    rewrite Hx in Hcur. rewrite Hy in Hnext.
    destruct Hcur as [Huntil (ci & Hci & _)]. destruct Hnext as (ni & Hni & _).
    split; [done|]. by exists ci, ni.
Qed.

Lemma tick_publishes_current_witness :
  ∃ st' status items,
    tick quiet_io example_state = Ok (st', status) ∧
    resolve_schedule_items (schedule_cache st') = Ok items ∧
    (items ≠ [] →
     is_Some (status !! "display_until_utc") ∧
     ∃ ci ni : gmap string value,
       status !! "current_item" = Some (VDict ci) ∧
       status !! "next_item" = Some (VDict ni)).
Proof.
  pose proof (tick_publishes_current quiet_io example_state) as Htick.
  assert (Hs : is_ok (tick quiet_io example_state) = true)
    by (vm_compute; reflexivity).
  destruct (tick quiet_io example_state) as [[st' status]|]; [|discriminate Hs].
  destruct (Htick st' status eq_refl) as (items & Hres & _ & Hcur).
  by exists st', status, items.
Defined.

(** X16. An iteration that completes with no scan due leaves the metadata
    cache and the time of the last scan as they were, whatever the media
    directory holds; and when the schedule file does not exist, or has the
    modification time it was read at, it leaves the schedule cache as it
    was, whatever the file holds: a schedule file deleted while the loop
    runs does not empty the schedule. *)
Theorem tick_keeps_caches io st st' status :
  tick io st = Ok (st', status) →
  (Qle_bool (io_time io - last_metadata_scan st) RESCAN_INTERVAL_SECONDS = true →
   metadata_cache st' = metadata_cache st ∧
   last_metadata_scan st' = last_metadata_scan st) ∧
  (io_schedule_exists io = Ok false ∨
   (∃ mtime, io_schedule_stat io = Ok mtime ∧
             Qeq_bool mtime (schedule_mtime st) = true) →
   schedule_cache st' = schedule_cache st ∧
   schedule_mtime st' = schedule_mtime st).
Proof.
  unfold tick.
  destruct (tick_refresh_metadata io st) as [[mc scan]|] eqn:Hr; result_simpl;
    [|done].
  destruct (tick_reload_schedule io st) as [[sc m]|] eqn:Hl; result_simpl; [|done].
  destruct (resolve_schedule_items sc) as [items|]; result_simpl; [|done].
  destruct (select_current_item items _) as [[c n]|]; result_simpl; [|done].
  destruct (build_status _ c n mc) as [status'|]; result_simpl; [|done].
  destruct (atomic_write_result _); result_simpl; [|done].
  intros [= <- <-]. cbn [metadata_cache last_metadata_scan schedule_cache schedule_mtime].
  split.
  - intros Hdue. unfold tick_refresh_metadata in Hr. rewrite Hdue in Hr.
    cbn [negb] in Hr. by injection Hr as <- <-.
  - unfold tick_reload_schedule in Hl. intros [Hex|(mtime & Hstat & Hsame)].
    + rewrite Hex in Hl. result_simpl in Hl. by injection Hl as <- <-.
    + destruct (io_schedule_exists io) as [[]|]; result_simpl in Hl; [| |done].
      * rewrite Hstat in Hl. result_simpl in Hl. rewrite Hsame in Hl.
        cbn [negb] in Hl. by injection Hl as <- <-.
      * by injection Hl as <- <-.
Qed.

Lemma tick_keeps_caches_witness :
  ∃ st' status,
    tick (with_schedule_file (FileText (Some (VList []))) (inject_Z 1) quiet_io)
      example_state = Ok (st', status) ∧
    metadata_cache st' = metadata_cache example_state ∧
    schedule_cache st' = schedule_cache example_state.
Proof.
  pose proof (tick_keeps_caches
                (with_schedule_file (FileText (Some (VList []))) (inject_Z 1) quiet_io)
                example_state) as Hkeep.
  assert (Hs : is_ok (tick (with_schedule_file (FileText (Some (VList [])))
                              (inject_Z 1) quiet_io) example_state) = true)
    by (vm_compute; reflexivity).
  destruct (tick _ example_state) as [[st' status]|]; [|discriminate Hs].
  destruct (Hkeep st' status eq_refl) as [Hmeta Hsched].
  exists st', status. split; [reflexivity|]. split.
  - apply Hmeta. reflexivity.
  - apply Hsched. right. exists (inject_Z 1). by split.
Defined.

(** ** Files the write leaves alone, and a write after a failed one *)

Section AtomicWriteFrame.
Variable json_dumps : value → string.

(** The rename moves the text and removes the temporary file. *)
Lemma replace_file_insert (fs : gmap string string) tmp target text :
  replace_file (<[tmp := text]> fs) tmp target = <[target := text]> (delete tmp fs).
Proof. unfold replace_file. by rewrite lookup_insert_eq, delete_insert_eq. Qed.

(** Apart from the temporary file, every observable state is the initial
    one or the final one. *)
Lemma atomic_write_json_states p data fault (fs : gmap string string) tmp s :
  tmp_path_of p = Ok tmp →
  s ∈ (atomic_write_json json_dumps p data fault fs).1 →
  delete (path_str tmp) s = delete (path_str tmp) fs ∨
  s = <[path_str p := json_dumps data]> (delete (path_str tmp) fs).
Proof.
  intros Htmp. unfold atomic_write_json. rewrite Htmp.
  assert (Hwrite : ∀ upto,
    s ∈ write_text_states fs (path_str tmp) (json_dumps data) upto →
    delete (path_str tmp) s = delete (path_str tmp) fs).
  { intros upto Hs. unfold write_text_states in Hs.
    apply list_elem_of_fmap in Hs as (k & -> & _). apply delete_insert_eq. }
  destruct fault as [| |written|]; cbn [fst].
  - intros [->|[Hs|Hs%list_elem_of_singleton]%elem_of_app]%elem_of_cons.
    + by left.
    + left. by eapply Hwrite.
    + right. by rewrite Hs, replace_file_insert.
  - intros ->%list_elem_of_singleton. by left.
  - intros [->|Hs]%elem_of_cons; left; [done|]. by eapply Hwrite.
  - intros [->|Hs]%elem_of_cons; left; [done|]. by eapply Hwrite.
Qed.

Lemma atomic_write_json_final p data (fs : gmap string string) tmp :
  tmp_path_of p = Ok tmp →
  last (atomic_write_json json_dumps p data NoFault fs).1
  = Some (<[path_str p := json_dumps data]> (delete (path_str tmp) fs)).
Proof.
  intros Htmp. unfold atomic_write_json. rewrite Htmp. cbn [fst].
  by rewrite app_comm_cons, last_snoc, replace_file_insert.
Qed.

(** X17. While [atomic_write_json] runs, and after it, whether it succeeds
    or fails at any point, every file other than the canonical one and the
    temporary one (named by the canonical path followed by [.tmp]) holds
    what it held before. *)
Theorem atomic_write_json_frame p data fault (fs : gmap string string) s file :
  s ∈ (atomic_write_json json_dumps p data fault fs).1 →
  file ≠ path_str p →
  file ≠ path_str p +:+ ".tmp" →
  s !! file = fs !! file.
Proof.
  intros Hs Htarget Hfile.
  destruct (tmp_path_of p) as [tmp|e] eqn:Htmp.
  - rewrite <- (tmp_path_of_str p tmp Htmp) in Hfile.
    destruct (atomic_write_json_states p data fault fs tmp s Htmp Hs) as [Heq| ->].
    + rewrite <- (lookup_delete_ne s (path_str tmp) file) by done.
      rewrite Heq. by apply lookup_delete_ne.
    + rewrite lookup_insert_ne by done. by apply lookup_delete_ne.
  - unfold atomic_write_json in Hs. rewrite Htmp in Hs.
    by apply list_elem_of_singleton in Hs as ->.
Qed.

(** X18. A write that follows an earlier write of the same path, failed at
    any point or complete, leaves the file system exactly as it would have
    without the earlier one: the canonical file holds the new document and
    no temporary file, truncated or whole, is left behind. *)
Theorem atomic_write_json_retry p earlier data fault (fs left_over : gmap string string) :
  last (atomic_write_json json_dumps p earlier fault fs).1 = Some left_over →
  last (atomic_write_json json_dumps p data NoFault left_over).1
  = last (atomic_write_json json_dumps p data NoFault fs).1.
Proof.
  intros Hlast.
  destruct (tmp_path_of p) as [tmp|e] eqn:Htmp.
  - rewrite !(atomic_write_json_final p data _ tmp Htmp). f_equal.
    apply last_Some in Hlast as [l Hl].
    destruct (atomic_write_json_states p earlier fault fs tmp left_over Htmp)
      as [Heq| ->].
    + rewrite Hl. apply elem_of_app. right. by apply list_elem_of_singleton.
    + by rewrite Heq.
    + pose proof (tmp_path_of_fresh p tmp Htmp) as Hne.
      rewrite delete_insert_ne by done. rewrite delete_delete_eq.
      apply insert_insert_eq.
  - unfold atomic_write_json in *. rewrite Htmp in *. cbn [fst] in *.
    by injection Hlast as <-.
Qed.
End AtomicWriteFrame.

Lemma atomic_write_json_frame_witness :
  let fs : gmap string string :=
    {[ "obs_status.json" := "{old}"; "schedule.json" := "{}" ]} in
  let s := <[ "obs_status.json.tmp" := "{ne" ]> fs in
  s ∈ (atomic_write_json (λ _, "{new}") STATUS_FILE (VDict ∅) (WriteFails 3) fs).1 ∧
  s !! "schedule.json" = fs !! "schedule.json".
Proof.
  cbv zeta.
  assert (Hs : <[ "obs_status.json.tmp" := "{ne" ]>
                 ({[ "obs_status.json" := "{old}"; "schedule.json" := "{}" ]}
                  : gmap string string)
               ∈ (atomic_write_json (λ _, "{new}") STATUS_FILE (VDict ∅)
                    (WriteFails 3)
                    {[ "obs_status.json" := "{old}"; "schedule.json" := "{}" ]}).1).
  { apply (list_elem_of_lookup_2 _ 4%nat). vm_compute. reflexivity. }
  split; [exact Hs|].
  apply (atomic_write_json_frame (λ _, "{new}") STATUS_FILE (VDict ∅)
           (WriteFails 3) _ _ "schedule.json" Hs).
  - vm_compute. discriminate.
  - vm_compute. discriminate.
Defined.

Lemma atomic_write_json_retry_witness :
  let fs : gmap string string := {[ "obs_status.json" := "{old}" ]} in
  let left_over := <[ "obs_status.json.tmp" := "{ne" ]> fs in
  last (atomic_write_json (λ _, "{new}") STATUS_FILE (VDict ∅) (WriteFails 3) fs).1
  = Some left_over ∧
  last (atomic_write_json (λ _, "{new}") STATUS_FILE (VDict ∅) NoFault left_over).1
  = last (atomic_write_json (λ _, "{new}") STATUS_FILE (VDict ∅) NoFault fs).1.
Proof.
  cbv zeta.
  assert (Hlast :
    last (atomic_write_json (λ _, "{new}") STATUS_FILE (VDict ∅) (WriteFails 3)
            ({[ "obs_status.json" := "{old}" ]} : gmap string string)).1
    = Some (<[ "obs_status.json.tmp" := "{ne" ]> {[ "obs_status.json" := "{old}" ]}))
    by (vm_compute; reflexivity).
  split; [exact Hlast|].
  exact (atomic_write_json_retry (λ _, "{new}") STATUS_FILE (VDict ∅) (VDict ∅)
           (WriteFails 3) _ _ Hlast).
Defined.

(** ** The order the editor stores *)

Lemma str_ltb_irrefl a : str_ltb a a = false.
Proof.
  induction a as [|c a IH]; [done|]. cbn [str_ltb].
  by rewrite N.ltb_irrefl, N.eqb_refl, IH.
Qed.

(** Behind prefixes of one length the order is that of the prefixes, and
    that of what follows when they are equal. *)
Lemma str_ltb_app a : ∀ b x y,
  String.length a = String.length b →
  str_ltb (a +:+ x) (b +:+ y)
  = if String.eqb a b then str_ltb x y else str_ltb a b.
Proof.
  induction a as [|c a IH]; intros [|d b] x y Hlen; try done.
  change (String c a +:+ x) with (String c (a +:+ x)).
  change (String d b +:+ y) with (String d (b +:+ y)).
  cbn [str_ltb String.eqb]. rewrite IH by (cbn in Hlen; lia).
  destruct (Ascii.eqb_spec c d) as [->|Hcd].
  - by rewrite N.ltb_irrefl, N.eqb_refl.
  - assert ((N_of_ascii c =? N_of_ascii d)%N = false) as ->; [|done].
    apply N.eqb_neq. intros Heq. apply Hcd.
    by rewrite <- (ascii_N_embedding c), <- (ascii_N_embedding d), Heq.
Qed.

(** Two digits are ordered as the numbers they write. *)
Lemma two_digits_order a b :
  0 ≤ a < 100 → 0 ≤ b < 100 →
  str_ltb (two_digits a) (two_digits b) = (a <? b) ∧
  String.eqb (two_digits a) (two_digits b) = (a =? b).
Proof.
  intros Ha Hb.
  assert (Hall : forallb
    (λ a, forallb (λ b, Bool.eqb (str_ltb (two_digits a) (two_digits b)) (a <? b)
                        && Bool.eqb (String.eqb (two_digits a) (two_digits b)) (a =? b))
            (Z.of_nat <$> seq 0%nat 100%nat)) (Z.of_nat <$> seq 0%nat 100%nat) = true)
    by (vm_compute; reflexivity).
  pose proof (Z_below_forallb _ 100%nat Hall a Ha) as Hcheck.
  cbv beta in Hcheck.
  pose proof (Z_below_forallb _ 100%nat Hcheck b Hb) as Hab. cbv beta in Hab.
  apply andb_true_iff in Hab as [H1 H2].
  apply Bool.eqb_prop in H1. apply Bool.eqb_prop in H2. split; assumption.
Qed.

(** The times the editor writes are ordered as the seconds they stand for. *)
Lemma format_time_order h m s h' m' s' :
  0 ≤ h < 24 → 0 ≤ m < 60 → 0 ≤ s < 60 →
  0 ≤ h' < 24 → 0 ≤ m' < 60 → 0 ≤ s' < 60 →
  str_ltb (format_time h m s) (format_time h' m' s')
  = (h * 3600 + m * 60 + s <? h' * 3600 + m' * 60 + s').
Proof.
  intros Hh Hm Hs Hh' Hm' Hs'. unfold format_time.
  destruct (two_digits_order h h') as [Hlt1 Heq1]; [lia..|].
  destruct (two_digits_order m m') as [Hlt2 Heq2]; [lia..|].
  destruct (two_digits_order s s') as [Hlt3 _]; [lia..|].
  rewrite str_ltb_app by done. rewrite Heq1, Hlt1.
  rewrite (str_ltb_app ":" ":") by done. cbn [String.eqb Ascii.eqb Bool.eqb].
  rewrite str_ltb_app by done. rewrite Heq2, Hlt2.
  rewrite (str_ltb_app ":" ":") by done. cbn [String.eqb Ascii.eqb Bool.eqb].
  rewrite Hlt3.
  destruct (Z.eqb_spec h h'), (Z.eqb_spec m m'), (Z.ltb_spec h h'),
    (Z.ltb_spec m m'), (Z.ltb_spec s s'),
    (Z.ltb_spec (h * 3600 + m * 60 + s) (h' * 3600 + m' * 60 + s')); lia.
Qed.

Lemma editor_entry_seconds d :
  editor_entry d →
  ∃ h m s,
    0 ≤ h < 24 ∧ 0 ≤ m < 60 ∧ 0 ≤ s < 60 ∧
    entry_time d = VStr (format_time h m s) ∧
    entry_seconds d = h * 3600 + m * 60 + s ∧
    normalize_entry d = Some (with_seconds d).
Proof.
  intros (t & Ht & h & m & s & Hh & Hm & Hs & ->). exists h, m, s.
  assert (Htime : entry_time d = VStr (format_time h m s))
    by (unfold entry_time; by rewrite Ht).
  assert (Hparse : parse_time_to_seconds (entry_time d) = Some (h * 3600 + m * 60 + s))
    by (rewrite Htime; apply parse_time_format; lia).
  repeat (split; [done|]). unfold with_seconds, entry_seconds, normalize_entry.
  by rewrite Hparse.
Qed.

Lemma py_lt_editor d d' :
  editor_entry d → editor_entry d' →
  py_lt (entry_time d) (entry_time d') = Ok (entry_seconds d <? entry_seconds d').
Proof.
  intros (h & m & s & Hh & Hm & Hs & -> & -> & _)%editor_entry_seconds
         (h' & m' & s' & Hh' & Hm' & Hs' & -> & -> & _)%editor_entry_seconds.
  cbn [py_lt]. by rewrite format_time_order.
Qed.

(** On entries of the editor the sort by time string is the sort by
    seconds of the scheduler. *)
Lemma insert_by_key_editor d : ∀ ds,
  editor_entry d → Forall editor_entry ds →
  ∃ ds',
    insert_by_key (entry_time d, VDict d) ((λ d, (entry_time d, VDict d)) <$> ds)
    = Ok ((λ d, (entry_time d, VDict d)) <$> ds') ∧
    with_seconds <$> ds' = insert_by_seconds (with_seconds d) (with_seconds <$> ds) ∧
    ds' ≡ₚ d :: ds.
Proof.
  intros ds Hd. induction ds as [|y ds IH]; intros Hds.
  - by exists [d].
  - apply Forall_cons in Hds as [Hy Hds].
    cbn [fmap list_fmap insert_by_key insert_by_seconds fst].
    rewrite (py_lt_editor y d Hy Hd). result_simpl.
    unfold with_seconds at 2 3. rewrite !seconds_of_insert.
    destruct (Z.ltb_spec (entry_seconds y) (entry_seconds d)) as [Hlt|Hge].
    + destruct (IH Hds) as (ds' & Hins & Hsec & Hperm).
      change (list_fmap _ _ ?f ds) with (f <$> ds). rewrite Hins. result_simpl.
      exists (y :: ds'). split; [done|]. split.
      * assert ((entry_seconds d <=? entry_seconds y) = false) as -> by lia.
        cbn [fmap list_fmap]. f_equal. exact Hsec.
      * rewrite Hperm. apply Permutation_swap.
    + exists (d :: y :: ds). split; [done|]. split; [|done].
      by assert ((entry_seconds d <=? entry_seconds y) = true) as -> by lia.
Qed.

Lemma sort_by_key_editor ds :
  Forall editor_entry ds →
  ∃ ds',
    sort_by_key ((λ d, (entry_time d, VDict d)) <$> ds)
    = Ok ((λ d, (entry_time d, VDict d)) <$> ds') ∧
    with_seconds <$> ds' = sort_by_seconds (with_seconds <$> ds) ∧
    ds' ≡ₚ ds.
Proof.
  induction ds as [|d ds IH]; intros Hds.
  - by exists [].
  - apply Forall_cons in Hds as [Hd Hds].
    destruct (IH Hds) as (sorted & Hsort & Hsec & Hperm).
    assert (Hsorted : Forall editor_entry sorted) by by rewrite Hperm.
    destruct (insert_by_key_editor d sorted Hd Hsorted) as (ds' & Hins & Hsec' & Hperm').
    exists ds'. cbn [fmap list_fmap sort_by_key].
    change (list_fmap _ _ ?f ds) with (f <$> ds). rewrite Hsort. result_simpl.
    split; [done|]. split.
    + rewrite Hsec', Hsec. done.
    + by rewrite Hperm', Hperm.
Qed.

Lemma time_keys_dicts ds : time_keys (VDict <$> ds) = Ok (entry_time <$> ds).
Proof.
  induction ds as [|d ds IH]; [done|].
  cbn [fmap list_fmap time_keys py_get]. result_simpl.
  change (list_fmap _ _ ?f ds) with (f <$> ds). rewrite IH. by result_simpl.
Qed.

Lemma sorted_by_time_editor ds :
  Forall editor_entry ds →
  ∃ ds',
    sorted_by_time (VDict <$> ds) = Ok (VDict <$> ds') ∧
    with_seconds <$> ds' = sort_by_seconds (with_seconds <$> ds) ∧
    ds' ≡ₚ ds.
Proof.
  intros Hds. destruct (sort_by_key_editor ds Hds) as (ds' & Hsort & Hsec & Hperm).
  exists ds'. split; [|done]. unfold sorted_by_time.
  rewrite time_keys_dicts. result_simpl.
  assert (zip (entry_time <$> ds) (VDict <$> ds)
          = (λ d, (entry_time d, VDict d)) <$> ds) as ->.
  { clear. induction ds as [|d ds IH]; [done|]. cbn. f_equal. exact IH. }
  rewrite Hsort. result_simpl. f_equal.
  clear. induction ds' as [|d ds IH]; [done|]. cbn. f_equal. exact IH.
Qed.

(** The sort of the scheduler leaves a sorted list as it is. *)
Lemma sort_by_seconds_sorted l :
  Sorted Z.le (seconds_of <$> l) → sort_by_seconds l = l.
Proof.
  induction l as [|x l IH]; [done|]. cbn [fmap list_fmap].
  intros [Hl Hhd]%Sorted_inv. cbn [sort_by_seconds foldr].
  fold (sort_by_seconds l). rewrite (IH Hl).
  destruct l as [|y l]; [done|]. cbn [insert_by_seconds].
  apply HdRel_inv in Hhd.
  by assert ((seconds_of x <=? seconds_of y) = true) as -> by lia.
Qed.

Lemma omap_normalize_editor ds :
  Forall editor_entry ds → omap normalize_entry ds = with_seconds <$> ds.
Proof.
  induction 1 as [|d ds Hd _ IH]; [done|].
  destruct (editor_entry_seconds d Hd) as (_ & _ & _ & _ & _ & _ & _ & _ & Hn).
  cbn [omap list_omap fmap list_fmap]. rewrite Hn. f_equal. exact IH.
Qed.

Lemma prompt_time_accepts lines t :
  prompt_time lines = Ok (Some t) → editor_time t.
Proof.
  induction lines as [|line lines IH]; [done|]. cbn [prompt_time].
  destruct (prompt_time_attempt line) as [[t'|]|] eqn:Ha; result_simpl;
    [|exact IH|done].
  intros [= ->]. by apply prompt_time_attempt_accepts in Ha.
Qed.

Lemma editor_entry_schedule_entry time_lines time_str media duration :
  prompt_time time_lines = Ok (Some time_str) →
  editor_entry (schedule_entry time_str media duration).
Proof.
  intros Ht%prompt_time_accepts. by exists time_str.
Qed.

(** X19. When the entries of the schedule all carry a time as the editor
    writes it, and [add_schedule_item] saves: the saved schedule holds the
    entries it held and the new one (the time accepted by [prompt_time], a
    media name of the metadata, the duration typed), its entries carry
    times of the editor again, and the scheduler resolves it to these very
    entries in the order they are stored in, none dropped: the order by
    time string of the editor is the order by seconds of the scheduler. *)
Theorem add_schedule_item_resolved (schedule : gmap string value) ds metadata
    choice time_lines duration_line now fault schedule' :
  ascii_lines (choice :: duration_line :: time_lines) →
  schedule !! "items" = Some (VList (VDict <$> ds)) →
  Forall editor_entry ds →
  add_schedule_item (VDict schedule) metadata choice time_lines duration_line
    now fault = Ok (Saved schedule') →
  ∃ time_str media_name media_items ds',
    prompt_time time_lines = Ok (Some time_str) ∧
    list_media_items metadata = Ok media_items ∧ media_name ∈ media_items ∧
    py_subscript schedule' "items" = Ok (VList (VDict <$> ds')) ∧
    ds' ≡ₚ ds ++ [schedule_entry time_str media_name (prompt_int duration_line 10)] ∧
    Forall editor_entry ds' ∧
    resolve_schedule_items schedule' = Ok (with_seconds <$> ds').
Proof.
  intros _ Hitems Hds. unfold add_schedule_item.
  destruct (list_media_items metadata) as [media_items|]; result_simpl; [|done].
  destruct (bool_decide _); [done|].
  destruct (selected_index _ _) as [index|]; result_simpl; [|done].
  destruct (index ≫= _) as [media_name|] eqn:Hname; [|done].
  destruct (prompt_time time_lines) as [[time_str|]|] eqn:Htime; result_simpl;
    [|done..].
  cbn [py_subscript]. rewrite Hitems. result_simpl.
  fold (schedule_entry time_str media_name (prompt_int duration_line 10)).
  set (item := schedule_entry _ _ _).
  assert (Hall : Forall editor_entry (ds ++ [item])).
  { apply Forall_app. split; [done|]. apply Forall_singleton.
    by eapply editor_entry_schedule_entry. }
  destruct (sorted_by_time_editor _ Hall) as (ds' & Hsort & Hsec & Hperm).
  change [VDict item] with (VDict <$> [item]). rewrite <- fmap_app, Hsort.
  result_simpl. unfold save_schedule.
  destruct (atomic_write_result fault); result_simpl; [|done].
  intros [= <-]. exists time_str, media_name, media_items, ds'.
  assert (Hds' : Forall editor_entry ds') by by rewrite Hperm.
  split; [done|]. split; [done|]. split.
  { destruct index as [i|]; [|done]. cbn in Hname.
    by eapply list_elem_of_lookup_2. }
  split.
  { cbn [py_subscript]. rewrite lookup_insert_ne by done.
    by rewrite lookup_insert_eq. }
  split; [done|]. split; [done|].
  rewrite (resolve_schedule_items_dicts _ ds').
  - rewrite (omap_normalize_editor _ Hds'), Hsec. f_equal.
    apply sort_by_seconds_sorted, sort_by_seconds_Sorted.
  - rewrite lookup_insert_ne by done. by rewrite lookup_insert_eq.
Qed.

Lemma add_schedule_item_resolved_witness :
  let saved :=
    VDict (<["last_updated" := VStr "2024-01-01T09:30:00Z"]>
           (<["items" := VList (VDict <$> [schedule_entry "08:00:00" "showA" 10;
                                           schedule_entry "12:30:00" "news" 10;
                                           schedule_entry "20:00:00" "showB" 5])]>
            editor_schedule)) in
  add_schedule_item (VDict editor_schedule) editor_metadata " 1 "
    ["24:00:00"; "12:30:00"] "" (at_time_of_day 9 30 0) NoFault
  = Ok (Saved saved) ∧
  ∃ time_str media_name media_items ds',
    prompt_time ["24:00:00"; "12:30:00"] = Ok (Some time_str) ∧
    list_media_items editor_metadata = Ok media_items ∧ media_name ∈ media_items ∧
    py_subscript saved "items" = Ok (VList (VDict <$> ds')) ∧
    ds' ≡ₚ [schedule_entry "08:00:00" "showA" 10; schedule_entry "20:00:00" "showB" 5]
           ++ [schedule_entry time_str media_name (prompt_int "" 10)] ∧
    Forall editor_entry ds' ∧
    resolve_schedule_items saved = Ok (with_seconds <$> ds').
Proof.
  intros saved.
  assert (Hrun :
    add_schedule_item (VDict editor_schedule) editor_metadata " 1 "
      ["24:00:00"; "12:30:00"] "" (at_time_of_day 9 30 0) NoFault
    = Ok (Saved saved))
    by (vm_compute; reflexivity).
  assert (Hlines : ascii_lines [" 1 "; ""; "24:00:00"; "12:30:00"])
    by (repeat constructor).
  assert (Hitems : editor_schedule !! "items"
                   = Some (VList (VDict <$> [schedule_entry "08:00:00" "showA" 10;
                                             schedule_entry "20:00:00" "showB" 5])))
    by (vm_compute; reflexivity).
  assert (Hstored : Forall editor_entry [schedule_entry "08:00:00" "showA" 10;
                                         schedule_entry "20:00:00" "showB" 5]).
  { repeat constructor.
    - exists "08:00:00". split; [reflexivity|]. exists 8, 0, 0.
      repeat split; (lia || reflexivity).
    - exists "20:00:00". split; [reflexivity|]. exists 20, 0, 0.
      repeat split; (lia || reflexivity). }
  split; [exact Hrun|].
  exact (add_schedule_item_resolved editor_schedule _ editor_metadata " 1 "
           ["24:00:00"; "12:30:00"] "" (at_time_of_day 9 30 0) NoFault saved
           Hlines Hitems Hstored Hrun).
Defined.

(** ** Removing an entry *)

(** Only JSON objects with a time and a media get through the loop that
    prints the entries. *)
Lemma print_entries_dicts entries :
  print_entries entries = Ok () →
  ∃ ds, entries = VDict <$> ds ∧
        Forall (λ d : gmap string value,
                  is_Some (d !! "time") ∧ is_Some (d !! "media")) ds.
Proof.
  induction entries as [|x entries IH]; [by exists []|]. cbn [print_entries].
  destruct (py_subscript x "time") as [t|] eqn:Ht; result_simpl; [|done].
  destruct (py_subscript x "media") as [m|] eqn:Hm; result_simpl; [|done].
  intros (ds & -> & Hds)%IH. destruct x as [| | | | | |d]; try done.
  exists (d :: ds). split; [done|]. constructor; [|done].
  cbn [py_subscript] in Ht, Hm.
  destruct (d !! "time"), (d !! "media"); by eauto.
Qed.

Lemma selected_index_bound choice count i :
  selected_index choice count = Ok (Some i) → (i < count)%nat.
Proof.
  unfold selected_index. destruct (str_isdigit _); [|done].
  destruct (py_int _) as [number|]; result_simpl; [|done].
  destruct (_ && _) eqn:Hrange; [|done]. intros [= <-].
  apply andb_true_iff in Hrange as [?%Z.leb_le ?%Z.leb_le]. lia.
Qed.

(** An entry inserted into a sorted list can be taken out again. *)
Lemma insert_by_seconds_self x : ∀ s,
  ∃ j, insert_by_seconds x s !! j = Some x ∧ delete j (insert_by_seconds x s) = s.
Proof.
  induction s as [|y s (j & Hj & Hdel)]; [by exists 0%nat|].
  cbn [insert_by_seconds]. destruct (_ <=? _).
  - by exists 0%nat.
  - exists (S j). split; [done|].
    change (y :: delete j (insert_by_seconds x s) = y :: s). by rewrite Hdel.
Qed.

(** Inserting into a sorted list from which one entry was taken, or taking
    that entry after the insertion, gives the same list. *)
Lemma insert_by_seconds_delete x : ∀ s j e,
  Sorted Z.le (seconds_of <$> s) → s !! j = Some e →
  ∃ j', insert_by_seconds x s !! j' = Some e ∧
        insert_by_seconds x (delete j s) = delete j' (insert_by_seconds x s).
Proof.
  induction s as [|y s IH]; intros j e Hsorted Hj; [done|].
  cbn [fmap list_fmap] in Hsorted. apply Sorted_inv in Hsorted as [Hs Hhd].
  cbn [insert_by_seconds].
  destruct (Z.leb_spec (seconds_of x) (seconds_of y)) as [Hle|Hgt].
  - destruct j as [|j].
    + injection Hj as <-. exists 1%nat. split; [done|].
      change (insert_by_seconds x s = x :: s).
      destruct s as [|z s]; [done|]. cbn [insert_by_seconds].
      apply HdRel_inv in Hhd.
      by assert ((seconds_of x <=? seconds_of z) = true) as -> by lia.
    + exists (S (S j)). split; [done|].
      change (insert_by_seconds x (y :: delete j s) = x :: y :: delete j s).
      cbn [insert_by_seconds].
      by assert ((seconds_of x <=? seconds_of y) = true) as -> by lia.
  - destruct j as [|j].
    + injection Hj as <-. by exists 0%nat.
    + destruct (IH j e Hs Hj) as (j' & Hj' & Hdel). exists (S j').
      split; [done|].
      change (insert_by_seconds x (y :: delete j s)
              = y :: delete j' (insert_by_seconds x s)).
      cbn [insert_by_seconds].
      assert ((seconds_of x <=? seconds_of y) = false) as -> by lia.
      by rewrite Hdel.
Qed.

(** The sort of a list without one of its entries is the sorted list
    without that entry. *)
Lemma sort_by_seconds_delete l : ∀ i e,
  l !! i = Some e →
  ∃ j, sort_by_seconds l !! j = Some e ∧
       sort_by_seconds (delete i l) = delete j (sort_by_seconds l).
Proof.
  induction l as [|x l IH]; intros i e Hi; [done|].
  cbn [sort_by_seconds foldr]. fold (sort_by_seconds l).
  destruct i as [|i].
  - injection Hi as <-. cbn [delete list_delete].
    destruct (insert_by_seconds_self x (sort_by_seconds l)) as (j & Hj & Hdel).
    by exists j.
  - destruct (IH i e Hi) as (j & Hj & Hdel).
    destruct (insert_by_seconds_delete x (sort_by_seconds l) j e
                (sort_by_seconds_Sorted l) Hj) as (j' & Hj' & Hdel').
    exists j'. split; [done|].
    change (delete (S i) (x :: l)) with (x :: delete i l).
    cbn [sort_by_seconds foldr]. fold (sort_by_seconds (delete i l)).
    by rewrite Hdel.
Qed.

(** The entries kept of a list without one entry. *)
Lemma omap_normalize_delete (ds : list (gmap string value)) : ∀ i d,
  ds !! i = Some d →
  match normalize_entry d with
  | Some e => ∃ j, omap normalize_entry ds !! j = Some e ∧
                   omap normalize_entry (delete i ds)
                   = delete j (omap normalize_entry ds)
  | None => omap normalize_entry (delete i ds) = omap normalize_entry ds
  end.
Proof.
  induction ds as [|x ds IH]; intros i d Hi; [done|]. destruct i as [|i].
  - injection Hi as <-. cbn [omap list_omap delete list_delete].
    destruct (normalize_entry x) as [e|]; [|done]. by exists 0%nat.
  - specialize (IH i d Hi). change (delete (S i) (x :: ds)) with (x :: delete i ds).
    cbn [omap list_omap].
    change (list_omap _ _ normalize_entry ?l) with (omap normalize_entry l).
    destruct (normalize_entry d) as [e|].
    + destruct IH as (j & Hj & Hdel).
      destruct (normalize_entry x) as [y|].
      * exists (S j). split; [done|].
        change (y :: omap normalize_entry (delete i ds)
                = y :: delete j (omap normalize_entry ds)).
        by rewrite Hdel.
      * by exists j.
    + by rewrite IH.
Qed.

(** X20. When [remove_schedule_item] saves, the stored entries were JSON
    objects with a time and a media, the number typed selects one of them,
    and the saved schedule holds the others in their order. The scheduler
    then resolves the schedule it resolved before without the resolved
    form of the entry removed, and the very same schedule when that
    entry had a time the scheduler cannot read. *)
Theorem remove_schedule_item_resolved (schedule : gmap string value) choice
    now fault schedule' :
  ascii_lines [choice] →
  remove_schedule_item (VDict schedule) choice now fault = Ok (Saved schedule') →
  ∃ ds i d resolved,
    schedule !! "items" = Some (VList (VDict <$> ds)) ∧
    Forall (λ d : gmap string value,
              is_Some (d !! "time") ∧ is_Some (d !! "media")) ds ∧
    selected_index choice (length ds) = Ok (Some i) ∧
    ds !! i = Some d ∧
    py_subscript schedule' "items" = Ok (VList (VDict <$> delete i ds)) ∧
    resolve_schedule_items (VDict schedule) = Ok resolved ∧
    match normalize_entry d with
    | Some e => ∃ j, resolved !! j = Some e ∧
                     resolve_schedule_items schedule' = Ok (delete j resolved)
    | None => resolve_schedule_items schedule' = Ok resolved
    end.
Proof.
  intros _. unfold remove_schedule_item. cbn [py_get]. result_simpl.
  destruct (schedule !! "items") as [items|] eqn:Hitems; cbn [default from_option id];
    [|done].
  destruct (truthy items); cbn [negb]; [|done].
  destruct (py_iter items) as [entries|] eqn:Hiter; result_simpl; [|done].
  destruct (print_entries entries) as [[]|] eqn:Hprint; result_simpl; [|done].
  destruct (selected_index _ _) as [[i|]|] eqn:Hindex; result_simpl; [|done..].
  apply print_entries_dicts in Hprint as (ds & -> & Hds).
  destruct items as [| | | | |l|m]; try done.
  cbn [py_iter] in Hiter. injection Hiter as ->.
  unfold save_schedule. destruct (atomic_write_result fault); result_simpl; [|done].
  intros [= <-]. rewrite length_fmap in Hindex.
  pose proof (selected_index_bound _ _ _ Hindex) as Hi.
  destruct (lookup_lt_is_Some_2 ds i Hi) as [d Hd].
  exists ds, i, d, (sort_by_seconds (omap normalize_entry ds)).
  assert (Hitems' :
    (<["last_updated" := VStr (format_utc now)]>
       (<["items" := VList (delete i (VDict <$> ds))]> schedule)) !! "items"
    = Some (VList (VDict <$> delete i ds))).
  { rewrite lookup_insert_ne by done. rewrite lookup_insert_eq.
    by rewrite list_fmap_delete. }
  split; [done|]. split; [done|]. split; [done|]. split; [done|]. split.
  { cbn [py_subscript]. by rewrite Hitems'. }
  split; [by apply resolve_schedule_items_dicts|].
  rewrite (resolve_schedule_items_dicts _ _ Hitems').
  pose proof (omap_normalize_delete ds i d Hd) as Hdel.
  destruct (normalize_entry d) as [e|].
  - destruct Hdel as (j & Hj & ->).
    destruct (sort_by_seconds_delete _ _ _ Hj) as (j' & Hj' & ->).
    by exists j'.
  - by rewrite Hdel.
Qed.

Lemma remove_schedule_item_resolved_witness :
  let saved :=
    VDict (<["last_updated" := VStr "2024-01-01T09:30:00Z"]>
           (<["items" := VList [VDict (schedule_entry "20:00:00" "showB" 5)]]>
            editor_schedule)) in
  remove_schedule_item (VDict editor_schedule) "1" (at_time_of_day 9 30 0) NoFault
  = Ok (Saved saved) ∧
  ∃ ds i d resolved,
    editor_schedule !! "items" = Some (VList (VDict <$> ds)) ∧
    Forall (λ d : gmap string value,
              is_Some (d !! "time") ∧ is_Some (d !! "media")) ds ∧
    selected_index "1" (length ds) = Ok (Some i) ∧
    ds !! i = Some d ∧
    py_subscript saved "items" = Ok (VList (VDict <$> delete i ds)) ∧
    resolve_schedule_items (VDict editor_schedule) = Ok resolved ∧
    match normalize_entry d with
    | Some e => ∃ j, resolved !! j = Some e ∧
                     resolve_schedule_items saved = Ok (delete j resolved)
    | None => resolve_schedule_items saved = Ok resolved
    end.
Proof.
  intros saved.
  assert (Hrun :
    remove_schedule_item (VDict editor_schedule) "1" (at_time_of_day 9 30 0) NoFault
    = Ok (Saved saved))
    by (vm_compute; reflexivity).
  assert (Hline : ascii_lines ["1"]) by (repeat constructor).
  split; [exact Hrun|].
  exact (remove_schedule_item_resolved editor_schedule "1" (at_time_of_day 9 30 0)
           NoFault saved Hline Hrun).
Defined.
